(** * label-driven-review-and-approval-check: the approval-policy engine

    A shallow embedding of the action's TypeScript source (configuration
    validation, label matching, review-state reduction, team-membership
    resolution, approval evaluation and the reconciliation of team review
    requests) and the properties the specification states about it.

    Conventions of the embedding:
    - a JavaScript string is the list of its UTF-16 code units;
    - a JavaScript number is a rational, or one of NaN, +Infinity, -Infinity;
    - an object used as a dictionary is the finite map of its own properties,
      and reads through [o[k]] and [k in o] also see what every object
      literal inherits from [Object.prototype];
    - a [Map] is an association list in insertion order, a [Set] of strings
      is a [gset] when only membership is asked and a duplicate-free list when
      it is iterated;
    - the remote API, the logger and the action outputs are a trace of
      effects written by a small writer-and-exception monad. *)

From Stdlib Require Import QArith Qround.
From stdpp Require Import gmap strings list fin_maps pretty.

Set Warnings "-register-all,-clear-no-such-hyp".

Local Open Scope N_scope.
Local Open Scope Z_scope.
Local Open Scope nat_scope.
Local Open Scope list_scope.

(* ===================================================================== *)
(** ** Strings *)
(* ===================================================================== *)

(** A string is the sequence of its UTF-16 code units. *)
Abbreviation jsstring := (list N).

(** The code units of a literal of the source. *)
Definition u16 (s : string) : jsstring :=
  (λ a, Ascii.N_of_ascii a) <$> String.list_ascii_of_string s.

(** [WhiteSpace] and [LineTerminator] of ECMAScript, the code points that
    [String.prototype.trim] strips; all of them are single code units. *)
Definition isWhiteSpace (c : N) : bool :=
  bool_decide (c ∈ [9; 10; 11; 12; 13; 32; 160; 5760;
                    8192; 8193; 8194; 8195; 8196; 8197; 8198; 8199; 8200;
                    8201; 8202; 8232; 8233; 8239; 8287; 12288; 65279]%N).

Fixpoint trimStart (s : jsstring) : jsstring :=
  match s with
  | c :: r => if isWhiteSpace c then trimStart r else s
  | [] => []
  end.

Definition trimEnd (s : jsstring) : jsstring := rev (trimStart (rev s)).

(** [s.trim()] *)
Definition trim (s : jsstring) : jsstring := trimEnd (trimStart s).

(** [xs.join(sep)] on an array of strings. *)
Fixpoint join (sep : jsstring) (xs : list jsstring) : jsstring :=
  match xs with
  | [] => []
  | [x] => x
  | x :: r => x ++ sep ++ join sep r
  end.

(** Truthiness of a string: only the empty string is falsy. *)
Definition truthy_string (s : jsstring) : bool :=
  match s with [] => false | _ => true end.

(* ===================================================================== *)
(** ** Numbers *)
(* ===================================================================== *)

(** A number: every finite double is a rational, and [>=], [<] and
    [Math.floor] are exact on doubles, so the finite part is [Q]. *)
Inductive jsnum :=
| Num (q : Q)
| PosInf
| NegInf
| NaN.

Definition num_of_Z (z : Z) : jsnum := Num (inject_Z z).
Definition num_of_nat (n : nat) : jsnum := num_of_Z (Z.of_nat n).

(** [Math.floor] *)
Definition Math_floor (n : jsnum) : jsnum :=
  match n with
  | Num q => num_of_Z (Qfloor q)
  | _ => n
  end.

(** [a >= b]; any comparison with NaN is false. *)
Definition js_ge (a b : jsnum) : bool :=
  match a, b with
  | NaN, _ | _, NaN => false
  | PosInf, _ => true
  | _, NegInf => true
  | NegInf, _ => false
  | _, PosInf => false
  | Num x, Num y => Qle_bool y x
  end.

(** [a < b] *)
Definition js_lt (a b : jsnum) : bool :=
  match a, b with
  | NaN, _ | _, NaN => false
  | PosInf, _ => false
  | _, NegInf => false
  | NegInf, _ => true
  | _, PosInf => true
  | Num x, Num y => negb (Qle_bool y x)
  end.

(* ===================================================================== *)
(** ** Parsed documents *)
(* ===================================================================== *)

(** What the YAML parser hands over.  The entries of [JObject] are the own
    enumerable properties in [Object.entries] order. *)
Inductive jsvalue :=
| JNull
| JBool (b : bool)
| JNumber (n : jsnum)
| JString (s : jsstring)
| JArray (xs : list jsvalue)
| JObject (entries : list (jsstring * jsvalue)).

(** [typeof v === "object" && v !== null] *)
Definition is_object (v : jsvalue) : bool :=
  match v with
  | JArray _ | JObject _ => true
  | _ => false
  end.

(** [Boolean(v)] *)
Definition Boolean (v : jsvalue) : bool :=
  match v with
  | JNull => false
  | JBool b => b
  | JNumber (Num q) => negb (Qeq_bool q 0)
  | JNumber NaN => false
  | JNumber _ => true
  | JString s => truthy_string s
  | JArray _ | JObject _ => true
  end.

(** The decimal index of an array element, as a property key. *)
Definition index_key (i : nat) : jsstring := u16 (pretty i).

(** [Object.entries(v)] for an object or an array. *)
Definition Object_entries (v : jsvalue) : list (jsstring * jsvalue) :=
  match v with
  | JObject entries => entries
  | JArray xs => imap (λ i x, (index_key i, x)) xs
  | _ => []
  end.

(** [obj.name] for one of the configuration field names; [None] is
    [undefined].  None of the names read this way is a member of
    [Object.prototype] or of an array. *)
Fixpoint assoc (k : jsstring) (entries : list (jsstring * jsvalue))
  : option jsvalue :=
  match entries with
  | [] => None
  | (k', v) :: r => if decide (k = k') then Some v else assoc k r
  end.

Definition field (name : string) (v : jsvalue) : option jsvalue :=
  match v with
  | JObject entries => assoc (u16 name) entries
  | _ => None
  end.

(* ===================================================================== *)
(** ** Objects used as dictionaries *)
(* ===================================================================== *)

(** The property names every object literal inherits from
    [Object.prototype]. *)
Definition Object_prototype_keys : list jsstring :=
  u16 <$> ["constructor"; "__defineGetter__"; "__defineSetter__";
           "hasOwnProperty"; "__lookupGetter__"; "__lookupSetter__";
           "isPrototypeOf"; "propertyIsEnumerable"; "toString"; "valueOf";
           "__proto__"; "toLocaleString"]%string.

Definition proto_key : jsstring := u16 "__proto__".

(** What a read [o[k]] finds: an own value, or the member of
    [Object.prototype] called [k] (a function, or the prototype object itself
    for [__proto__]; truthy in every case). *)
Inductive prop (V : Type) :=
| Own (v : V)
| Inherited (k : jsstring).
Arguments Own {V} v.
Arguments Inherited {V} k.

Section dictionary.
Context {V : Type}.

(** [o[k]]; [None] is [undefined]. *)
Definition get (o : gmap jsstring V) (k : jsstring) : option (prop V) :=
  match o !! k with
  | Some v => Some (Own v)
  | None =>
      if bool_decide (k ∈ Object_prototype_keys) then Some (Inherited k)
      else None
  end.

(** [k in o] *)
Definition has_in (k : jsstring) (o : gmap jsstring V) : bool :=
  bool_decide (is_Some (o !! k)) || bool_decide (k ∈ Object_prototype_keys).

(** [Object.prototype.hasOwnProperty.call(o, k)] *)
Definition hasOwnProperty (o : gmap jsstring V) (k : jsstring) : bool :=
  bool_decide (is_Some (o !! k)).

(** [o[k] = v].  The key [__proto__] reaches the accessor of
    [Object.prototype], which never creates an own property: a primitive
    value is dropped, an object value becomes the prototype. *)
Definition assign (o : gmap jsstring V) (k : jsstring) (v : V)
  : gmap jsstring V :=
  if decide (k = proto_key) then o else <[k := v]> o.
End dictionary.

(** Truthiness of what [labels[k]] returns. *)
Definition truthy_slug (p : option (prop jsstring)) : bool :=
  match p with
  | None => false
  | Some (Own s) => truthy_string s
  | Some (Inherited _) => true
  end.

(* ===================================================================== *)
(** ** Configuration *)
(* ===================================================================== *)

(** One entry of [overrides]. *)
Record Override := {
  ov_requiredApprovals : option jsnum;
}.

(** [interface LabelConfig] *)
Record LabelConfig := {
  labels : gmap jsstring jsstring;           (* label -> team slug *)
  requiredApprovals : option jsnum;
  overrides : option (gmap jsstring Override);
  ignoreDraft : option bool;
  retractOnUnlabeled : option bool;
}.

(** The errors [validateConfig] throws:
    - "Config root must be an object.";
    - "Config must contain a "labels" object mapping label names to team
      slugs.";
    - "Domain k must map to a non-empty team slug string.";
    - "Override for domain k has invalid requiredApprovals r". *)
Inductive ConfigError :=
| RootNotObject
| LabelsNotObject
| DomainNotSlug (k : jsstring)
| OverrideInvalid (k : jsstring) (r : jsvalue).

(** The loop over [Object.entries(obj.labels)]. *)
Fixpoint validate_labels (entries : list (jsstring * jsvalue))
    (labels : gmap jsstring jsstring) : ConfigError + gmap jsstring jsstring :=
  match entries with
  | [] => inr labels
  | (k, v) :: rest =>
      match v with
      | JString s =>
          if truthy_string (trim s)
          then validate_labels rest (assign labels (trim k) (trim s))
          else inl (DomainNotSlug k)
      | _ => inl (DomainNotSlug k)
      end
  end.

(** The loop over [Object.entries(obj.overrides)]. *)
Fixpoint validate_overrides (entries : list (jsstring * jsvalue))
    (overrides : gmap jsstring Override)
  : ConfigError + gmap jsstring Override :=
  match entries with
  | [] => inr overrides
  | (k, spec) :: rest =>
      if is_object spec then
        match field "requiredApprovals" spec with
        | Some r =>
            match r with
            | JNumber n =>
                if js_lt n (num_of_Z 1) then inl (OverrideInvalid k r)
                else validate_overrides rest
                       (assign overrides k
                          {| ov_requiredApprovals := Some (Math_floor n) |})
            | _ => inl (OverrideInvalid k r)
            end
        | None => validate_overrides rest overrides
        end
      else validate_overrides rest overrides
  end.

(** The top-level [requiredApprovals] of the configuration being built. *)
Definition default_requiredApprovals (obj : jsvalue) : jsnum :=
  match field "requiredApprovals" obj with
  | Some (JNumber n) =>
      if js_ge n (num_of_Z 1) then Math_floor n else num_of_Z 1
  | _ => num_of_Z 1
  end.

(** [x !== undefined ? Boolean(x) : true] *)
Definition flag_or_true (x : option jsvalue) : bool :=
  match x with
  | Some v => Boolean v
  | None => true
  end.

Definition validateConfig (raw : jsvalue) : ConfigError + LabelConfig :=
  if negb (is_object raw) then inl RootNotObject
  else
    match field "labels" raw with
    | Some l =>
        if negb (is_object l) then inl LabelsNotObject
        else
          match validate_labels (Object_entries l) ∅ with
          | inl e => inl e
          | inr labels =>
              let cfg overrides :=
                {| labels := labels;
                   requiredApprovals := Some (default_requiredApprovals raw);
                   overrides := Some overrides;
                   ignoreDraft := Some (flag_or_true (field "ignoreDraft" raw));
                   retractOnUnlabeled :=
                     Some (flag_or_true (field "retractOnUnlabeled" raw)) |} in
              match field "overrides" raw with
              | Some o =>
                  if is_object o then
                    match validate_overrides (Object_entries o) ∅ with
                    | inl e => inl e
                    | inr overrides => inr (cfg overrides)
                    end
                  else inr (cfg ∅)
              | None => inr (cfg ∅)
              end
          end
    | None => inl LabelsNotObject
    end.

(* ===================================================================== *)
(** ** Reviews and their reduction *)
(* ===================================================================== *)

(** The [submitted_at] of a review: absent (undefined, null or the empty
    string); a date string, kept as the time value [new Date(s).getTime()]
    gives it; or a non-empty string [Date] cannot parse, whose time value is
    NaN. *)
Inductive Timestamp :=
| NoTimestamp
| Instant (ms : Z)
| InvalidDate.

(** [s ? new Date(s).getTime() : 0] *)
Definition getTime (s : Timestamp) : jsnum :=
  match s with
  | NoTimestamp => num_of_Z 0
  | Instant ms => num_of_Z ms
  | InvalidDate => NaN
  end.

(** One element of [pulls.listReviews]. *)
Record Review := {
  r_login : option jsstring;       (* r.user?.login *)
  r_state : option jsstring;       (* r.state *)
  r_submitted_at : Timestamp;      (* r.submitted_at *)
}.

(** A value of the [byUser] map. *)
Record ReviewInfo := {
  state : jsstring;
  submitted_at : Timestamp;
}.

Definition APPROVED : jsstring := u16 "APPROVED".

(** [Map.prototype.get] and [.set] on a map kept in insertion order: setting
    an existing key replaces the value where it stands. *)
Fixpoint Map_get {V : Type} (m : list (jsstring * V)) (k : jsstring)
  : option V :=
  match m with
  | [] => None
  | (k', v) :: rest => if decide (k = k') then Some v else Map_get rest k
  end.

Fixpoint Map_set {V : Type} (m : list (jsstring * V)) (k : jsstring) (v : V)
  : list (jsstring * V) :=
  match m with
  | [] => [(k, v)]
  | (k', v') :: rest =>
      if decide (k = k') then (k, v) :: rest else (k', v') :: Map_set rest k v
  end.

(** [Set.prototype.add] on a set kept in insertion order. *)
Definition Set_add (s : list jsstring) (x : jsstring) : list jsstring :=
  if bool_decide (x ∈ s) then s else s ++ [x].

(** The record stored for a review. *)
Definition info_of (r : Review) : ReviewInfo :=
  {| state := default [] (r_state r); submitted_at := r_submitted_at r |}.

(** The body of the loop over [allReviews]. *)
Definition record_review (byUser : list (jsstring * ReviewInfo)) (r : Review)
  : list (jsstring * ReviewInfo) :=
  match r_login r with
  | None | Some [] => byUser
  | Some login =>
      match Map_get byUser login with
      | None => Map_set byUser login (info_of r)
      | Some current =>
          let prev := getTime (submitted_at current) in
          let curr := getTime (r_submitted_at r) in
          if js_ge curr prev then Map_set byUser login (info_of r)
          else byUser
      end
  end.

(** The [byUser] map after all reviews. *)
Definition allReviewStates (allReviews : list Review)
  : list (jsstring * ReviewInfo) :=
  foldl record_review [] allReviews.

(** The loop that collects [approvedUsers] from [byUser.entries()]. *)
Definition approvedUsers (byUser : list (jsstring * ReviewInfo))
  : list jsstring :=
  foldl (λ approved '(user, info),
           if decide (state info = APPROVED) then Set_add approved user
           else approved)
        [] byUser.

(* ===================================================================== *)
(** ** Label matching *)
(* ===================================================================== *)

(** [interface DomainExtractionResult] *)
Record DomainExtractionResult := {
  domains : list jsstring;
  domainLabelMap : list (jsstring * jsstring);
}.

(** The body of the loop over [prLabels]; a label is its [name], [None] when
    the label or its name is null, undefined or not a string. *)
Definition match_label (config : LabelConfig)
    (domainLabelMap : list (jsstring * jsstring)) (l : option jsstring)
  : list (jsstring * jsstring) :=
  match l with
  | None | Some [] => domainLabelMap
  | Some name =>
      if hasOwnProperty (labels config) name
      then Map_set domainLabelMap name name
      else domainLabelMap
  end.

Definition extractDomainLabels (config : LabelConfig)
    (prLabels : list (option jsstring)) : DomainExtractionResult :=
  let domainLabelMap := foldl (match_label config) [] prLabels in
  {| domains := domainLabelMap.*1; domainLabelMap := domainLabelMap |}.

(* ===================================================================== *)
(** ** The environment of a run *)
(* ===================================================================== *)

Inductive SummaryMode := minimal | standard | verbose.

(** [interface Inputs] *)
Record Inputs := {
  token : jsstring;
  configPath : jsstring;
  failOnMissingConfig : bool;
  dryRun : bool;
  debug : bool;
  summaryMode : SummaryMode;
}.

(** [github.context.payload.pull_request], the fields the run reads. *)
Record PullRequest := {
  number : Z;
  head_sha : option jsstring;                       (* pr.head?.sha *)
  draft : bool;                                     (* truthiness of pr.draft *)
  pr_labels : option (list (option jsstring));      (* None: not an array *)
  requested_teams : option (list (option jsstring)) (* slugs; None: not an array *);
}.

(** [github.context] *)
Record Context := {
  eventName : jsstring;
  action : option jsstring;            (* payload.action *)
  label_name : option jsstring;        (* payload.label?.name *)
  pull_request : option PullRequest;   (* payload.pull_request *)
}.

(** [interface EvaluatedDomain] *)
Record EvaluatedDomain := {
  domainKey : jsstring;
  teamSlug : jsstring;
  labelName : jsstring;
  approvals : nat;
  required : jsnum;
  satisfied : bool;
  approvers : list jsstring;
}.

(** What is thrown. *)
Inductive Thrown :=
| ConfigInvalid (e : ConfigError)     (* an Error of validateConfig *)
| YamlError                           (* the parser rejects the text *)
| ConfigNotFound                      (* the Error loadConfig makes of a 404 *)
| RequestError (status : option Z)    (* a failed request, with err.status *)
| TypeError                           (* members.has is not a function *)
| NotAString (k : jsstring)           (* a member of Object.prototype in the
                                         place of a team slug; the embedding
                                         stops here *).

Inductive Conclusion := success | failure | neutral | skipped.

(** The texts the run logs and publishes, by template and arguments. *)
Inductive Message :=
| NoToken
| NotAPullRequest
| NoHeadSha
| FailedToLoadConfig (e : Thrown)
| NoConfiguration
| ConfigMissingText
| ConfigNotAFile
| ConfigNotFoundAt
| WouldRemoveTeam (team : prop jsstring)
| RemovedTeam (team : prop jsstring) (label : jsstring)
| FailedToRemoveTeam (team : prop jsstring)
| DraftSkipped
| CouldNotRefreshPR
| WouldRequestTeams (teams : list (prop jsstring))
| RequestedTeams (teams : list (prop jsstring))
| RequestsMayExist
| FailedEnsuring (e : Thrown)
| NoConfiguredLabels
| NoMappedTeam (domainKey : jsstring)
| LabelNotFound (domainKey : jsstring)
| CouldNotListMembers (team : jsstring)
| DebugFetched (size : nat) (team : jsstring)
| HeadShaUndefined
| UnableToCreateCheckRun
| MissingApprovals
| AllSatisfied
| FormattedEvaluations (ds : list EvaluatedDomain) (mode : SummaryMode)
| Unhandled (e : Thrown).

(** A title of a check run. *)
Inductive Title := NoConfigTitle | DraftPRTitle | NoLabelsTitle
                 | SummaryTitle (m : Message).

(** What a run does to the outside, in order. *)
Inductive effect :=
| info (m : Message)
| warning (m : Message)
| setFailed (m : Message)
| setOutput (name : string) (value : jsstring)
| repos_getContent
| pulls_get
| pulls_listReviews
| teams_listMembersInOrg (team_slug : jsstring)
| pulls_requestReviewers (team_reviewers : list (prop jsstring))
| pulls_removeRequestedReviewers (team_reviewers : list (prop jsstring))
| checks_create (conclusion : Conclusion) (summary : Title) (text : Message).

(** The answer to a request: data, or an error with its [status]. *)
Inductive Response (A : Type) :=
| Resolved (a : A)
| Rejected (status : option Z).
Arguments Resolved {A} a.
Arguments Rejected {A} status.

(** What [repos.getContent] and the parser make of the configuration path. *)
Inductive Content :=
| FileContent (parsed : option jsvalue)  (* a file; None: the text is not YAML *)
| OtherContent                           (* a directory, or no content *).

(** The remote side, by its answers. *)
Record Octokit := {
  on_getContent : Response Content;
  on_pulls_get : Response (option (list (option jsstring)));
  on_listReviews : Response (list Review);
  on_listMembersInOrg : jsstring → Response (list (option jsstring));
  on_requestReviewers : list (prop jsstring) → Response unit;
  on_removeRequestedReviewers : list (prop jsstring) → Response unit;
  on_checks_create : Response unit;
}.

(* ===================================================================== *)
(** ** Computations with a trace that may throw *)
(* ===================================================================== *)

Inductive Completion (A : Type) :=
| Normal (a : A)
| Throw (e : Thrown).
Arguments Normal {A} a.
Arguments Throw {A} e.

Definition M (A : Type) : Type := list effect * Completion A.

Definition ret {A : Type} (a : A) : M A := ([], Normal a).

Definition throw {A : Type} (e : Thrown) : M A := ([], Throw e).

Definition emit (e : effect) : M unit := ([e], Normal tt).

Definition bind {A B : Type} (m : M A) (k : A → M B) : M B :=
  match m with
  | (t, Normal a) => let '(t', c) := k a in (t ++ t', c)
  | (t, Throw e) => (t, Throw e)
  end.

(** [try { m } catch (err) { h err }] *)
Definition try_catch {A : Type} (m : M A) (h : Thrown → M A) : M A :=
  match m with
  | (t, Normal a) => (t, Normal a)
  | (t, Throw e) => let '(t', c) := h e in (t ++ t', c)
  end.

Declare Scope run_scope.
Delimit Scope run_scope with run.
Notation "'let*' x ':=' m 'in' k" := (bind m (λ x, k))
  (at level 10, x pattern, m at level 100, k at level 200) : run_scope.
Notation "m '>>' k" := (bind m (λ _, k))
  (at level 100, k at level 200, right associativity) : run_scope.
Local Open Scope run_scope.

(** The trace and the completion of a computation. *)
Definition trace {A : Type} (m : M A) : list effect := m.1.
Definition completion {A : Type} (m : M A) : Completion A := m.2.

(** [await] of a request: the request is traced, its rejection is thrown. *)
Definition await {A : Type} (request : effect) (answer : Response A) : M A :=
  emit request >>
  match answer with
  | Resolved a => ret a
  | Rejected status => throw (RequestError status)
  end.

(* ===================================================================== *)
(** ** Loading the configuration *)
(* ===================================================================== *)

(** The configuration is read at [pr.base.ref], which the payload of a pull
    request event carries; [on_getContent] is the answer to that read.  The
    look-up of the default branch that replaces a missing [pr.base.ref] (one
    more request, whose failure is caught) is outside this model. *)
Definition loadConfig (octokit : Octokit) (inputs : Inputs)
  : M (option LabelConfig) :=
  try_catch
    (let* res := await repos_getContent (on_getContent octokit) in
     match res with
     | FileContent (Some parsed) =>
         match validateConfig parsed with
         | inr config => ret (Some config)
         | inl e => throw (ConfigInvalid e)
         end
     | FileContent None => throw YamlError
     | OtherContent => emit (warning ConfigNotAFile) >> ret None
     end)
    (λ err,
       match err with
       | RequestError (Some 404%Z) =>
           if failOnMissingConfig inputs then throw ConfigNotFound
           else emit (warning ConfigNotFoundAt) >> ret None
       | _ => throw err
       end).

(* ===================================================================== *)
(** ** Team membership *)
(* ===================================================================== *)

(** [interface TeamMembersCache] *)
Abbreviation TeamMembersCache := (gmap jsstring (gset jsstring)).

(** The logins kept from a member listing. *)
Definition member_logins (members : list (option jsstring)) : gset jsstring :=
  list_to_set (filter (λ l, truthy_string l = true) (omap id members)).

(** Returns the members and the cache as the call leaves it.  The test
    [if (cache[teamSlug])] holds for every set, empty or not, and for every
    inherited member. *)
Definition fetchTeamMembers (octokit : Octokit) (teamSlug : jsstring)
    (cache : TeamMembersCache) (debugEnabled : bool)
  : M (prop (gset jsstring) * TeamMembersCache) :=
  match get cache teamSlug with
  | Some cached => ret (cached, cache)
  | None =>
      try_catch
        (let* members := await (teams_listMembersInOrg teamSlug)
                               (on_listMembersInOrg octokit teamSlug) in
         let set := member_logins members in
         let cache := assign cache teamSlug set in
         (if debugEnabled then emit (info (DebugFetched (size set) teamSlug))
          else ret tt) >>
         ret (Own set, cache))
        (λ err,
           emit (warning (CouldNotListMembers teamSlug)) >>
           let cache := assign cache teamSlug ∅ in
           ret (Own ∅, cache))
  end.

(* ===================================================================== *)
(** ** Reconciling review requests *)
(* ===================================================================== *)

(** [existingRequestedTeamSlugs.has(teamSlug)] *)
Definition requested (existing : gset jsstring) (teamSlug : prop jsstring)
  : bool :=
  match teamSlug with
  | Own s => bool_decide (s ∈ existing)
  | Inherited _ => false
  end.

(** The loop that fills [toRequest]. *)
Definition toRequest (config : LabelConfig) (presentDomains : list jsstring)
    (existingRequestedTeamSlugs : gset jsstring) : list (prop jsstring) :=
  foldl (λ acc d,
           match get (labels config) d with
           | Some teamSlug =>
               if negb (truthy_slug (Some teamSlug)) then acc
               else if requested existingRequestedTeamSlugs teamSlug then acc
               else acc ++ [teamSlug]
           | None => acc
           end)
        [] presentDomains.

Definition ensureTeamReviewRequests (octokit : Octokit) (config : LabelConfig)
    (presentDomains : list jsstring)
    (existingRequestedTeamSlugs : gset jsstring) (inputs : Inputs) : M unit :=
  let toRequest := toRequest config presentDomains existingRequestedTeamSlugs in
  match toRequest with
  | [] => ret tt
  | _ =>
      if dryRun inputs then emit (info (WouldRequestTeams toRequest))
      else
        try_catch
          (await (pulls_requestReviewers toRequest)
                 (on_requestReviewers octokit toRequest) >>
           emit (info (RequestedTeams toRequest)))
          (λ err,
             match err with
             | RequestError (Some 422%Z) => emit (warning RequestsMayExist)
             | _ => throw err
             end)
  end.

Definition maybeRetractOnUnlabeled (octokit : Octokit) (config : LabelConfig)
    (inputs : Inputs) (context : Context) : M unit :=
  if negb (default false (retractOnUnlabeled config)) then ret tt
  else if negb (bool_decide (eventName context = u16 "pull_request"))
          && negb (bool_decide (eventName context = u16 "pull_request_target"))
  then ret tt
  else if negb (bool_decide (action context = Some (u16 "unlabeled")))
  then ret tt
  else
    match label_name context with
    | None | Some [] => ret tt
    | Some removedLabelName =>
        if negb (has_in removedLabelName (labels config)) then ret tt
        else
          match get (labels config) removedLabelName with
          | Some teamSlug =>
              if negb (truthy_slug (Some teamSlug)) then ret tt
              else if dryRun inputs
              then emit (info (WouldRemoveTeam teamSlug))
              else
                try_catch
                  (await (pulls_removeRequestedReviewers [teamSlug])
                         (on_removeRequestedReviewers octokit [teamSlug]) >>
                   emit (info (RemovedTeam teamSlug removedLabelName)))
                  (λ err, emit (warning (FailedToRemoveTeam teamSlug)))
          | None => ret tt
          end
    end.

(* ===================================================================== *)
(** ** Check runs *)
(* ===================================================================== *)

Definition createCheckRun (octokit : Octokit) (headSha : option jsstring)
    (conclusion : Conclusion) (summary : Title) (text : Message) : M unit :=
  match headSha with
  | None | Some [] => emit (warning HeadShaUndefined)
  | Some _ =>
      try_catch
        (await (checks_create conclusion summary text)
               (on_checks_create octokit))
        (λ err, emit (warning UnableToCreateCheckRun))
  end.

(* ===================================================================== *)
(** ** The run *)
(* ===================================================================== *)

(** [existingRequestedTeamSlugs]: the non-empty slugs of the requested
    teams of the refreshed pull request. *)
Definition existingRequestedTeamSlugs
    (requested_teams : option (list (option jsstring))) : gset jsstring :=
  list_to_set
    (filter (λ slug, truthy_string slug = true)
            (omap id (default [] requested_teams))).

(** [overrideRequired ?? config.requiredApprovals ?? 1] *)
Definition required_for (config : LabelConfig) (domainKey : jsstring)
  : jsnum :=
  let overrideRequired :=
    match overrides config with
    | Some o =>
        match get o domainKey with
        | Some (Own ov) => ov_requiredApprovals ov
        | _ => None   (* a member of Object.prototype has no such field *)
        end
    | None => None
    end in
  default (default (num_of_Z 1) (requiredApprovals config)) overrideRequired.

(** The loop over [approvedUsers] that fills [approvers]. *)
Definition collect_approvers (members : prop (gset jsstring))
    (approvedUsers : list jsstring) : M (list jsstring) :=
  match members with
  | Own members => ret (filter (λ user, user ∈ members) approvedUsers)
  | Inherited _ =>
      match approvedUsers with
      | [] => ret []
      | _ => throw TypeError
      end
  end.

(** The body of the loop over [extraction.domains]; the state is the
    membership cache and the evaluations pushed so far.  The keys the
    matcher returns are own keys of [config.labels], so the read of the
    team slug never finds an inherited member in a run. *)
Definition evaluate_domain (octokit : Octokit) (inputs : Inputs)
    (config : LabelConfig) (extraction : DomainExtractionResult)
    (approvedUsers : list jsstring)
    (st : TeamMembersCache * list EvaluatedDomain) (domainKey : jsstring)
  : M (TeamMembersCache * list EvaluatedDomain) :=
  let '(cache, evaluations) := st in
  match get (labels config) domainKey with
  | None | Some (Own []) =>
      emit (warning (NoMappedTeam domainKey)) >> ret st
  | Some (Inherited k) => throw (NotAString k)
  | Some (Own teamSlug) =>
      let required := required_for config domainKey in
      match Map_get (domainLabelMap extraction) domainKey with
      | None | Some [] => emit (warning (LabelNotFound domainKey)) >> ret st
      | Some resolvedLabelName =>
          let* fetched :=
            fetchTeamMembers octokit teamSlug cache (debug inputs) in
          let '(members, cache) := fetched in
          let* approvers := collect_approvers members approvedUsers in
          let approvals := length approvers in
          ret (cache,
               evaluations ++
                 [{| domainKey := domainKey;
                     teamSlug := teamSlug;
                     labelName := resolvedLabelName;
                     approvals := approvals;
                     required := required;
                     satisfied := js_ge (num_of_nat approvals) required;
                     approvers := approvers |}])
      end
  end.

(** A loop whose body may throw. *)
Fixpoint for_of {S A : Type} (body : S → A → M S) (st : S) (xs : list A)
  : M S :=
  match xs with
  | [] => ret st
  | x :: rest => let* st := body st x in for_of body st rest
  end.

(** The evaluations of a run, from an empty cache. *)
Definition evaluate (octokit : Octokit) (inputs : Inputs)
    (config : LabelConfig) (extraction : DomainExtractionResult)
    (approvedUsers : list jsstring) : M (list EvaluatedDomain) :=
  let* st :=
    for_of (evaluate_domain octokit inputs config extraction approvedUsers)
           (∅, []) (domains extraction) in
  ret st.2.

Definition status_of (anyFailure : bool) : jsstring :=
  if anyFailure then u16 "failure" else u16 "success".

(** The requested teams of the pull request, read afresh; those of the
    event payload when the read fails. *)
Definition refresh_requested_teams (octokit : Octokit) (pr : PullRequest)
  : M (option (list (option jsstring))) :=
  try_catch (await pulls_get (on_pulls_get octokit))
            (λ err, emit (warning CouldNotRefreshPR) >>
                    ret (requested_teams pr)).

(** The end of the run without a configured label on the pull request. *)
Definition report_no_labels (octokit : Octokit) (headSha : option jsstring)
  : M unit :=
  emit (info NoConfiguredLabels) >>
  createCheckRun octokit headSha success NoLabelsTitle NoConfiguredLabels >>
  emit (setOutput "status" (u16 "success")) >>
  emit (setOutput "required_labels" []) >>
  emit (setOutput "missing_approvals" []).

(** The end of the run after the evaluations: the check run, the outputs
    and the final message. *)
Definition report (octokit : Octokit) (inputs : Inputs)
    (headSha : option jsstring) (evaluations : list EvaluatedDomain)
  : M unit :=
  let missing :=
    domainKey <$> filter (λ e, satisfied e = false) evaluations in
  let anyFailure := negb (bool_decide (missing = [])) in
  let summary := if anyFailure then MissingApprovals else AllSatisfied in
  let body := FormattedEvaluations evaluations (summaryMode inputs) in
  createCheckRun octokit headSha
                 (if anyFailure then failure else success)
                 (SummaryTitle summary) body >>
  emit (setOutput "status" (status_of anyFailure)) >>
  emit (setOutput "required_labels"
                  (join (u16 ",") (domainKey <$> evaluations))) >>
  emit (setOutput "missing_approvals" (join (u16 ",") missing)) >>
  if anyFailure then emit (setFailed summary) else emit (info summary).

(** The run from the extraction of the domain labels on. *)
Definition run_evaluation (octokit : Octokit) (inputs : Inputs)
    (config : LabelConfig) (pr : PullRequest) : M unit :=
  let headSha := head_sha pr in
  let extraction := extractDomainLabels config (default [] (pr_labels pr)) in
  let* requested_teams := refresh_requested_teams octokit pr in
  let existing := existingRequestedTeamSlugs requested_teams in
  try_catch
    (ensureTeamReviewRequests octokit config (domains extraction) existing
                              inputs)
    (λ err, emit (warning (FailedEnsuring err))) >>
  match domains extraction with
  | [] => report_no_labels octokit headSha
  | _ =>
      let* allReviews := await pulls_listReviews (on_listReviews octokit) in
      let approvedUsers := approvedUsers (allReviewStates allReviews) in
      let* evaluations :=
        evaluate octokit inputs config extraction approvedUsers in
      report octokit inputs headSha evaluations
  end.

(** The run once a configuration is there. *)
Definition run_with_config (octokit : Octokit) (inputs : Inputs)
    (context : Context) (config : LabelConfig) (pr : PullRequest) : M unit :=
  maybeRetractOnUnlabeled octokit config inputs context >>
  if default false (ignoreDraft config) && draft pr then
    emit (info DraftSkipped) >>
    createCheckRun octokit (head_sha pr) skipped DraftPRTitle DraftSkipped >>
    emit (setOutput "status" (u16 "skipped"))
  else run_evaluation octokit inputs config pr.

(** The body of [run]. *)
Definition run_body (octokit : Octokit) (inputs : Inputs) (context : Context)
  : M unit :=
  if negb (truthy_string (token inputs)) then emit (setFailed NoToken)
  else
    match pull_request context with
    | None =>
        emit (info NotAPullRequest) >>
        emit (setOutput "status" (u16 "skipped"))
    | Some pr =>
        match head_sha pr with
        | None | Some [] => emit (setFailed NoHeadSha)
        | Some _ =>
            let* loaded :=
              try_catch
                (let* config := loadConfig octokit inputs in
                 ret (Some config))
                (λ err,
                   emit (setFailed (FailedToLoadConfig err)) >> ret None) in
            match loaded with
            | None => ret tt
            | Some None =>
                emit (info NoConfiguration) >>
                emit (setOutput "status" (u16 "skipped")) >>
                createCheckRun octokit (head_sha pr) skipped NoConfigTitle
                               ConfigMissingText
            | Some (Some config) =>
                run_with_config octokit inputs context config pr
            end
        end
    end.

(** [run().catch(err => core.setFailed(...))] *)
Definition run (octokit : Octokit) (inputs : Inputs) (context : Context)
  : M unit :=
  try_catch (run_body octokit inputs context)
            (λ err, emit (setFailed (Unhandled err))).

(** The outputs a trace sets, in order. *)
Definition outputs (t : list effect) : list (string * jsstring) :=
  omap (λ e, match e with setOutput n v => Some (n, v) | _ => None end) t.

(* ===================================================================== *)
(** ** The inputs of the action *)
(* ===================================================================== *)

(** What the action reads of its process: [core.getInput(name)], a string for
    every name (empty when the input is not set), and
    [process.env.GITHUB_TOKEN]. *)
Record Env := {
  getInput : string → jsstring;
  GITHUB_TOKEN : option jsstring;
}.

(** The texts [getBooleanInput] takes for true. *)
Definition truthy_words : list jsstring :=
  u16 <$> ["1"; "true"; "yes"; "on"]%string.

Section inputs.
(** [String.prototype.toLowerCase], the lower case of a text by the Unicode
    tables of the engine. *)
Context (toLowerCase : jsstring → jsstring).

Definition getBooleanInput (env : Env) (name : string) (defaultValue : bool)
  : bool :=
  let raw := getInput env name in
  if negb (truthy_string raw) then defaultValue
  else bool_decide (toLowerCase (trim raw) ∈ truthy_words).

Definition getSummaryMode (env : Env) : SummaryMode :=
  let raw := toLowerCase (trim (getInput env "summary-mode")) in
  if decide (raw = u16 "minimal") then minimal
  else if decide (raw = u16 "verbose") then verbose
  else if decide (raw = u16 "standard") then standard
  else standard.

Definition readInputs (env : Env) : Inputs :=
  {| token :=
       if truthy_string (getInput env "token") then getInput env "token"
       else default [] (GITHUB_TOKEN env);
     configPath :=
       if truthy_string (getInput env "config-path")
       then getInput env "config-path"
       else u16 ".github/label-teams.yml";
     failOnMissingConfig := getBooleanInput env "fail-on-missing-config" true;
     dryRun := getBooleanInput env "dry-run" false;
     debug := getBooleanInput env "debug" false;
     summaryMode := getSummaryMode env |}.

(** The action from its start: the inputs are read, then the run goes on. *)
Definition main (env : Env) (octokit : Octokit) (context : Context) : M unit :=
  run octokit (readInputs env) context.

End inputs.

(** The lower case of a code unit of Basic Latin: A to Z become a to z. *)
Definition lower_unit (c : N) : N :=
  if (65 <=? c)%N && (c <=? 90)%N then (c + 32)%N else c.

(** Two facts of the Unicode tables.  On a text of Basic Latin the lower case
    is taken unit by unit. *)
Definition lowers_basic_latin (toLowerCase : jsstring → jsstring) : Prop :=
  ∀ s, Forall (λ c, (c < 128)%N) s → toLowerCase s = lower_unit <$> s.

(** One code unit outside Basic Latin has its lower case in it: the Kelvin
    sign, U+212A, which becomes k.  So a text whose lower case is Basic Latin
    without k is a text of Basic Latin. *)
Definition only_kelvin_enters (toLowerCase : jsstring → jsstring) : Prop :=
  ∀ s, Forall (λ c, (c < 128)%N ∧ c ≠ 107%N) (toLowerCase s) →
       Forall (λ c, (c < 128)%N) s.

(* ===================================================================== *)
(** ** The text of the check run *)
(* ===================================================================== *)

(** The status emoji of a line: U+2705 or U+274C. *)
Definition statusEmoji (satisfied : bool) : jsstring :=
  if satisfied then [9989%N] else [10060%N].

Definition newline : jsstring := [10%N].

Section formatEvaluations.
(** The text of a number in a template literal, [Number::toString]. *)
Context (Number_toString : jsnum → jsstring).

(** [`${d.approvals}/${d.required}`]; [approvals] is the length of an
    array. *)
Definition counts (d : EvaluatedDomain) : jsstring :=
  u16 (pretty (approvals d)) ++ u16 "/" ++ Number_toString (required d).

(** The line pushed for a domain. *)
Definition domain_line (summaryMode : SummaryMode) (d : EvaluatedDomain)
  : jsstring :=
  match summaryMode with
  | minimal =>
      u16 "- " ++ statusEmoji (satisfied d) ++ u16 " " ++ domainKey d
        ++ u16 " (" ++ counts d ++ u16 ")"
  | standard =>
      u16 "- " ++ statusEmoji (satisfied d) ++ u16 " " ++ domainKey d
        ++ u16 " -> team " ++ teamSlug d ++ u16 ": approvals " ++ counts d
        ++ match approvers d with
           | [] => []
           | _ => u16 " (by " ++ join (u16 ", ") (approvers d) ++ u16 ")"
           end
  | verbose =>
      u16 "- " ++ statusEmoji (satisfied d) ++ u16 " Label: " ++ domainKey d
        ++ newline ++ u16 "  Label: " ++ labelName d
        ++ newline ++ u16 "  Team: " ++ teamSlug d
        ++ newline ++ u16 "  Approvals: " ++ counts d
        ++ newline ++ u16 "  Approvers: "
        ++ match approvers d with
           | [] => u16 "(none)"
           | _ => join (u16 ", ") (approvers d)
           end
        ++ newline
  end.

(** [keys.length ? keys.join(", ") : "(none)"] *)
Definition listed (keys : list jsstring) : jsstring :=
  match keys with
  | [] => u16 "(none)"
  | _ => join (u16 ", ") keys
  end.

(** The array [lines] at the end of [formatEvaluations]. *)
Definition formatEvaluations_lines (domains : list EvaluatedDomain)
    (summaryMode : SummaryMode) : list jsstring :=
  let passing := filter (λ d, satisfied d = true) domains in
  let failing := filter (λ d, satisfied d = false) domains in
  match domains with
  | [] => [u16 "No configured labels present."]
  | _ => u16 "Label evaluation:" :: (domain_line summaryMode <$> domains)
  end
  ++ [ [];
       u16 "Passing labels: " ++ listed (domainKey <$> passing);
       u16 "Failing labels: " ++ listed (domainKey <$> failing) ].

Definition formatEvaluations (domains : list EvaluatedDomain)
    (summaryMode : SummaryMode) : jsstring :=
  join newline (formatEvaluations_lines domains summaryMode).
End formatEvaluations.

(* ===================================================================== *)
(** ** The specification's side *)
(* ===================================================================== *)

(** Following the specification (4.3): the reduction of the events of one
    user, in delivery order.  The first event is stored; a later one
    replaces what is stored when its timestamp is greater or equal. *)
Definition later_or_equal_wins (stored : option ReviewInfo) (r : Review)
  : option ReviewInfo :=
  match stored with
  | None => Some (info_of r)
  | Some current =>
      if js_ge (getTime (r_submitted_at r)) (getTime (submitted_at current))
      then Some (info_of r) else Some current
  end.

Definition latest (events : list Review) : option ReviewInfo :=
  foldl later_or_equal_wins None events.

(** The events of a user, in delivery order. *)
Definition events_of (user : jsstring) (allReviews : list Review)
  : list Review :=
  filter (λ r, r_login r = Some user) allReviews.

(** The member set a team resolves to: the logins listed, or nobody when the
    listing fails. *)
Definition resolved_members (octokit : Octokit) (teamSlug : jsstring)
  : gset jsstring :=
  match on_listMembersInOrg octokit teamSlug with
  | Resolved members => member_logins members
  | Rejected _ => ∅
  end.

(** Following the specification (4.5): the evaluation of one matched
    domain. *)
Definition evaluation_of (octokit : Octokit) (config : LabelConfig)
    (approved : list jsstring) (domainKey teamSlug : jsstring)
  : EvaluatedDomain :=
  let approvers :=
    filter (λ user, user ∈ resolved_members octokit teamSlug) approved in
  {| domainKey := domainKey;
     teamSlug := teamSlug;
     labelName := domainKey;
     approvals := length approvers;
     required := required_for config domainKey;
     satisfied := js_ge (num_of_nat (length approvers))
                        (required_for config domainKey);
     approvers := approvers |}.

(** The team a domain key is mapped to. *)
Definition slug_of (config : LabelConfig) (d : jsstring) : jsstring :=
  default [] (labels config !! d).

(** The run reaches the evaluation of [pr] under [config]: there is a token,
    a pull request with a head commit, the configuration loads, and the
    pull request is not skipped as a draft. *)
Definition reaches_evaluation (octokit : Octokit) (inputs : Inputs)
    (context : Context) (pr : PullRequest) (config : LabelConfig) : Prop :=
  truthy_string (token inputs) = true
  ∧ pull_request context = Some pr
  ∧ truthy_string (default [] (head_sha pr)) = true
  ∧ completion (loadConfig octokit inputs) = Normal (Some config)
  ∧ default false (ignoreDraft config) && draft pr = false.

(* ===================================================================== *)
(** ** Predicates on traces and loop states *)
(* ===================================================================== *)

(** Every effect of the trace satisfies [P]. *)
Definition traced {A : Type} (P : effect → Prop) (m : M A) : Prop :=
  Forall P (trace m).

Definition not_output (e : effect) : Prop :=
  match e with setOutput _ _ => False | _ => True end.

Definition silent {A : Type} (m : M A) : Prop := traced not_output m.

(** The attempts a trace makes to list the members of a team. *)
Definition is_attempt (teamSlug : jsstring) (e : effect) : bool :=
  match e with
  | teams_listMembersInOrg s => bool_decide (s = teamSlug)
  | _ => false
  end.

Definition attempts (teamSlug : jsstring) (t : list effect) : nat :=
  length (filter (λ e, is_attempt teamSlug e = true) t).

Definition no_attempt (slug : jsstring) (e : effect) : Prop :=
  is_attempt slug e = false.

(** The label is a name the matcher keeps. *)
Definition matched (config : LabelConfig) (name : jsstring) : Prop :=
  name ≠ [] ∧ is_Some (labels config !! name).

(** What the matcher has collected after a prefix of the labels. *)
Record matcher_inv (config : LabelConfig) (p : list (option jsstring))
    (d : list jsstring) : Prop := {
  inv_elem : ∀ k, k ∈ d ↔ matched config k ∧ Some k ∈ p;
  inv_NoDup : NoDup d;
  inv_order : ∀ i j a b,
      d !! i = Some a → d !! j = Some b → i < j →
      ∃ i', p !! i' = Some (Some a) ∧ ∀ j', p !! j' = Some (Some b) → i' < j';
}.

(** The raw key trims to [k']. *)
Definition trims_to (k' : jsstring) (e : jsstring * jsvalue) : Prop :=
  trim e.1 = k'.

#[local] Instance trims_to_dec (k' : jsstring) (e : jsstring * jsvalue) :
  Decision (trims_to k' e).
Proof. unfold trims_to. apply _. Defined.

(** A membership cache holds, for every slug it has, the set the slug
    resolves to. *)
Definition cache_ok (octokit : Octokit) (cache : TeamMembersCache) : Prop :=
  ∀ slug members,
    cache !! slug = Some members → members = resolved_members octokit slug.

(** A domain key as the matcher hands it to the evaluation of a validated
    configuration. *)
Definition domain_ok (config : LabelConfig)
    (extraction : DomainExtractionResult) (d : jsstring) : Prop :=
  ∃ slug, labels config !! d = Some slug ∧ slug ≠ []
          ∧ Map_get (domainLabelMap extraction) d = Some d ∧ d ≠ [].

(** The call lists the members of the team. *)
Definition fetches (cache : TeamMembersCache) (slug : jsstring) : bool :=
  bool_decide (cache !! slug = None ∧ slug ∉ Object_prototype_keys).

(** The call returns a member of [Object.prototype] and the loop over the
    approved users throws. *)
Definition breaks (approved : list jsstring) (cache : TeamMembersCache)
    (slug : jsstring) : bool :=
  bool_decide (cache !! slug = None ∧ slug ∈ Object_prototype_keys
               ∧ approved ≠ []).

(* ===================================================================== *)
(** ** Example worlds *)
(* ===================================================================== *)

Definition web_document : jsvalue :=
  JObject [(u16 "labels",
            JObject [(u16 "frontend", JString (u16 "web-platform"))])].

Definition web_config : LabelConfig :=
  {| labels := {[ u16 "frontend" := u16 "web-platform" ]};
     requiredApprovals := Some (num_of_Z 1);
     overrides := Some ∅;
     ignoreDraft := Some true;
     retractOnUnlabeled := Some true |}.

Definition plain_inputs : Inputs :=
  {| token := u16 "t"; configPath := u16 ".github/label-teams.yml";
     failOnMissingConfig := true; dryRun := false; debug := false;
     summaryMode := standard |}.

(** A remote side that answers every request. *)
Definition agreeable (document : jsvalue) (reviews : list Review)
    (members : jsstring → Response (list (option jsstring))) : Octokit :=
  {| on_getContent := Resolved (FileContent (Some document));
     on_pulls_get := Resolved (Some []);
     on_listReviews := Resolved reviews;
     on_listMembersInOrg := members;
     on_requestReviewers := λ _, Resolved tt;
     on_removeRequestedReviewers := λ _, Resolved tt;
     on_checks_create := Resolved tt |}.

Definition pull_request_of (draft : bool) (labels : list string)
  : PullRequest :=
  {| number := 7; head_sha := Some (u16 "c0ffee"); draft := draft;
     pr_labels := Some ((λ l, Some (u16 l)) <$> labels);
     requested_teams := Some [] |}.

Definition event (action : string) (name : string) (pr : PullRequest)
  : Context :=
  {| eventName := u16 "pull_request_target";
     action := Some (u16 action);
     label_name := Some (u16 name);
     pull_request := Some pr |}.

(** Scenario A of the specification. *)
Definition scenario_document : jsvalue :=
  JObject
    [(u16 "labels",
      JObject [(u16 "frontend", JString (u16 "web-platform"));
               (u16 "billing", JString (u16 "finance-eng"))]);
     (u16 "requiredApprovals", JNumber (num_of_Z 1));
     (u16 "overrides",
      JObject [(u16 "billing",
                JObject [(u16 "requiredApprovals", JNumber (num_of_Z 2))])])].

Definition scenario_config : LabelConfig :=
  {| labels := {[ u16 "frontend" := u16 "web-platform";
                  u16 "billing" := u16 "finance-eng" ]};
     requiredApprovals := Some (num_of_Z 1);
     overrides :=
       Some {[ u16 "billing" :=
                 {| ov_requiredApprovals := Some (num_of_Z 2) |} ]};
     ignoreDraft := Some true;
     retractOnUnlabeled := Some true |}.

Definition approval (login : string) (ms : Z) : Review :=
  {| r_login := Some (u16 login); r_state := Some APPROVED;
     r_submitted_at := Instant ms |}.

Definition scenario_reviews : list Review :=
  [approval "alice" 1000; approval "bob" 2000].

Definition scenario_members (slug : jsstring)
  : Response (list (option jsstring)) :=
  if decide (slug = u16 "web-platform") then Resolved [Some (u16 "alice")]
  else if decide (slug = u16 "finance-eng") then Resolved [Some (u16 "bob")]
  else Rejected (Some 404%Z).

Definition scenario_octokit : Octokit :=
  agreeable scenario_document scenario_reviews scenario_members.

Definition scenario_pr : PullRequest :=
  pull_request_of false ["frontend"; "billing"]%string.

Definition scenario_labels : list (option jsstring) :=
  [Some (u16 "frontend"); Some (u16 "billing")].

Definition scenario_evaluations : list EvaluatedDomain :=
  [{| domainKey := u16 "frontend"; teamSlug := u16 "web-platform";
      labelName := u16 "frontend"; approvals := 1; required := num_of_Z 1;
      satisfied := true; approvers := [u16 "alice"] |};
   {| domainKey := u16 "billing"; teamSlug := u16 "finance-eng";
      labelName := u16 "billing"; approvals := 1; required := num_of_Z 2;
      satisfied := false; approvers := [u16 "bob"] |}].

(** A review without a login. *)
Definition anonymous_reviews : list Review :=
  [{| r_login := Some []; r_state := Some APPROVED;
      r_submitted_at := Instant 1000 |}].

(** An approval, then a pending review of the same user, which has no
    [submitted_at]. *)
Definition approved_then_pending : list Review :=
  [approval "alice" 1000;
   {| r_login := Some (u16 "alice"); r_state := Some (u16 "PENDING");
      r_submitted_at := NoTimestamp |}].

(** Scenario E of the specification: the members of finance-eng cannot be
    listed. *)
Definition unlistable_members (slug : jsstring)
  : Response (list (option jsstring)) :=
  if decide (slug = u16 "web-platform") then Resolved [Some (u16 "alice")]
  else Rejected (Some 403%Z).

(** Two labels mapped to one team. *)
Definition shared_team_document : jsvalue :=
  JObject
    [(u16 "labels",
      JObject [(u16 "frontend", JString (u16 "web-platform"));
               (u16 "ui", JString (u16 "web-platform"))])].

(** A document whose only label key is the name of the prototype accessor,
    written with surrounding blanks. *)
Definition proto_document : jsvalue :=
  JObject [(u16 "labels",
            JObject [(u16 " __proto__ ", JString (u16 "core"))])].

(** A document whose only label key is blank. *)
Definition blank_document : jsvalue :=
  JObject [(u16 "labels", JObject [(u16 " ", JString (u16 "core"))])].

(** The labels of [web_document], and a top-level field beside them. *)
Definition labels_and (name : string) (v : jsvalue) : jsvalue :=
  JObject [(u16 "labels",
            JObject [(u16 "frontend", JString (u16 "web-platform"))]);
           (u16 name, v)].

(* ===================================================================== *)
(** ** What validation asks of a document *)
(* ===================================================================== *)

(** The value of a label is a string that is not blank. *)
Definition is_slug (v : jsvalue) : bool :=
  match v with
  | JString s => truthy_string (trim s)
  | _ => false
  end.

(** The value of an override passes: it is no object, or an object without
    [requiredApprovals], or one whose [requiredApprovals] is a number that is
    not below 1. *)
Definition override_ok (spec : jsvalue) : bool :=
  if is_object spec then
    match field "requiredApprovals" spec with
    | None => true
    | Some (JNumber n) => negb (js_lt n (num_of_Z 1))
    | Some _ => false
    end
  else true.

(** The documents validation accepts. *)
Definition acceptable (raw : jsvalue) : Prop :=
  is_object raw = true
  ∧ (∃ l, field "labels" raw = Some l ∧ is_object l = true
          ∧ Forall (λ e, is_slug e.2 = true) (Object_entries l))
  ∧ (∀ o, field "overrides" raw = Some o → is_object o = true →
          Forall (λ e, override_ok e.2 = true) (Object_entries o)).

(** A number of required approvals as validation leaves it: an integer of at
    least 1, or +Infinity, or NaN. *)
Definition requirement (n : jsnum) : Prop :=
  (∃ z, (1 ≤ z)%Z ∧ n = num_of_Z z) ∨ n = PosInf ∨ n = NaN.

(* ===================================================================== *)
(** ** Orders of delivery *)
(* ===================================================================== *)

(** The reviews that follow a review submitted at [t] come in the order of
    their timestamps, each with a valid one. *)
Fixpoint in_order (t : Z) (rs : list Review) : bool :=
  match rs with
  | [] => true
  | r :: rest =>
      match r_submitted_at r with
      | Instant ms => (t <=? ms)%Z && in_order ms rest
      | _ => false
      end
  end.

(** The reviews are delivered oldest first, as the listing of the reviews of
    a pull request gives them. *)
Definition chronological (rs : list Review) : bool :=
  match rs with
  | [] => true
  | r :: rest =>
      match r_submitted_at r with
      | Instant ms => in_order ms rest
      | _ => false
      end
  end.

(** Every review has a valid timestamp. *)
Definition timed (rs : list Review) : Prop :=
  Forall (λ r, ∃ ms, r_submitted_at r = Instant ms) rs.

(** No user has two different reviews with one timestamp. *)
Definition no_ties (rs : list Review) : Prop :=
  ∀ r r', r ∈ rs → r' ∈ rs →
          r_login r = r_login r' → r_submitted_at r = r_submitted_at r' →
          r = r'.

(* ===================================================================== *)
(** ** What a run is seen to do *)
(* ===================================================================== *)

(** The failures a trace reports through [core.setFailed], in order. *)
Definition failures (t : list effect) : list Message :=
  omap (λ e, match e with setFailed m => Some m | _ => None end) t.

(** The effect is neither an output nor a failure. *)
Definition mute (e : effect) : Prop :=
  match e with
  | setOutput _ _ | setFailed _ => False
  | _ => True
  end.

(** What is seen of a computation: the outputs it sets, the failures it
    reports and how it completes. *)
Definition observe {A : Type} (m : M A)
  : list (string * jsstring) * list Message * Completion A :=
  (outputs (trace m), failures (trace m), completion m).

(** The effect is a request to the remote side. *)
Definition is_request (e : effect) : bool :=
  match e with
  | repos_getContent | pulls_get | pulls_listReviews
  | teams_listMembersInOrg _ | pulls_requestReviewers _
  | pulls_removeRequestedReviewers _ | checks_create _ _ _ => true
  | _ => false
  end.

(** The requests of a trace, in order. *)
Definition requests (t : list effect) : list effect :=
  filter (λ e, is_request e = true) t.

(** The effect changes no requested reviewer. *)
Definition no_mutation (e : effect) : Prop :=
  match e with
  | pulls_requestReviewers _ | pulls_removeRequestedReviewers _ => False
  | _ => True
  end.

(** The run from the listing of the reviews on, or its end when no
    configured label is on the pull request. *)
Definition evaluation_tail (octokit : Octokit) (inputs : Inputs)
    (config : LabelConfig) (pr : PullRequest) : M unit :=
  let extraction := extractDomainLabels config (default [] (pr_labels pr)) in
  match domains extraction with
  | [] => report_no_labels octokit (head_sha pr)
  | _ =>
      let* allReviews := await pulls_listReviews (on_listReviews octokit) in
      let approvedUsers := approvedUsers (allReviewStates allReviews) in
      let* evaluations :=
        evaluate octokit inputs config extraction approvedUsers in
      report octokit inputs (head_sha pr) evaluations
  end.

(** The request for the missing teams as the run makes it: what it throws
    is logged. *)
Definition ensure_logged (octokit : Octokit) (inputs : Inputs)
    (config : LabelConfig) (pr : PullRequest)
    (requested_teams : option (list (option jsstring))) : M unit :=
  try_catch
    (ensureTeamReviewRequests octokit config
       (domains (extractDomainLabels config (default [] (pr_labels pr))))
       (existingRequestedTeamSlugs requested_teams) inputs)
    (λ err, emit (warning (FailedEnsuring err))).

(** The keys of the records that are not satisfied. *)
Definition missing_keys (evaluations : list EvaluatedDomain) : list jsstring :=
  domainKey <$> filter (λ e, satisfied e = false) evaluations.

(** What is seen of the report of the records: the three outputs, and the
    failure when a record is not satisfied. *)
Definition report_seen (evaluations : list EvaluatedDomain)
  : list (string * jsstring) * list Message :=
  let anyFailure := negb (bool_decide (missing_keys evaluations = [])) in
  ([("status", status_of anyFailure);
    ("required_labels", join (u16 ",") (domainKey <$> evaluations));
    ("missing_approvals", join (u16 ",") (missing_keys evaluations))],
   if anyFailure then [MissingApprovals] else []).

(** The end of a run, as its outputs and failures show it: it failed before
    any verdict; it was skipped; every requirement is met; or approvals are
    missing. *)
Definition verdict (outs : list (string * jsstring)) (fails : list Message)
  : Prop :=
  (outs = [] ∧ ∃ m, fails = [m] ∧ m ≠ MissingApprovals)
  ∨ (outs = [("status", u16 "skipped")] ∧ fails = [])
  ∨ (∃ keys, outs = [("status", u16 "success"); ("required_labels", keys);
                     ("missing_approvals", [])]
             ∧ fails = [])
  ∨ (∃ keys missing,
       outs = [("status", u16 "failure"); ("required_labels", keys);
               ("missing_approvals", missing)]
       ∧ fails = [MissingApprovals]).

(** The teams whose members a trace lists, in order. *)
Definition listed_teams (t : list effect) : list jsstring :=
  omap (λ e, match e with teams_listMembersInOrg s => Some s | _ => None end) t.

(** The order in which a run may make its requests. *)
Definition protocol (team : prop jsstring) (teams : list (prop jsstring))
    (slugs : list jsstring) (conclusion : Conclusion) (title : Title)
    (text : Message) : list effect :=
  [repos_getContent; pulls_removeRequestedReviewers [team]; pulls_get;
   pulls_requestReviewers teams; pulls_listReviews]
  ++ (teams_listMembersInOrg <$> slugs)
  ++ [checks_create conclusion title text].


(** The effect is no check run whose text is that of [formatEvaluations]. *)
Definition unformatted (e : effect) : Prop :=
  match e with
  | checks_create _ _ (FormattedEvaluations _ _) => False
  | _ => True
  end.

(** The requested teams of the pull request as the run knows them: read
    afresh, or those of the event when the read fails. *)
Definition refreshed_teams (octokit : Octokit) (pr : PullRequest)
  : option (list (option jsstring)) :=
  match on_pulls_get octokit with
  | Resolved teams => teams
  | Rejected _ => requested_teams pr
  end.

(** The remote side when it accepts every request for reviewers, and answers
    all else as before. *)
Definition accepting (octokit : Octokit) : Octokit :=
  {| on_getContent := on_getContent octokit;
     on_pulls_get := on_pulls_get octokit;
     on_listReviews := on_listReviews octokit;
     on_listMembersInOrg := on_listMembersInOrg octokit;
     on_requestReviewers := λ _, Resolved tt;
     on_removeRequestedReviewers := on_removeRequestedReviewers octokit;
     on_checks_create := on_checks_create octokit |}.

(** The line the run logs after a request for reviewers that is rejected. *)
Definition rejection_warning (status : option Z) : effect :=
  warning (if decide (status = Some 422%Z) then RequestsMayExist
           else FailedEnsuring (RequestError status)).

(** The effects of a run outside the retraction, the request for reviewers,
    the loop of the evaluation and the report of its records. *)
Definition bookkeeping (e : effect) : Prop :=
  match e with
  | setFailed NoToken | setFailed NoHeadSha
  | setFailed (FailedToLoadConfig _) | setFailed (Unhandled _)
  | info NotAPullRequest | info NoConfiguration | info DraftSkipped
  | info NoConfiguredLabels
  | warning ConfigNotAFile | warning ConfigNotFoundAt
  | warning UnableToCreateCheckRun | warning CouldNotRefreshPR
  | setOutput _ _
  | repos_getContent | pulls_get | pulls_listReviews
  | checks_create skipped NoConfigTitle ConfigMissingText
  | checks_create skipped DraftPRTitle DraftSkipped
  | checks_create success NoLabelsTitle NoConfiguredLabels => True
  | _ => False
  end.

(** The effect is a line of the debug log. *)
Definition is_debug (e : effect) : bool :=
  match e with
  | info (DebugFetched _ _) => true
  | _ => false
  end.

(** A trace without the lines of the debug log. *)
Definition without_debug (t : list effect) : list effect :=
  filter (λ e, is_debug e = false) t.

(** The inputs with the debug log switched on or off. *)
Definition set_debug (enabled : bool) (inputs : Inputs) : Inputs :=
  {| token := token inputs;
     configPath := configPath inputs;
     failOnMissingConfig := failOnMissingConfig inputs;
     dryRun := dryRun inputs;
     debug := enabled;
     summaryMode := summaryMode inputs |}.

(* ===================================================================== *)
(** ** More example worlds *)
(* ===================================================================== *)

(** The lower case of a text of Basic Latin and Kelvin signs. *)
Definition lower_latin (s : jsstring) : jsstring :=
  (λ c, if (c =? 8490)%N then 107%N else lower_unit c) <$> s.

(** A process whose [dry-run] says "Yes". *)
Definition yes_env : Env :=
  {| getInput := λ name, if decide (name = "dry-run") then u16 "Yes"
                         else [];
     GITHUB_TOKEN := Some (u16 "t") |}.

(** A process with no input set and no token in its environment. *)
Definition unset_env : Env :=
  {| getInput := λ _, []; GITHUB_TOKEN := None |}.

(** The inputs of a dry run that logs and writes the long summary. *)
Definition dry_inputs : Inputs :=
  {| token := u16 "t"; configPath := u16 ".github/label-teams.yml";
     failOnMissingConfig := true; dryRun := true; debug := true;
     summaryMode := verbose |}.

(** A remote side that has no configuration file. *)
Definition octokit_without_config : Octokit :=
  {| on_getContent := Rejected (Some 404%Z);
     on_pulls_get := Resolved (Some []);
     on_listReviews := Resolved [];
     on_listMembersInOrg := λ _, Resolved [];
     on_requestReviewers := λ _, Resolved tt;
     on_removeRequestedReviewers := λ _, Resolved tt;
     on_checks_create := Resolved tt |}.

(** A remote side like that of Scenario A which refuses to read the pull
    request again, to request or remove reviewers and to create check
    runs. *)
Definition grudging_octokit : Octokit :=
  {| on_getContent := Resolved (FileContent (Some scenario_document));
     on_pulls_get := Rejected (Some 500%Z);
     on_listReviews := Resolved scenario_reviews;
     on_listMembersInOrg := scenario_members;
     on_requestReviewers := λ _, Rejected (Some 403%Z);
     on_removeRequestedReviewers := λ _, Rejected (Some 403%Z);
     on_checks_create := Rejected (Some 403%Z) |}.

(** A remote side like that of Scenario A which refuses to read the pull
    request again. *)
Definition forgetful_octokit : Octokit :=
  {| on_getContent := Resolved (FileContent (Some scenario_document));
     on_pulls_get := Rejected (Some 500%Z);
     on_listReviews := Resolved scenario_reviews;
     on_listMembersInOrg := scenario_members;
     on_requestReviewers := λ _, Resolved tt;
     on_removeRequestedReviewers := λ _, Resolved tt;
     on_checks_create := Resolved tt |}.

(** The pull request of Scenario A when the event says that web-platform is
    requested already. *)
Definition half_requested_pr : PullRequest :=
  {| number := 7; head_sha := Some (u16 "c0ffee"); draft := false;
     pr_labels := Some scenario_labels;
     requested_teams := Some [Some (u16 "web-platform")] |}.

(** A document with a blank team slug. *)
Definition blank_slug_document : jsvalue :=
  JObject [(u16 "labels", JObject [(u16 "frontend", JString (u16 " "))])].

(** The override of a label whose number is NaN. *)
Definition nan_override : jsvalue :=
  JObject [(u16 "requiredApprovals", JNumber NaN)].

Definition nan_document : jsvalue :=
  labels_and "overrides" (JObject [(u16 "frontend", nan_override)]).

(** An approval of alice, and the changes she requests later. *)
Definition second_thoughts : list Review :=
  [approval "alice" 1000;
   {| r_login := Some (u16 "alice");
      r_state := Some (u16 "CHANGES_REQUESTED");
      r_submitted_at := Instant 2000 |}].

(** The records a loop returns; none when it throws. *)
Definition records (loop : M (list EvaluatedDomain)) : list EvaluatedDomain :=
  match completion loop with
  | Normal evaluations => evaluations
  | Throw _ => []
  end.

(** The text of the numbers of the examples, which are small naturals. *)
Definition small_number_text (n : jsnum) : jsstring :=
  match n with
  | Num q => u16 (pretty (Z.to_nat (Qfloor q)))
  | PosInf => u16 "Infinity"
  | NegInf => u16 "-Infinity"
  | NaN => u16 "NaN"
  end.

(* ===================================================================== *)
(** ** Accepted documents *)
(* ===================================================================== *)

(** What an accepted document gives each field of the configuration. *)
Lemma validateConfig_inr (raw : jsvalue) (config : LabelConfig) :
  validateConfig raw = inr config →
  requiredApprovals config = Some (default_requiredApprovals raw)
  ∧ ignoreDraft config = Some (flag_or_true (field "ignoreDraft" raw))
  ∧ retractOnUnlabeled config = Some (flag_or_true (field "retractOnUnlabeled" raw))
  ∧ ∃ l, field "labels" raw = Some l ∧ is_object l = true
         ∧ validate_labels (Object_entries l) ∅ = inr (labels config)
  ∧ ∃ o, overrides config = Some o ∧
      match field "overrides" raw with
      | Some ov =>
          if is_object ov
          then validate_overrides (Object_entries ov) ∅ = inr o
          else o = ∅
      | None => o = ∅
      end.
Proof.
  unfold validateConfig. intros H.
  destruct (is_object raw); simpl in H; [|done].
  destruct (field "labels" raw) as [l|]; [|done].
  destruct (is_object l) eqn:Hl; simpl in H; [|done].
  destruct (validate_labels (Object_entries l) ∅) as [e|lb] eqn:Hv; [done|].
  destruct (field "overrides" raw) as [ov|].
  - destruct (is_object ov).
    + destruct (validate_overrides (Object_entries ov) ∅) as [e|o] eqn:Ho; [done|].
      injection H as <-. simpl. repeat split; eauto 10.
    + injection H as <-. simpl. repeat split; eauto 10.
  - injection H as <-. simpl. repeat split; eauto 10.
Qed.

(* ===================================================================== *)
(** ** Trimming and the keys of a validated policy *)
(* ===================================================================== *)

Lemma trimStart_length s : length (trimStart s) ≤ length s.
Proof. induction s as [|c r IH]; simpl; [lia|]. destruct (isWhiteSpace c); simpl; lia. Qed.

Lemma trimStart_fixed s :
  trimStart s = s ↔ match s with [] => True | c :: _ => isWhiteSpace c = false end.
Proof.
  destruct s as [|c r]; simpl; [done|].
  destruct (isWhiteSpace c) eqn:Hc; [|done].
  split; [|done]. intros H. pose proof (trimStart_length r) as Hl.
  rewrite H in Hl. simpl in Hl. lia.
Qed.

Lemma trimStart_idemp s : trimStart (trimStart s) = trimStart s.
Proof.
  induction s as [|c r IH]; simpl; [done|].
  destruct (isWhiteSpace c) eqn:Hc; [done|]. simpl. by rewrite Hc.
Qed.

Lemma trimStart_suffix s : ∃ w, s = w ++ trimStart s.
Proof.
  induction s as [|c r [w IH]]; simpl; [by exists []|].
  destruct (isWhiteSpace c); [|by exists []].
  exists (c :: w). simpl. by rewrite <- IH.
Qed.

Lemma trimEnd_prefix s : ∃ w, s = trimEnd s ++ w.
Proof.
  unfold trimEnd. destruct (trimStart_suffix (rev s)) as [w Hw].
  exists (rev w). rewrite <- rev_app_distr, <- Hw. by rewrite rev_involutive.
Qed.

Lemma trimEnd_keeps_start s : trimStart s = s → trimStart (trimEnd s) = trimEnd s.
Proof.
  intros H. destruct (trimEnd_prefix s) as [w Hw].
  apply trimStart_fixed. apply trimStart_fixed in H.
  destruct (trimEnd s) as [|c p]; [done|]. rewrite Hw in H. exact H.
Qed.

Lemma trim_trimStart s : trimStart (trim s) = trim s.
Proof. apply trimEnd_keeps_start, trimStart_idemp. Qed.

Lemma trim_trimEnd s : trimEnd (trim s) = trim s.
Proof.
  unfold trim, trimEnd. rewrite rev_involutive. by rewrite trimStart_idemp.
Qed.

Lemma trim_idemp s : trim (trim s) = trim s.
Proof. unfold trim at 1. rewrite trim_trimStart. apply trim_trimEnd. Qed.

Lemma validate_labels_lookup es m m' :
  validate_labels es m = inr m' →
  ∀ k', m' !! k' =
        if decide (k' = proto_key) then m !! k'
        else match last (filter (trims_to k') es) with
             | Some (_, JString s) => Some (trim s)
             | Some _ => None
             | None => m !! k'
             end.
Proof.
  revert m. induction es as [|[k v] es IH]; intros m H k'; simpl in H.
  - injection H as <-. simpl. by destruct (decide _).
  - destruct v as [| | |s| |]; try done.
    destruct (truthy_string (trim s)) eqn:Hs; [|done].
    rewrite (IH _ H k'). destruct (decide (k' = proto_key)) as [->|Hk'].
    + unfold assign. destruct (decide (trim k = proto_key)); [done|].
      by rewrite lookup_insert_ne.
    + rewrite filter_cons. unfold trims_to at 2. simpl.
      destruct (decide (trim k = k')) as [<-|Hne].
      * unfold assign. destruct (decide (trim k = proto_key)); [done|].
        rewrite lookup_insert_eq, last_cons.
        destruct (last (filter (trims_to (trim k)) es)) as [[k0 v0]|]; [|done].
        by destruct v0.
      * unfold assign. destruct (decide (trim k = proto_key)); [done|].
        by rewrite lookup_insert_ne.
Qed.

Lemma validate_labels_slugs es m m' :
  validate_labels es m = inr m' →
  map_Forall (λ _ slug, truthy_string slug = true ∧ trim slug = slug) m →
  map_Forall (λ _ slug, truthy_string slug = true ∧ trim slug = slug) m'.
Proof.
  revert m. induction es as [|[k v] es IH]; intros m H Hm; simpl in H.
  - by injection H as <-.
  - destruct v as [| | |s| |]; try done.
    destruct (truthy_string (trim s)) eqn:Hs; [|done].
    apply (IH _ H). unfold assign. destruct (decide _); [done|].
    apply map_Forall_insert_2; [|done]. split; [done|apply trim_idemp].
Qed.

Lemma validate_labels_keys es m m' :
  validate_labels es m = inr m' →
  (∀ k, is_Some (m !! k) → trim k = k ∧ k ≠ proto_key) →
  ∀ k, is_Some (m' !! k) → trim k = k ∧ k ≠ proto_key.
Proof.
  revert m. induction es as [|[k v] es IH]; intros m H Hm; simpl in H.
  - by injection H as <-.
  - destruct v as [| | |s| |]; try done.
    destruct (truthy_string (trim s)) eqn:Hs; [|done].
    apply (IH _ H). intros k1. unfold assign. destruct (decide _); [apply Hm|].
    destruct (decide (trim k = k1)) as [<-|Hne].
    + intros _. split; [apply trim_idemp|done].
    + rewrite lookup_insert_ne by done. apply Hm.
Qed.

(** A label that differs from its trimmed text is no key of a validated
    policy; neither is [__proto__]. *)
Lemma validated_keys_trimmed (raw : jsvalue) (config : LabelConfig)
    (name : jsstring) :
  validateConfig raw = inr config →
  is_Some (labels config !! name) → trim name = name ∧ name ≠ proto_key.
Proof.
  intros H. apply validateConfig_inr in H as (_ & _ & _ & l & _ & _ & Hv & _).
  eapply validate_labels_keys; [exact Hv|].
  intros k [? Hk]. by rewrite lookup_empty in Hk.
Qed.

(** C9: the code at the failing input.  The raw key [" __proto__ "] trims to
    [__proto__]; the assignment reaches the accessor of [Object.prototype]
    and stores nothing, so the accepted policy has no domain key at all. *)
Theorem proto_key_is_dropped :
  ∃ config,
    validateConfig proto_document = inr config
    ∧ labels config = ∅
    ∧ trim (u16 " __proto__ ") = proto_key.
Proof. eexists. repeat split; vm_compute; reflexivity. Qed.

(* ===================================================================== *)
(** ** The top-level number of approvals *)
(* ===================================================================== *)

(** C3, as stated, fails: a top-level [requiredApprovals] of 0, and one that
    is the string "two", are both accepted, and the default 1 stands in. *)
Lemma requiredApprovals_invalid_is_defaulted :
  (∃ config,
      validateConfig (labels_and "requiredApprovals" (JNumber (num_of_Z 0)))
      = inr config
      ∧ requiredApprovals config = Some (num_of_Z 1))
  ∧ (∃ config,
      validateConfig (labels_and "requiredApprovals" (JString (u16 "two")))
      = inr config
      ∧ requiredApprovals config = Some (num_of_Z 1)).
Proof. split; eexists; split; vm_compute; reflexivity. Qed.

(** C3 (amended): the top-level [requiredApprovals] never makes validation
    fail.  Two documents that agree on [labels] and [overrides] fail with the
    same error; and when validation succeeds, an absent field gives 1, a
    number [q >= 1] gives the integer [z] with [z <= q < z + 1] (so an
    integer gives itself), +Infinity stays, and every other value (not a
    number, NaN, a number below 1) gives 1. *)
Theorem requiredApprovals_validation (raw : jsvalue) :
  (∀ raw' e,
      is_object raw' = is_object raw →
      field "labels" raw' = field "labels" raw →
      field "overrides" raw' = field "overrides" raw →
      validateConfig raw = inl e → validateConfig raw' = inl e)
  ∧ (∀ config,
      validateConfig raw = inr config →
      ∃ n, requiredApprovals config = Some n ∧
        match field "requiredApprovals" raw with
        | None => n = num_of_Z 1
        | Some (JNumber (Num q)) =>
            if Qle_bool 1 q
            then ∃ z, n = num_of_Z z ∧ (1 ≤ z)%Z
                      ∧ (inject_Z z <= q)%Q ∧ (q < inject_Z (z + 1))%Q
            else n = num_of_Z 1
        | Some (JNumber PosInf) => n = PosInf
        | Some _ => n = num_of_Z 1
        end).
Proof.
  split.
  - intros raw' e Hobj Hl Ho. unfold validateConfig.
    rewrite Hobj, Hl, Ho.
    destruct (is_object raw); simpl; [|done].
    destruct (field "labels" raw) as [l|]; [|done].
    destruct (negb (is_object l)); [done|].
    destruct (validate_labels _ _); [done|].
    destruct (field "overrides" raw) as [o|]; [|done].
    destruct (is_object o); [|done].
    destruct (validate_overrides _ _); done.
  - intros config H. apply validateConfig_inr in H as (Hr & _).
    eexists; split; [exact Hr|].
    unfold default_requiredApprovals.
    destruct (field "requiredApprovals" raw) as [[| |[q| | |]| | |]|]; simpl; try done.
    change (Qle_bool (inject_Z 1) q) with (Qle_bool 1 q).
    destruct (Qle_bool 1 q) eqn:Hq; [|done].
    exists (Qfloor q). split; [done|]. apply Qle_bool_iff in Hq.
    split; [|split].
    + rewrite <- (Qfloor_Z 1). by apply Qfloor_resp_le.
    + apply Qfloor_le.
    + apply Qlt_floor.
Qed.

(* ===================================================================== *)
(** ** Maps in insertion order and the label matcher *)
(* ===================================================================== *)

Section Map_facts.
Context {V : Type}.
Implicit Types (m : list (jsstring * V)) (k : jsstring) (v : V).

Lemma Map_get_None m k : Map_get m k = None ↔ k ∉ m.*1.
Proof.
  induction m as [|[k' v'] m IH]; simpl.
  - split; [intros _; apply not_elem_of_nil|done].
  - destruct (decide (k = k')) as [->|Hne].
    + split; [done|]. intros H. exfalso. apply H. left.
    + rewrite IH. rewrite not_elem_of_cons. naive_solver.
Qed.

Lemma Map_get_Some_elem m k v : Map_get m k = Some v → (k, v) ∈ m.
Proof.
  induction m as [|[k' v'] m IH]; simpl; [done|].
  destruct (decide (k = k')) as [->|Hne].
  - intros [= ->]. left.
  - intros H. right. auto.
Qed.

Lemma Map_get_set m k v k' :
  Map_get (Map_set m k v) k' = if decide (k' = k) then Some v else Map_get m k'.
Proof.
  induction m as [|[k0 v0] m IH]; simpl.
  - by destruct (decide (k' = k)).
  - destruct (decide (k = k0)) as [->|Hne]; simpl.
    + by destruct (decide (k' = k0)).
    + destruct (decide (k' = k0)) as [->|Hne'].
      * destruct (decide (k0 = k)); [congruence|done].
      * apply IH.
Qed.

Lemma Map_set_keys m k v :
  (Map_set m k v).*1 = if bool_decide (k ∈ m.*1) then m.*1 else m.*1 ++ [k].
Proof.
  induction m as [|[k0 v0] m IH]; [done|]. cbn [Map_set].
  destruct (decide (k = k0)) as [->|Hne]; rewrite !fmap_cons; cbn [fst].
  - rewrite bool_decide_eq_true_2; [done|left].
  - rewrite IH. destruct (bool_decide (k ∈ m.*1)) eqn:Hk.
    + rewrite bool_decide_eq_true_2; [done|]. right. by apply bool_decide_eq_true in Hk.
    + rewrite bool_decide_eq_false_2; [done|]. apply bool_decide_eq_false in Hk.
      rewrite not_elem_of_cons. done.
Qed.

Lemma Map_set_NoDup m k v : NoDup m.*1 → NoDup (Map_set m k v).*1.
Proof.
  intros H. rewrite Map_set_keys. case_bool_decide; [done|].
  apply NoDup_app. split; [done|]. split; [|apply NoDup_singleton].
  intros x Hx ->%list_elem_of_singleton. done.
Qed.
End Map_facts.

Lemma match_label_keys config m l :
  (match_label config m l).*1 =
  match l with
  | Some name =>
      if decide (matched config name ∧ name ∉ m.*1) then m.*1 ++ [name] else m.*1
  | None => m.*1
  end.
Proof.
  unfold match_label, matched, hasOwnProperty. destruct l as [[|c name]|].
  - rewrite decide_False; [done|]. naive_solver.
  - case_bool_decide as Hown.
    + rewrite Map_set_keys. case_bool_decide; case_decide; naive_solver.
    + rewrite decide_False; [done|]. naive_solver.
  - done.
Qed.

Lemma match_label_get config m l :
  (∀ k v, Map_get m k = Some v → v = k) →
  ∀ k v, Map_get (match_label config m l) k = Some v → v = k.
Proof.
  intros Hm k v. unfold match_label. destruct l as [[|c name]|]; [apply Hm| |apply Hm].
  destruct (hasOwnProperty _ _); [|apply Hm].
  rewrite Map_get_set. case_decide; [congruence|apply Hm].
Qed.

Lemma matcher_inv_holds config p :
  matcher_inv config p (foldl (match_label config) [] p).*1.
Proof.
  induction p as [|l p IH] using rev_ind.
  - simpl. split.
    + intros k. rewrite elem_of_nil. split; [done|]. intros [_ H]. by apply elem_of_nil in H.
    + constructor.
    + intros i j a b H. done.
  - rewrite foldl_snoc, match_label_keys.
    set (d := (foldl (match_label config) [] p).*1) in *.
    destruct IH as [He Hn Ho].
    destruct l as [name|]; [destruct (decide _) as [[Hm Hnew]|Hno]|].
    + split.
      * intros k. rewrite elem_of_app, He, list_elem_of_singleton, elem_of_app, list_elem_of_singleton.
        split; [intros [[? ?]| ->]; auto|].
        intros [Hk [?|[= ->]]]; auto.
      * apply NoDup_app. split; [done|]. split; [|apply NoDup_singleton].
        intros x Hx ->%list_elem_of_singleton. done.
      * intros i j a b Ha Hb Hij.
        assert (Hia : d !! i = Some a).
        { apply lookup_app_Some in Ha as [Ha|[Hge Ha]]; [done|].
          apply lookup_lt_Some in Hb. rewrite length_app in Hb. simpl in Hb.
          apply list_lookup_singleton_Some in Ha as [? _]. lia. }
        apply lookup_app_Some in Hb as [Hb|[Hge Hb]].
        -- destruct (Ho i j a b Hia Hb Hij) as (i' & Hi' & Hlt).
           exists i'. split; [by apply lookup_app_l_Some|].
           intros j' Hj'. apply lookup_app_Some in Hj' as [Hj'|[Hge Hj']]; [auto|].
           apply list_lookup_singleton_Some in Hj' as [_ [= <-]].
           exfalso. apply Hnew. by apply list_elem_of_lookup_2 in Hb.
        -- apply list_lookup_singleton_Some in Hb as [_ <-].
           assert (a ∈ d) as [_ Hap]%He by (by eapply list_elem_of_lookup_2).
           apply list_elem_of_lookup in Hap as [i' Hi'].
           exists i'. split; [by apply lookup_app_l_Some|].
           intros j' Hj'. apply lookup_app_Some in Hj' as [Hj'|[Hge' Hj']].
           ++ exfalso. apply Hnew, He. split; [done|]. by eapply list_elem_of_lookup_2.
           ++ apply lookup_lt_Some in Hi'. lia.
    + split.
      * intros k. rewrite He, elem_of_app, list_elem_of_singleton.
        split; [naive_solver|]. intros [Hk [?|[= ->]]]; [done|].
        destruct (decide (name ∈ d)) as [Hin|Hnin]; [by apply He in Hin|].
        exfalso. apply Hno. done.
      * done.
      * intros i j a b Ha Hb Hij. destruct (Ho i j a b Ha Hb Hij) as (i' & Hi' & Hlt).
        exists i'. split; [by apply lookup_app_l_Some|].
        intros j' Hj'. apply lookup_app_Some in Hj' as [Hj'|[Hge Hj']]; [auto|].
        apply lookup_lt_Some in Hi'. lia.
    + split.
      * intros k. rewrite He, elem_of_app, list_elem_of_singleton. naive_solver.
      * done.
      * intros i j a b Ha Hb Hij. destruct (Ho i j a b Ha Hb Hij) as (i' & Hi' & Hlt).
        exists i'. split; [by apply lookup_app_l_Some|].
        intros j' Hj'. apply lookup_app_Some in Hj' as [Hj'|[Hge Hj']]; [auto|].
        apply lookup_lt_Some in Hi'. lia.
Qed.

Lemma extractDomainLabels_get config prLabels k :
  k ∈ domains (extractDomainLabels config prLabels) →
  Map_get (domainLabelMap (extractDomainLabels config prLabels)) k = Some k.
Proof.
  unfold extractDomainLabels. cbn [domains domainLabelMap]. intros Hk.
  destruct (Map_get (foldl (match_label config) [] prLabels) k) as [v|] eqn:Hg.
  - f_equal. clear Hk. revert k v Hg. induction prLabels as [|l p IH] using rev_ind; [done|].
    rewrite foldl_snoc. by apply match_label_get.
  - by apply Map_get_None in Hg.
Qed.

(** C5, as stated, fails: the empty string is a domain key of an accepted
    policy and the name of a label of the pull request, and it is not
    returned. *)
Lemma empty_name_is_skipped :
  ∃ config,
    validateConfig blank_document = inr config
    ∧ is_Some (labels config !! [])
    ∧ Some [] ∈ [Some ([] : jsstring)]
    ∧ domains (extractDomainLabels config [Some []]) = [].
Proof.
  eexists. split; [vm_compute; reflexivity|]. split; [|split].
  - eexists. vm_compute. reflexivity.
  - left.
  - reflexivity.
Qed.

(** C5 (amended): the matcher returns exactly the non-empty domain keys that
    equal, code unit for code unit, the name of a label of the pull request;
    each once, ordered by first occurrence among the labels; each mapped to
    itself; and the result is empty exactly when no label is a non-empty
    domain key.  The function is total: there is no error. *)
Theorem extractDomainLabels_exact (config : LabelConfig)
    (prLabels : list (option jsstring)) :
  let r := extractDomainLabels config prLabels in
  (∀ k, k ∈ domains r ↔
        k ≠ [] ∧ is_Some (labels config !! k) ∧ Some k ∈ prLabels)
  ∧ NoDup (domains r)
  ∧ (∀ i j a b,
        domains r !! i = Some a → domains r !! j = Some b → i < j →
        ∃ i', prLabels !! i' = Some (Some a)
              ∧ ∀ j', prLabels !! j' = Some (Some b) → i' < j')
  ∧ (∀ k, k ∈ domains r → Map_get (domainLabelMap r) k = Some k)
  ∧ (domains r = [] ↔
       ∀ k, Some k ∈ prLabels → k = [] ∨ labels config !! k = None).
Proof.
  intros r. destruct (matcher_inv_holds config prLabels) as [He Hn Ho].
  split; [|split; [|split; [|split]]].
  - intros k. unfold r, extractDomainLabels. cbn [domains]. rewrite He.
    unfold matched. naive_solver.
  - exact Hn.
  - exact Ho.
  - intros k. apply extractDomainLabels_get.
  - unfold r, extractDomainLabels. cbn [domains]. split.
    + intros Hnil k Hk. destruct k as [|c k]; [by left|right].
      destruct (labels config !! (c :: k)) eqn:Hl; [|done].
      exfalso. assert (Hin : (c :: k) ∈ (foldl (match_label config) [] prLabels).*1).
      { apply He. split; [|done]. split; [done|]. by rewrite Hl. }
      rewrite Hnil in Hin. by apply elem_of_nil in Hin.
    + intros H. destruct ((foldl (match_label config) [] prLabels).*1) as [|k d]; [done|].
      assert (Hin : k ∈ k :: d) by left.
      apply He in Hin as [[Hne [v Hv]] Hin]. destruct (H k Hin); [done|congruence].
Qed.

(* ===================================================================== *)
(** ** The reduction of reviews *)
(* ===================================================================== *)

Lemma allReviewStates_snoc rs r :
  allReviewStates (rs ++ [r]) = record_review (allReviewStates rs) r.
Proof. unfold allReviewStates. apply foldl_snoc. Qed.

Lemma latest_snoc es r : latest (es ++ [r]) = later_or_equal_wins (latest es) r.
Proof. unfold latest. apply foldl_snoc. Qed.

Lemma events_of_snoc user rs r :
  events_of user (rs ++ [r]) =
  events_of user rs ++ (if decide (r_login r = Some user) then [r] else []).
Proof.
  unfold events_of. by rewrite filter_app, filter_cons, filter_nil.
Qed.

Lemma record_review_NoDup byUser r :
  NoDup byUser.*1 → NoDup (record_review byUser r).*1.
Proof.
  intros H. unfold record_review.
  destruct (r_login r) as [[|c login]|]; [done| |done].
  destruct (Map_get byUser (c :: login)); [|by apply Map_set_NoDup].
  destruct (js_ge _ _); [by apply Map_set_NoDup|done].
Qed.

Lemma allReviewStates_NoDup rs : NoDup (allReviewStates rs).*1.
Proof.
  induction rs as [|r rs IH] using rev_ind; [constructor|].
  rewrite allReviewStates_snoc. by apply record_review_NoDup.
Qed.

Lemma allReviewStates_latest rs user :
  user ≠ [] → Map_get (allReviewStates rs) user = latest (events_of user rs).
Proof.
  intros Hu. induction rs as [|r rs IH] using rev_ind; [done|].
  rewrite allReviewStates_snoc, events_of_snoc. unfold record_review.
  destruct (r_login r) as [[|c login]|] eqn:Hl.
  - rewrite decide_False by congruence. by rewrite app_nil_r.
  - destruct (decide (Some (c :: login) = Some user)) as [[= <-]|Hne].
    + rewrite latest_snoc, <- IH.
      destruct (Map_get (allReviewStates rs) (c :: login)) as [cur|] eqn:Hg; simpl.
      * destruct (js_ge _ _); [|done]. rewrite Map_get_set. by rewrite decide_True.
      * rewrite Map_get_set. by rewrite decide_True.
    + rewrite app_nil_r, <- IH.
      assert (user ≠ c :: login) by congruence.
      destruct (Map_get (allReviewStates rs) (c :: login)) as [cur|].
      * destruct (js_ge _ _); [|done]. rewrite Map_get_set. by rewrite decide_False.
      * rewrite Map_get_set. by rewrite decide_False.
  - rewrite decide_False by congruence. by rewrite app_nil_r.
Qed.

Lemma allReviewStates_no_empty_login rs : Map_get (allReviewStates rs) [] = None.
Proof.
  induction rs as [|r rs IH] using rev_ind; [done|].
  rewrite allReviewStates_snoc. unfold record_review.
  destruct (r_login r) as [[|c login]|]; [done| |done].
  destruct (Map_get (allReviewStates rs) (c :: login)).
  - destruct (js_ge _ _); [|done]. rewrite Map_get_set. by rewrite decide_False.
  - rewrite Map_get_set. by rewrite decide_False.
Qed.

Lemma Set_add_elem s x y : y ∈ Set_add s x ↔ y ∈ s ∨ y = x.
Proof.
  unfold Set_add. case_bool_decide.
  - split; [auto|]. intros [?| ->]; done.
  - rewrite elem_of_app, list_elem_of_singleton. done.
Qed.

Lemma Set_add_NoDup s x : NoDup s → NoDup (Set_add s x).
Proof.
  intros H. unfold Set_add. case_bool_decide; [done|].
  apply NoDup_app. split; [done|]. split; [|apply NoDup_singleton].
  intros y Hy ->%list_elem_of_singleton. done.
Qed.

Lemma approvedUsers_snoc m user info :
  approvedUsers (m ++ [(user, info)]) =
  if decide (state info = APPROVED) then Set_add (approvedUsers m) user
  else approvedUsers m.
Proof. unfold approvedUsers. by rewrite foldl_snoc. Qed.

Lemma approvedUsers_elem m user :
  user ∈ approvedUsers m ↔ ∃ info, (user, info) ∈ m ∧ state info = APPROVED.
Proof.
  induction m as [|[u i] m IH] using rev_ind.
  - split; [by intros ?%elem_of_nil|]. by intros (? & ?%elem_of_nil & _).
  - rewrite approvedUsers_snoc. setoid_rewrite elem_of_app.
    setoid_rewrite list_elem_of_singleton. case_decide as Hs.
    + rewrite Set_add_elem, IH. split.
      * intros [(info & ? & ?)| ->]; eauto.
      * intros (info & [?|[= -> ->]] & ?); eauto.
    + rewrite IH. split.
      * intros (info & ? & ?); eauto.
      * intros (info & [?|[= -> ->]] & ?); [eauto|done].
Qed.

Lemma approvedUsers_NoDup m : NoDup (approvedUsers m).
Proof.
  induction m as [|[u i] m IH] using rev_ind; [constructor|].
  rewrite approvedUsers_snoc. case_decide; [by apply Set_add_NoDup|done].
Qed.

Lemma Map_get_elem {V} (m : list (jsstring * V)) k v :
  NoDup m.*1 → (k, v) ∈ m ↔ Map_get m k = Some v.
Proof.
  intros Hn. split; [|apply Map_get_Some_elem].
  induction m as [|[k' v'] m IH]; [by intros ?%elem_of_nil|].
  rewrite fmap_cons in Hn. apply NoDup_cons in Hn as [Hk' Hn]. cbn [Map_get fst] in *.
  intros [[= -> ->]|Hin]%elem_of_cons.
  - by rewrite decide_True.
  - rewrite decide_False; [auto|]. intros ->. apply Hk'.
    apply list_elem_of_fmap. by exists (k', v).
Qed.

(** C4, as stated, fails twice.  A review whose login is empty is no
    user's stored event.  And a review without a timestamp, delivered after
    an approval that has one, does not replace it: the event delivered
    earlier stays, and the user stays approved. *)
Lemma reduction_skips_and_keeps :
  (Map_get (allReviewStates anonymous_reviews) [] = None
   ∧ latest (events_of [] anonymous_reviews)
     = Some {| state := APPROVED; submitted_at := Instant 1000 |})
  ∧ (Map_get (allReviewStates approved_then_pending) (u16 "alice")
     = Some {| state := APPROVED; submitted_at := Instant 1000 |}
     ∧ approvedUsers (allReviewStates approved_then_pending) = [u16 "alice"]).
Proof. repeat split; vm_compute; reflexivity. Qed.

(** C4 (amended): for every sequence of reviews, a review without a login
    (none, or the empty one) is skipped, and the state kept for every other
    user is the left fold of that user's events in delivery order: the first
    event is stored, and a later one replaces the stored one iff its
    timestamp is greater or equal, an absent timestamp counting as 0.  So
    equal timestamps, two absent ones, and a timestamp at or after the epoch
    following an absent one resolve to the event delivered later, while an
    absent timestamp following a positive one leaves the earlier event.  The
    approved users are exactly the users whose kept state is APPROVED, each
    once. *)
Theorem getApprovalsByUser_reduction (allReviews : list Review) :
  let byUser := allReviewStates allReviews in
  Map_get byUser [] = None
  ∧ (∀ user, user ≠ [] →
       Map_get byUser user = latest (events_of user allReviews))
  ∧ (∀ r, latest [r] = Some (info_of r))
  ∧ (∀ events r current,
       latest events = Some current →
       latest (events ++ [r]) =
       Some (if js_ge (getTime (r_submitted_at r))
                      (getTime (submitted_at current))
             then info_of r else current))
  ∧ getTime NoTimestamp = num_of_Z 0
  ∧ (∀ events r current,
       latest events = Some current →
       r_submitted_at r = submitted_at current →
       r_submitted_at r ≠ InvalidDate →
       latest (events ++ [r]) = Some (info_of r))
  ∧ (∀ events r current ms,
       latest events = Some current →
       submitted_at current = NoTimestamp →
       r_submitted_at r = Instant ms → (0 ≤ ms)%Z →
       latest (events ++ [r]) = Some (info_of r))
  ∧ (∀ events r current ms,
       latest events = Some current →
       submitted_at current = Instant ms → (0 < ms)%Z →
       r_submitted_at r = NoTimestamp →
       latest (events ++ [r]) = Some current)
  ∧ (∀ user, user ∈ approvedUsers byUser ↔
       ∃ info, Map_get byUser user = Some info ∧ state info = APPROVED)
  ∧ NoDup (approvedUsers byUser).
Proof.
  intros byUser. split_and!.
  - apply allReviewStates_no_empty_login.
  - intros user Hu. by apply allReviewStates_latest.
  - done.
  - intros events r current H. rewrite latest_snoc, H. simpl. by destruct (js_ge _ _).
  - done.
  - intros events r current H Heq Hv. rewrite latest_snoc, H. simpl.
    rewrite <- Heq. destruct (r_submitted_at r) as [|ms|]; [done| |done].
    simpl. unfold Qle_bool. simpl. rewrite Z.leb_refl. done.
  - intros events r current ms H Hc Hr Hms. rewrite latest_snoc, H. simpl.
    rewrite Hc, Hr. simpl. unfold Qle_bool. simpl.
    rewrite (proj2 (Z.leb_le _ _)) by lia. done.
  - intros events r current ms H Hc Hms Hr. rewrite latest_snoc, H. simpl.
    rewrite Hc, Hr. simpl. unfold Qle_bool. simpl.
    rewrite (proj2 (Z.leb_gt _ _)) by lia. done.
  - intros user. rewrite approvedUsers_elem.
    by setoid_rewrite (Map_get_elem byUser user _ (allReviewStates_NoDup allReviews)).
  - apply approvedUsers_NoDup.
Qed.

(* ===================================================================== *)
(** ** Computations and their traces *)
(* ===================================================================== *)

Section traced.
Context (P : effect → Prop).

Lemma traced_ret {A} (a : A) : traced P (ret a).
Proof. constructor. Qed.

Lemma traced_throw {A} (e : Thrown) : traced P (throw e : M A).
Proof. constructor. Qed.

Lemma traced_emit (e : effect) : P e → traced P (emit e).
Proof. intros H. by constructor. Qed.

Lemma traced_bind {A B} (m : M A) (k : A → M B) :
  traced P m → (∀ a, traced P (k a)) → traced P (bind m k).
Proof.
  unfold traced, bind, trace. destruct m as [t [a|e]]; simpl; intros Hm Hk; [|done].
  specialize (Hk a). destruct (k a) as [t' c]. simpl in *. by apply Forall_app.
Qed.

Lemma traced_try_catch {A} (m : M A) (h : Thrown → M A) :
  traced P m → (∀ e, traced P (h e)) → traced P (try_catch m h).
Proof.
  unfold traced, try_catch, trace. destruct m as [t [a|e]]; simpl; intros Hm Hh; [done|].
  specialize (Hh e). destruct (h e) as [t' c]. simpl in *. by apply Forall_app.
Qed.

Lemma traced_await {A} (request : effect) (answer : Response A) :
  P request → traced P (await request answer).
Proof.
  intros H. unfold await. apply traced_bind; [by apply traced_emit|].
  intros _. destruct answer; [apply traced_ret|apply traced_throw].
Qed.
End traced.

Ltac traced_step :=
  first [ apply traced_ret | apply traced_throw
        | apply traced_emit | apply traced_await
        | apply traced_bind; [|intros ?] | apply traced_try_catch; [|intros ?] ].

Ltac solve_traced := repeat first [ traced_step | case_match ]; try done.

Ltac solve_quiet := unfold no_attempt; solve_traced.

Lemma trace_bind {A B} (m : M A) (k : A → M B) :
  trace (bind m k) =
  trace m ++ match completion m with Normal a => trace (k a) | Throw _ => [] end.
Proof.
  unfold bind, trace, completion. destruct m as [t [a|e]]; simpl.
  - by destruct (k a).
  - by rewrite app_nil_r.
Qed.

Lemma completion_bind {A B} (m : M A) (k : A → M B) :
  completion (bind m k) =
  match completion m with Normal a => completion (k a) | Throw e => Throw e end.
Proof.
  unfold bind, completion. destruct m as [t [a|e]]; simpl; [|done]. by destruct (k a).
Qed.

Lemma outputs_app t1 t2 : outputs (t1 ++ t2) = outputs t1 ++ outputs t2.
Proof. unfold outputs. apply omap_app. Qed.

Lemma outputs_silent t : Forall not_output t → outputs t = [].
Proof.
  induction 1 as [|e t He _ IH]; [done|]. unfold outputs in *. simpl.
  destruct e; try done.
Qed.

Lemma attempts_app slug t1 t2 :
  attempts slug (t1 ++ t2) = attempts slug t1 + attempts slug t2.
Proof. unfold attempts. by rewrite filter_app, length_app. Qed.

(* ===================================================================== *)
(** ** Retraction *)
(* ===================================================================== *)

(** C7: the code at the failing input.  The label [constructor] is removed
    from a pull request; it is no key of the configuration, yet [in] finds
    it on [Object.prototype], and the run asks the remote side to remove a
    requested team. *)
Theorem retract_on_inherited_name :
  let octokit := agreeable web_document [] (λ _, Resolved []) in
  let context := event "unlabeled" "constructor" (pull_request_of false []) in
  validateConfig web_document = inr web_config
  ∧ labels web_config !! u16 "constructor" = None
  ∧ maybeRetractOnUnlabeled octokit web_config plain_inputs context
    = ([pulls_removeRequestedReviewers [Inherited (u16 "constructor")];
        info (RemovedTeam (Inherited (u16 "constructor")) (u16 "constructor"))],
       Normal tt)
  ∧ pulls_removeRequestedReviewers [Inherited (u16 "constructor")]
      ∈ trace (run octokit plain_inputs context).
Proof.
  repeat split; try (vm_compute; reflexivity).
  vm_compute. right. left.
Qed.

(** What the retraction does in every case: nothing, or, on an [unlabeled]
    event whose label [in] finds in the configured labels and with
    [retractOnUnlabeled], one removal request (or its dry-run trace).  No
    effect of it touches a review. *)
Lemma maybeRetractOnUnlabeled_cases octokit config inputs context :
  maybeRetractOnUnlabeled octokit config inputs context = ret tt
  ∨ ∃ name team,
      retractOnUnlabeled config = Some true
      ∧ (eventName context = u16 "pull_request"
         ∨ eventName context = u16 "pull_request_target")
      ∧ action context = Some (u16 "unlabeled")
      ∧ label_name context = Some name ∧ name ≠ []
      ∧ get (labels config) name = Some team
      ∧ trace (maybeRetractOnUnlabeled octokit config inputs context) =
        (if dryRun inputs then [info (WouldRemoveTeam team)]
         else [pulls_removeRequestedReviewers [team];
               match on_removeRequestedReviewers octokit [team] with
               | Resolved _ => info (RemovedTeam team name)
               | Rejected _ => warning (FailedToRemoveTeam team)
               end])
      ∧ completion (maybeRetractOnUnlabeled octokit config inputs context)
        = Normal tt.
Proof.
  unfold maybeRetractOnUnlabeled.
  destruct (retractOnUnlabeled config) as [[|]|] eqn:Hr; simpl; [|by left..].
  destruct (bool_decide (eventName context = u16 "pull_request")) eqn:He1;
    destruct (bool_decide (eventName context = u16 "pull_request_target")) eqn:He2;
    simpl; try (by left).
  all: destruct (bool_decide (action context = Some (u16 "unlabeled"))) eqn:Ha;
    simpl; try (by left).
  all: destruct (label_name context) as [[|c name]|] eqn:Hn; try (by left).
  all: destruct (has_in (c :: name) (labels config)); simpl; try (by left).
  all: destruct (get (labels config) (c :: name)) as [[[|c' s]|k]|] eqn:Hg;
    simpl; try (by left).
  all: right; eexists (c :: name), _.
  all: apply bool_decide_eq_true in Ha.
  all: try apply bool_decide_eq_true in He1.
  all: try apply bool_decide_eq_true in He2.
  all: split; [done|]; split; [by auto|]; split; [done|]; split; [done|].
  all: split; [done|]; split; [done|].
  all: destruct (dryRun inputs); [done|].
  all: unfold await; simpl.
  all: by destruct (on_removeRequestedReviewers octokit _).
Qed.

(* ===================================================================== *)
(** ** Team membership and the evaluation loop *)
(* ===================================================================== *)

Lemma proto_key_inherited : proto_key ∈ Object_prototype_keys.
Proof. by vm_compute; repeat first [left | right]. Qed.

(** A read of an own property finds it. *)
Lemma get_own {V} (o : gmap jsstring V) (k : jsstring) (v : V) :
  o !! k = Some v → get o k = Some (Own v).
Proof. unfold get. by intros ->. Qed.

Lemma fetchTeamMembers_cached (octokit : Octokit) (slug : jsstring)
    (cache : TeamMembersCache) (dbg : bool) (members : gset jsstring) :
  cache !! slug = Some members →
  fetchTeamMembers octokit slug cache dbg = ret (Own members, cache).
Proof. intros H. unfold fetchTeamMembers. by rewrite (get_own _ _ _ H). Qed.

Lemma fetchTeamMembers_inherited (octokit : Octokit) (slug : jsstring)
    (cache : TeamMembersCache) (dbg : bool) :
  cache !! slug = None → slug ∈ Object_prototype_keys →
  fetchTeamMembers octokit slug cache dbg = ret (Inherited slug, cache).
Proof.
  intros H Hp. unfold fetchTeamMembers, get. rewrite H.
  by rewrite bool_decide_eq_true_2.
Qed.

Lemma fetchTeamMembers_first (octokit : Octokit) (slug : jsstring)
    (cache : TeamMembersCache) (dbg : bool) :
  cache !! slug = None → slug ∉ Object_prototype_keys →
  fetchTeamMembers octokit slug cache dbg =
  (teams_listMembersInOrg slug ::
     match on_listMembersInOrg octokit slug with
     | Resolved members =>
         if dbg then [info (DebugFetched (size (member_logins members)) slug)]
         else []
     | Rejected _ => [warning (CouldNotListMembers slug)]
     end,
   Normal (Own (resolved_members octokit slug),
           <[slug := resolved_members octokit slug]> cache)).
Proof.
  intros H Hp. unfold fetchTeamMembers, get, resolved_members. rewrite H.
  rewrite bool_decide_eq_false_2 by done.
  assert (Hk : slug ≠ proto_key) by (intros ->; apply Hp, proto_key_inherited).
  unfold assign. destruct (decide (slug = proto_key)) as [|_]; [done|].
  unfold await. destruct (on_listMembersInOrg octokit slug) as [members|status]; simpl.
  - by destruct dbg.
  - done.
Qed.

Section evaluation.
Context (octokit : Octokit) (inputs : Inputs) (config : LabelConfig)
        (extraction : DomainExtractionResult) (approved : list jsstring).

Lemma evaluate_domain_step (cache : TeamMembersCache)
    (evs : list EvaluatedDomain) (d : jsstring) :
  cache_ok octokit cache → domain_ok config extraction d →
  ∃ t,
    evaluate_domain octokit inputs config extraction approved (cache, evs) d =
    (t, if breaks approved cache (slug_of config d) then Throw TypeError
        else Normal (if fetches cache (slug_of config d)
                     then <[slug_of config d :=
                              resolved_members octokit (slug_of config d)]> cache
                     else cache,
                     evs ++ [evaluation_of octokit config approved d
                                           (slug_of config d)]))
    ∧ ∀ slug, attempts slug t =
              if fetches cache (slug_of config d) && bool_decide (slug_of config d = slug)
              then 1 else 0.
Proof.
  intros Hc (slug & Hl & Hs & Hm & Hd). unfold slug_of, breaks, fetches. rewrite Hl. simpl.
  unfold evaluate_domain. rewrite (get_own _ _ _ Hl), Hm.
  destruct slug as [|c0 slug]; [done|]. destruct d as [|c1 d]; [done|].
  destruct (cache !! (c0 :: slug)) as [members|] eqn:Hg.
  - rewrite (fetchTeamMembers_cached _ _ _ _ _ Hg).
    rewrite !bool_decide_eq_false_2 by naive_solver.
    exists []. split; [|done]. simpl. unfold evaluation_of.
    by rewrite (Hc _ _ Hg).
  - destruct (decide ((c0 :: slug) ∈ Object_prototype_keys)) as [Hp|Hp].
    + rewrite (fetchTeamMembers_inherited _ _ _ _ Hg Hp).
      rewrite (bool_decide_eq_false_2 (_ ∧ _ ∉ _)) by naive_solver.
      destruct approved as [|u us] eqn:Ha.
      * rewrite bool_decide_eq_false_2 by naive_solver. simpl. by exists [].
      * rewrite bool_decide_eq_true_2 by done. simpl. by exists [].
    + rewrite (fetchTeamMembers_first _ _ _ _ Hg Hp).
      rewrite bool_decide_eq_false_2 by naive_solver.
      rewrite bool_decide_eq_true_2 by done.
      eexists. split; [simpl; reflexivity|].
      intros slug'. unfold attempts. rewrite app_nil_r, filter_cons. simpl.
      assert (Hrest : ∀ t', (∀ e, e ∈ t' → is_attempt slug' e = false) →
                filter (λ e, is_attempt slug' e = true) t' = []).
      { intros t' Ht'. induction t' as [|e t' IH]; [done|].
        rewrite filter_cons, decide_False.
        - apply IH. intros e' He'. apply Ht'. by right.
        - rewrite Ht'; [done|left]. }
      rewrite Hrest.
      * by case_bool_decide; case_decide.
      * intros e. destruct (on_listMembersInOrg octokit (c0 :: slug)); [destruct (debug inputs)|].
        all: intros He; repeat (apply elem_of_cons in He as [->|He]; [done|]).
        all: by apply elem_of_nil in He.
Qed.

Lemma for_of_cons {S A} (body : S → A → M S) st x xs :
  for_of body st (x :: xs) = bind (body st x) (λ st, for_of body st xs).
Proof. done. Qed.

Lemma evaluate_loop (ds : list jsstring) :
  ∀ (cache : TeamMembersCache) (evs : list EvaluatedDomain),
  cache_ok octokit cache → Forall (domain_ok config extraction) ds →
  ∀ t r,
    for_of (evaluate_domain octokit inputs config extraction approved)
           (cache, evs) ds = (t, r) →
    (∀ slug, attempts slug t ≤ 1 ∧ (is_Some (cache !! slug) → attempts slug t = 0))
    ∧ match r with
      | Normal (cache', evs') =>
          cache_ok octokit cache'
          ∧ evs' = evs ++ ((λ d, evaluation_of octokit config approved d
                                               (slug_of config d)) <$> ds)
      | Throw e =>
          e = TypeError ∧ approved ≠ []
          ∧ ∃ d, d ∈ ds ∧ slug_of config d ∈ Object_prototype_keys
      end.
Proof.
  induction ds as [|d ds IH]; intros cache evs Hc Hds t r Hrun.
  - injection Hrun as <- <-.
    split; [intros slug; split; [unfold attempts; simpl; lia|done]|].
    split; [done|]. by rewrite app_nil_r.
  - apply Forall_cons in Hds as [Hd Hds]. rewrite for_of_cons in Hrun.
    destruct (evaluate_domain_step cache evs d Hc Hd) as (t1 & Hstep & Hat).
    rewrite Hstep in Hrun. unfold bind in Hrun.
    destruct (breaks approved cache (slug_of config d)) eqn:Hb.
    + injection Hrun as <- <-. apply bool_decide_eq_true in Hb as (Hn & Hp & Ha).
      split.
      * intros slug. rewrite Hat. unfold fetches.
        rewrite bool_decide_eq_false_2 by naive_solver. simpl. split; [lia|done].
      * split; [done|]. split; [done|]. exists d. split; [left|done].
    + set (cache1 := if fetches cache (slug_of config d)
                     then <[slug_of config d := resolved_members octokit (slug_of config d)]> cache
                     else cache) in *.
      destruct (for_of _ (cache1, _) ds) as [t2 r2] eqn:Hrest.
      injection Hrun as <- <-.
      assert (Hc1 : cache_ok octokit cache1).
      { unfold cache1. destruct (fetches cache (slug_of config d)); [|done].
        intros slug members. rewrite lookup_insert. case_decide as Hk; [|apply Hc].
        subst slug. by intros [= <-]. }
      assert (Hsub : ∀ slug, is_Some (cache !! slug) → is_Some (cache1 !! slug)).
      { unfold cache1. destruct (fetches cache (slug_of config d)); [|done].
        intros slug Hs. rewrite lookup_insert. by case_decide. }
      destruct (IH cache1 _ Hc1 Hds t2 r2 Hrest) as [Hat2 Hr2].
      split.
      * intros slug. rewrite attempts_app, Hat.
        destruct (Hat2 slug) as [Hle Hzero].
        destruct (fetches cache (slug_of config d)) eqn:Hf; simpl.
        -- case_bool_decide as Hk.
           ++ rewrite Hzero.
              ** split; [lia|]. intros Hs.
                 apply bool_decide_eq_true in Hf as [Hn _]. subst slug.
                 rewrite Hn in Hs. by destruct Hs.
              ** unfold cache1. subst slug. rewrite lookup_insert_eq. eauto.
           ++ split; [lia|]. intros Hs. rewrite Hzero; [done|auto].
        -- split; [lia|]. intros Hs. rewrite Hzero; [done|auto].
      * destruct r2 as [[cache' evs']|e].
        -- destruct Hr2 as [Hc' ->]. split; [done|].
           by rewrite <- app_assoc.
        -- destruct Hr2 as (-> & Ha & d' & Hd' & Hp). split; [done|]. split; [done|].
           exists d'. split; [by right|done].
Qed.

(** A loop that returns lists the members of each ordinary team of its
    domains that the cache does not hold. *)
Lemma evaluate_loop_lists (ds : list jsstring) :
  ∀ (cache : TeamMembersCache) (evs : list EvaluatedDomain),
  cache_ok octokit cache → Forall (domain_ok config extraction) ds →
  ∀ t st,
    for_of (evaluate_domain octokit inputs config extraction approved)
           (cache, evs) ds = (t, Normal st) →
    ∀ slug, cache !! slug = None → slug ∉ Object_prototype_keys →
            (∃ d, d ∈ ds ∧ slug_of config d = slug) →
            attempts slug t = 1.
Proof.
  induction ds as [|d ds IH]; intros cache evs Hc Hds t st Hrun slug Hn Hp Hd.
  - by destruct Hd as (d & ?%elem_of_nil & _).
  - apply Forall_cons in Hds as [Hd0 Hds]. rewrite for_of_cons in Hrun.
    destruct (evaluate_domain_step cache evs d Hc Hd0) as (t1 & Hstep & Hat).
    rewrite Hstep in Hrun. unfold bind in Hrun.
    destruct (breaks approved cache (slug_of config d)); [done|].
    set (cache1 := if fetches cache (slug_of config d)
                   then <[slug_of config d :=
                            resolved_members octokit (slug_of config d)]> cache
                   else cache) in *.
    destruct (for_of _ (cache1, _) ds) as [t2 r2] eqn:Hrest.
    destruct r2 as [st2|e]; [|done]. injection Hrun as <- <-.
    assert (Hc1 : cache_ok octokit cache1).
    { unfold cache1. destruct (fetches cache (slug_of config d)); [|done].
      intros slug' members. rewrite lookup_insert.
      case_decide as Hk; [|apply Hc]. subst slug'. by intros [= <-]. }
    rewrite attempts_app, Hat.
    destruct (decide (slug_of config d = slug)) as [Heq|Hne].
    + assert (Hf : fetches cache (slug_of config d) = true).
      { apply bool_decide_eq_true. by rewrite Heq. }
      rewrite Hf, (bool_decide_eq_true_2 _ Heq). simpl.
      destruct (evaluate_loop ds cache1 _ Hc1 Hds t2 _ Hrest) as [Hat2 _].
      destruct (Hat2 slug) as [_ Hzero]. rewrite Hzero; [done|].
      unfold cache1. rewrite Hf, Heq, lookup_insert_eq. eauto.
    + rewrite (bool_decide_eq_false_2 _ Hne), andb_false_r. simpl.
      apply (IH cache1 _ Hc1 Hds t2 st2 Hrest); [|done|].
      * unfold cache1. destruct (fetches cache (slug_of config d)); [|done].
        by rewrite lookup_insert_ne.
      * destruct Hd as (d' & [->|Hin]%elem_of_cons & Hs); [done|by exists d'].
Qed.

End evaluation.

(* ===================================================================== *)
(** ** Validated configurations *)
(* ===================================================================== *)

Lemma validate_overrides_entries (es : list (jsstring * jsvalue))
    (o o' : gmap jsstring Override) :
  validate_overrides es o = inr o' →
  map_Forall (λ _ ov, is_Some (ov_requiredApprovals ov)) o →
  map_Forall (λ _ ov, is_Some (ov_requiredApprovals ov)) o'.
Proof.
  revert o. induction es as [|[k spec] es IH]; intros o H Ho; simpl in H.
  - by injection H as <-.
  - destruct (is_object spec); [|by eapply IH].
    destruct (field "requiredApprovals" spec) as [r|]; [|by eapply IH].
    destruct r as [| |n| | |]; try done.
    destruct (js_lt n (num_of_Z 1)); [done|].
    apply (IH _ H). unfold assign. destruct (decide _); [done|].
    apply map_Forall_insert_2; [by eexists|done].
Qed.

Lemma validated_overrides (raw : jsvalue) (config : LabelConfig) :
  validateConfig raw = inr config →
  ∃ o, overrides config = Some o
       ∧ map_Forall (λ _ ov, is_Some (ov_requiredApprovals ov)) o.
Proof.
  intros H. apply validateConfig_inr in H as (_ & _ & _ & l & _ & _ & _ & o & Ho & Hv).
  exists o. split; [done|].
  destruct (field "overrides" raw) as [ov|]; [destruct (is_object ov)|].
  - eapply validate_overrides_entries; [exact Hv|]. apply map_Forall_empty.
  - subst o. apply map_Forall_empty.
  - subst o. apply map_Forall_empty.
Qed.

Lemma validated_labels (raw : jsvalue) (config : LabelConfig) :
  validateConfig raw = inr config →
  map_Forall (λ _ slug, truthy_string slug = true ∧ trim slug = slug) (labels config)
  ∧ ∀ k, is_Some (labels config !! k) → trim k = k ∧ k ≠ proto_key.
Proof.
  intros H. apply validateConfig_inr in H as (_ & _ & _ & l & _ & _ & Hv & _).
  split.
  - eapply validate_labels_slugs; [exact Hv|]. apply map_Forall_empty.
  - eapply validate_labels_keys; [exact Hv|]. intros k [? Hk]. by rewrite lookup_empty in Hk.
Qed.

Lemma validated_domains_ok (raw : jsvalue) (config : LabelConfig)
    (prLabels : list (option jsstring)) :
  validateConfig raw = inr config →
  Forall (domain_ok config (extractDomainLabels config prLabels))
         (domains (extractDomainLabels config prLabels)).
Proof.
  intros H. apply Forall_forall. intros d Hd.
  pose proof (extractDomainLabels_get config prLabels d Hd) as Hmd.
  destruct (matcher_inv_holds config prLabels) as [He _ _].
  apply He in Hd as ((Hne & [slug Hs]) & _).
  exists slug. split; [done|]. split; [|done].
  destruct (validated_labels raw config H) as [Hl _].
  apply (Hl d slug) in Hs as [Ht _]. by destruct slug.
Qed.

Lemma required_for_validated (raw : jsvalue) (config : LabelConfig)
    (d : jsstring) :
  validateConfig raw = inr config →
  match overrides config ≫= (λ o, o !! d) with
  | Some ov => ov_requiredApprovals ov = Some (required_for config d)
  | None => requiredApprovals config = Some (required_for config d)
  end.
Proof.
  intros H. destruct (validated_overrides raw config H) as (o & Ho & Hall).
  apply validateConfig_inr in H as (Hr & _).
  unfold required_for, get. rewrite Ho, Hr. simpl.
  destruct (o !! d) as [ov|] eqn:Hov.
  - destruct (Hall d ov Hov) as [r Hr']. by rewrite Hr'.
  - by destruct (bool_decide _).
Qed.

Lemma js_ge_integers (n : nat) (z : Z) :
  js_ge (num_of_nat n) (num_of_Z z) = true ↔ (z ≤ Z.of_nat n)%Z.
Proof.
  unfold js_ge, num_of_nat, num_of_Z. rewrite Qle_bool_iff.
  unfold Qle. simpl. lia.
Qed.

Lemma approvers_intersection (approved : list jsstring) (members : gset jsstring) :
  NoDup approved →
  (list_to_set (filter (λ user, user ∈ members) approved) : gset jsstring)
  = list_to_set approved ∩ members
  ∧ length (filter (λ user, user ∈ members) approved)
    = size ((list_to_set approved : gset jsstring) ∩ members).
Proof.
  intros Hn.
  assert (Heq : (list_to_set (filter (λ user, user ∈ members) approved) : gset jsstring)
                = list_to_set approved ∩ members).
  { apply set_eq. intros x.
    rewrite elem_of_intersection, !elem_of_list_to_set, list_elem_of_filter. tauto. }
  split; [done|]. rewrite <- Heq. symmetry. apply size_list_to_set.
  by apply NoDup_filter.
Qed.

(* ===================================================================== *)
(** ** Evaluation records *)
(* ===================================================================== *)

Lemma evaluate_validated (octokit : Octokit) (inputs : Inputs) (raw : jsvalue)
    (config : LabelConfig) (prLabels : list (option jsstring))
    (approved : list jsstring) :
  validateConfig raw = inr config →
  let extraction := extractDomainLabels config prLabels in
  let m := evaluate octokit inputs config extraction approved in
  (∀ slug, attempts slug (trace m) ≤ 1)
  ∧ match completion m with
    | Normal evs =>
        evs = (λ d, evaluation_of octokit config approved d (slug_of config d))
                <$> domains extraction
    | Throw e =>
        e = TypeError ∧ approved ≠ []
        ∧ ∃ d, d ∈ domains extraction
               ∧ slug_of config d ∈ Object_prototype_keys
    end.
Proof.
  intros H extraction m. unfold m, evaluate.
  destruct (for_of _ (∅, []) (domains extraction)) as [t r] eqn:Hrun.
  destruct (evaluate_loop octokit inputs config extraction approved
              (domains extraction) ∅ []) with (t := t) (r := r) as [Hat Hr].
  - intros slug members Hs. by rewrite lookup_empty in Hs.
  - by eapply validated_domains_ok.
  - exact Hrun.
  - unfold bind, trace, completion. destruct r as [[cache evs]|e]; simpl.
    + rewrite app_nil_r. split; [intros slug; apply Hat|]. by destruct Hr as [_ ->].
    + split; [intros slug; apply Hat|done].
Qed.

(** C1: under a validated configuration the loop of the run gives every
    matched domain key one record, in the matcher's order, and in each
    record: [required] is the override's [requiredApprovals] when the key has
    an override and the default otherwise; [approvers] is, as a set, the
    approved users intersected with the members the team resolves to;
    [approvals] is the size of that set; and [satisfied] is
    [approvals >= required].  The loop returns whenever no matched team slug
    is the name of a member of [Object.prototype] (or nobody approved). *)
Theorem evaluation_records (octokit : Octokit) (inputs : Inputs)
    (raw : jsvalue) (config : LabelConfig) (prLabels : list (option jsstring))
    (reviews : list Review) :
  validateConfig raw = inr config →
  let extraction := extractDomainLabels config prLabels in
  let approved := approvedUsers (allReviewStates reviews) in
  let members := resolved_members octokit in
  let loop := evaluate octokit inputs config extraction approved in
  ((approved = []
    ∨ ∀ d slug, d ∈ domains extraction → labels config !! d = Some slug →
                slug ∉ Object_prototype_keys) →
   ∃ evaluations, completion loop = Normal evaluations)
  ∧ ∀ evaluations,
      completion loop = Normal evaluations →
      domainKey <$> evaluations = domains extraction
      ∧ Forall
          (λ e,
             labels config !! domainKey e = Some (teamSlug e)
             ∧ match overrides config ≫= (λ o, o !! domainKey e) with
               | Some ov => ov_requiredApprovals ov = Some (required e)
               | None => requiredApprovals config = Some (required e)
               end
             ∧ (list_to_set (approvers e) : gset jsstring)
               = list_to_set approved ∩ members (teamSlug e)
             ∧ approvals e = length (approvers e)
             ∧ approvals e
               = size ((list_to_set approved : gset jsstring)
                       ∩ members (teamSlug e))
             ∧ satisfied e = js_ge (num_of_nat (approvals e)) (required e)
             ∧ ∀ z, required e = num_of_Z z →
                    satisfied e = true ↔ (z ≤ Z.of_nat (approvals e))%Z)
          evaluations.
Proof.
  intros H extraction approved members loop.
  destruct (evaluate_validated octokit inputs raw config prLabels approved H)
    as [_ Hc]. fold extraction loop in Hc.
  pose proof (validated_domains_ok raw config prLabels H) as Hok.
  fold extraction in Hok. split.
  - intros Hsafe. destruct (completion loop) as [evs|e]; [by eexists|].
    exfalso. destruct Hc as (_ & Ha & d & Hd & Hp).
    destruct Hsafe as [?|Hsafe]; [done|].
    rewrite Forall_forall in Hok. destruct (Hok d Hd) as (slug & Hl & _).
    apply (Hsafe d slug Hd Hl). unfold slug_of in Hp. by rewrite Hl in Hp.
  - intros evaluations Heq. rewrite Heq in Hc. subst evaluations. split.
    + clear. induction (domains extraction) as [|d ds IHd]; [done|].
      rewrite !fmap_cons. f_equal. exact IHd.
    + apply Forall_fmap. eapply Forall_impl; [exact Hok|].
      intros d (slug & Hl & _). unfold compose, evaluation_of, slug_of.
      rewrite Hl. cbn [default domainKey teamSlug required approvers approvals satisfied].
      destruct (approvers_intersection approved (members slug)) as [Hset Hsize];
        [apply approvedUsers_NoDup|].
      split; [done|]. split; [by apply (required_for_validated raw)|].
      split; [done|]. split; [done|]. split; [done|]. split; [done|].
      intros z Hz. rewrite Hz. apply js_ge_integers.
Qed.

(** Scenario A of the specification: the two records of C1. *)
Lemma evaluation_records_witness :
  validateConfig scenario_document = inr scenario_config
  ∧ completion
      (evaluate scenario_octokit plain_inputs scenario_config
                (extractDomainLabels scenario_config scenario_labels)
                (approvedUsers (allReviewStates scenario_reviews)))
    = Normal scenario_evaluations
  ∧ domainKey <$> scenario_evaluations
    = domains (extractDomainLabels scenario_config scenario_labels).
Proof.
  assert (Hvalid : validateConfig scenario_document = inr scenario_config)
    by (vm_compute; reflexivity).
  assert (Hloop : completion
            (evaluate scenario_octokit plain_inputs scenario_config
                      (extractDomainLabels scenario_config scenario_labels)
                      (approvedUsers (allReviewStates scenario_reviews)))
          = Normal scenario_evaluations)
    by (vm_compute; reflexivity).
  split; [exact Hvalid|]. split; [exact Hloop|].
  destruct (evaluation_records scenario_octokit plain_inputs scenario_document
              scenario_config scenario_labels scenario_reviews Hvalid)
    as [_ Hrecords].
  destruct (Hrecords scenario_evaluations Hloop) as [Hkeys _].
  exact Hkeys.
Defined.

(* ===================================================================== *)
(** ** The run *)
(* ===================================================================== *)

Lemma trace_try_catch {A} (m : M A) (h : Thrown → M A) :
  trace (try_catch m h) =
  trace m ++ match completion m with Normal _ => [] | Throw e => trace (h e) end.
Proof.
  unfold try_catch, trace, completion. destruct m as [t [a|e]]; simpl.
  - by rewrite app_nil_r.
  - by destruct (h e).
Qed.

Lemma completion_try_catch {A} (m : M A) (h : Thrown → M A) :
  completion (try_catch m h) =
  match completion m with Normal a => Normal a | Throw e => completion (h e) end.
Proof.
  unfold try_catch, completion. destruct m as [t [a|e]]; simpl; [done|].
  by destruct (h e).
Qed.

Lemma M_eta {A} (m : M A) : m = (trace m, completion m).
Proof. by destruct m. Qed.

Lemma loadConfig_loaded (octokit : Octokit) (inputs : Inputs)
    (config : LabelConfig) :
  completion (loadConfig octokit inputs) = Normal (Some config) →
  trace (loadConfig octokit inputs) = [repos_getContent]
  ∧ ∃ raw, validateConfig raw = inr config.
Proof.
  unfold loadConfig, await.
  destruct (on_getContent octokit) as [[[raw|]|]|[status|]]; simpl; try done.
  - destruct (validateConfig raw) as [e|c] eqn:Hv; simpl; [done|].
    intros [= ->]. split; [done|by exists raw].
  - destruct status as [| |]; try done.
    repeat (destruct p as [p|p|]; try done).
    all: by destruct (failOnMissingConfig inputs).
Qed.

Lemma maybeRetractOnUnlabeled_normal (octokit : Octokit) (config : LabelConfig)
    (inputs : Inputs) (context : Context) :
  completion (maybeRetractOnUnlabeled octokit config inputs context) = Normal tt.
Proof.
  destruct (maybeRetractOnUnlabeled_cases octokit config inputs context)
    as [->|(? & ? & _ & _ & _ & _ & _ & _ & _ & H)]; done.
Qed.

Lemma createCheckRun_normal (octokit : Octokit) (headSha : option jsstring)
    (conclusion : Conclusion) (summary : Title) (text : Message) :
  completion (createCheckRun octokit headSha conclusion summary text) = Normal tt.
Proof.
  unfold createCheckRun, await. destruct headSha as [[|c s]|]; try done.
  by destruct (on_checks_create octokit) as [[]|].
Qed.

Lemma silent_outputs {A} (m : M A) : silent m → outputs (trace m) = [].
Proof. apply outputs_silent. Qed.

Lemma loadConfig_silent (octokit : Octokit) (inputs : Inputs) :
  silent (loadConfig octokit inputs).
Proof. unfold silent, loadConfig. solve_traced. Qed.

Lemma maybeRetractOnUnlabeled_silent (octokit : Octokit) (config : LabelConfig)
    (inputs : Inputs) (context : Context) :
  silent (maybeRetractOnUnlabeled octokit config inputs context).
Proof. unfold silent, maybeRetractOnUnlabeled. solve_traced. Qed.

Lemma createCheckRun_silent (octokit : Octokit) (headSha : option jsstring)
    (conclusion : Conclusion) (summary : Title) (text : Message) :
  silent (createCheckRun octokit headSha conclusion summary text).
Proof. unfold silent, createCheckRun. solve_traced. Qed.

Lemma ensureTeamReviewRequests_silent (octokit : Octokit)
    (config : LabelConfig) (ds : list jsstring) (existing : gset jsstring)
    (inputs : Inputs) :
  silent (ensureTeamReviewRequests octokit config ds existing inputs).
Proof. unfold silent, ensureTeamReviewRequests. solve_traced. Qed.

Lemma fetchTeamMembers_silent (octokit : Octokit) (slug : jsstring)
    (cache : TeamMembersCache) (dbg : bool) :
  silent (fetchTeamMembers octokit slug cache dbg).
Proof. unfold silent, fetchTeamMembers. solve_traced. Qed.

Lemma for_of_traced {S A} (P : effect → Prop) (body : S → A → M S) :
  (∀ st x, traced P (body st x)) → ∀ xs st, traced P (for_of body st xs).
Proof.
  intros Hb xs. induction xs as [|x xs IH]; intros st; simpl.
  - apply traced_ret.
  - apply traced_bind; [apply Hb|apply IH].
Qed.

Lemma evaluate_silent (octokit : Octokit) (inputs : Inputs)
    (config : LabelConfig) (extraction : DomainExtractionResult)
    (approved : list jsstring) :
  silent (evaluate octokit inputs config extraction approved).
Proof.
  unfold silent, evaluate. apply traced_bind; [|intros; apply traced_ret].
  apply for_of_traced. intros [cache evs] d. unfold evaluate_domain.
  repeat first [ apply fetchTeamMembers_silent | traced_step | case_match ]; try done.
  unfold collect_approvers. solve_traced.
Qed.

Lemma run_reaches (octokit : Octokit) (inputs : Inputs) (context : Context)
    (pr : PullRequest) (config : LabelConfig) :
  reaches_evaluation octokit inputs context pr config →
  let retract := maybeRetractOnUnlabeled octokit config inputs context in
  let evaluation := run_evaluation octokit inputs config pr in
  trace (run octokit inputs context) =
    repos_getContent :: trace retract ++ trace evaluation
      ++ match completion evaluation with
         | Normal _ => []
         | Throw e => [setFailed (Unhandled e)]
         end.
Proof.
  intros (Htok & Hpr & Hsha & Hload & Hdraft) retract evaluation.
  destruct (loadConfig_loaded _ _ _ Hload) as [Htl _].
  assert (Hbody : run_body octokit inputs context =
                  (repos_getContent
                     :: trace (run_with_config octokit inputs context config pr),
                   completion (run_with_config octokit inputs context config pr))).
  { unfold run_body. rewrite Htok, Hpr. cbn [negb].
    destruct (head_sha pr) as [[|c sha]|] eqn:Hh; try done.
    rewrite (M_eta (loadConfig octokit inputs)), Hload, Htl.
    cbn [bind try_catch ret app].
    by destruct (run_with_config octokit inputs context config pr). }
  assert (Hwith : run_with_config octokit inputs context config pr =
                  bind retract (λ _, evaluation)).
  { unfold run_with_config. by rewrite Hdraft. }
  unfold run. rewrite trace_try_catch, Hbody, Hwith.
  cbn [trace completion fst snd].
  change (?m.1) with (trace m). change (?m.2) with (completion m).
  rewrite trace_bind, completion_bind.
  unfold retract at 2 3. rewrite maybeRetractOnUnlabeled_normal.
  cbn [app]. rewrite <- app_assoc.
  by destruct (completion evaluation) as [[]|e].
Qed.

Lemma refresh_requested_teams_normal (octokit : Octokit) (pr : PullRequest) :
  ∃ teams, completion (refresh_requested_teams octokit pr) = Normal teams.
Proof.
  unfold refresh_requested_teams, await.
  destruct (on_pulls_get octokit) as [teams|status]; by eexists.
Qed.

Lemma refresh_requested_teams_silent (octokit : Octokit) (pr : PullRequest) :
  silent (refresh_requested_teams octokit pr).
Proof. unfold silent, refresh_requested_teams. solve_traced. Qed.

Lemma ensure_caught_normal (octokit : Octokit) (config : LabelConfig)
    (ds : list jsstring) (existing : gset jsstring) (inputs : Inputs) :
  completion
    (try_catch (ensureTeamReviewRequests octokit config ds existing inputs)
               (λ err, emit (warning (FailedEnsuring err)))) = Normal tt.
Proof.
  rewrite completion_try_catch.
  destruct (completion (ensureTeamReviewRequests _ _ _ _ _)) as [[]|e]; done.
Qed.

(** The run from the evaluation on: what precedes the reports sets no
    output and does not throw. *)
Lemma run_evaluation_outputs (octokit : Octokit) (inputs : Inputs)
    (config : LabelConfig) (pr : PullRequest) :
  let extraction := extractDomainLabels config (default [] (pr_labels pr)) in
  let tail :=
    match domains extraction with
    | [] => report_no_labels octokit (head_sha pr)
    | _ =>
        let* allReviews := await pulls_listReviews (on_listReviews octokit) in
        let* evaluations :=
          evaluate octokit inputs config extraction
                   (approvedUsers (allReviewStates allReviews)) in
        report octokit inputs (head_sha pr) evaluations
    end in
  outputs (trace (run_evaluation octokit inputs config pr))
  = outputs (trace tail)
  ∧ completion (run_evaluation octokit inputs config pr) = completion tail.
Proof.
  intros extraction tail. unfold run_evaluation. fold extraction.
  destruct (refresh_requested_teams_normal octokit pr) as [teams Ht].
  rewrite trace_bind, completion_bind, Ht.
  rewrite trace_bind, completion_bind, ensure_caught_normal.
  rewrite !outputs_app.
  rewrite (silent_outputs _ (refresh_requested_teams_silent octokit pr)).
  rewrite silent_outputs.
  - done.
  - apply traced_try_catch; [apply ensureTeamReviewRequests_silent|].
    intros e. by apply traced_emit.
Qed.

Lemma report_no_labels_outputs (octokit : Octokit) (headSha : option jsstring) :
  outputs (trace (report_no_labels octokit headSha))
  = [("status", u16 "success"); ("required_labels", []);
     ("missing_approvals", [])]
  ∧ completion (report_no_labels octokit headSha) = Normal tt.
Proof.
  unfold report_no_labels.
  rewrite !trace_bind, !completion_bind. simpl.
  rewrite createCheckRun_normal. simpl.
  rewrite !outputs_app.
  by rewrite (silent_outputs _ (createCheckRun_silent _ _ _ _ _)).
Qed.

Lemma no_missing (evaluations : list EvaluatedDomain) :
  domainKey <$> filter (λ e, satisfied e = false) evaluations = []
  ↔ Forall (λ e, satisfied e = true) evaluations.
Proof.
  induction evaluations as [|e evs IH].
  - split; [constructor|done].
  - rewrite filter_cons, Forall_cons. destruct (satisfied e) eqn:He.
    + rewrite decide_False by done. rewrite IH. tauto.
    + rewrite decide_True by done. rewrite fmap_cons. split; [done|]. by intros [? _].
Qed.

Lemma report_outputs (octokit : Octokit) (inputs : Inputs)
    (headSha : option jsstring) (evaluations : list EvaluatedDomain) :
  outputs (trace (report octokit inputs headSha evaluations))
  = [("status",
      if decide (Forall (λ e, satisfied e = true) evaluations)
      then u16 "success" else u16 "failure");
     ("required_labels", join (u16 ",") (domainKey <$> evaluations));
     ("missing_approvals",
      join (u16 ",")
           (domainKey <$> filter (λ e, satisfied e = false) evaluations))]
  ∧ completion (report octokit inputs headSha evaluations) = Normal tt.
Proof.
  unfold report.
  rewrite !trace_bind, !completion_bind.
  rewrite createCheckRun_normal. cbn [emit completion trace snd fst].
  rewrite !outputs_app.
  rewrite (silent_outputs _ (createCheckRun_silent _ _ _ _ _)).
  case_bool_decide as Hm; case_decide as Hf.
  - done.
  - by apply no_missing in Hm.
  - by apply no_missing in Hf.
  - done.
Qed.

Lemma run_outputs (octokit : Octokit) (inputs : Inputs) (context : Context)
    (pr : PullRequest) (config : LabelConfig) :
  reaches_evaluation octokit inputs context pr config →
  outputs (trace (run octokit inputs context))
  = outputs (trace (run_evaluation octokit inputs config pr)).
Proof.
  intros H. rewrite (run_reaches _ _ _ _ _ H).
  change (repos_getContent :: ?t) with ([repos_getContent] ++ t).
  rewrite !outputs_app.
  rewrite (silent_outputs _ (maybeRetractOnUnlabeled_silent _ _ _ _)).
  destruct (completion (run_evaluation octokit inputs config pr)); simpl.
  - by rewrite app_nil_r.
  - by rewrite app_nil_r.
Qed.

(** C2: for every run that reaches evaluation, the outputs are these and no
    others.  When no domain key matches, [status] is success and
    [required_labels] and [missing_approvals] are empty.  Otherwise, once the
    reviews are listed and the loop returns its records, [status] is success
    if every record is satisfied and failure if not, [required_labels] joins
    the keys of the records, and [missing_approvals] joins the keys of the
    unsatisfied records. *)
Theorem run_status (octokit : Octokit) (inputs : Inputs) (context : Context)
    (pr : PullRequest) (config : LabelConfig) :
  reaches_evaluation octokit inputs context pr config →
  let extraction := extractDomainLabels config (default [] (pr_labels pr)) in
  let outs := outputs (trace (run octokit inputs context)) in
  (domains extraction = [] →
   outs = [("status", u16 "success"); ("required_labels", []);
           ("missing_approvals", [])])
  ∧ ∀ reviews evaluations,
      domains extraction ≠ [] →
      on_listReviews octokit = Resolved reviews →
      completion (evaluate octokit inputs config extraction
                           (approvedUsers (allReviewStates reviews)))
      = Normal evaluations →
      outs = [("status",
               if decide (Forall (λ e, satisfied e = true) evaluations)
               then u16 "success" else u16 "failure");
              ("required_labels",
               join (u16 ",") (domainKey <$> evaluations));
              ("missing_approvals",
               join (u16 ",")
                    (domainKey
                       <$> filter (λ e, satisfied e = false) evaluations))].
Proof.
  intros H extraction outs. unfold outs. rewrite (run_outputs _ _ _ _ _ H).
  destruct (run_evaluation_outputs octokit inputs config pr) as [-> _].
  fold extraction. split.
  - intros ->. apply report_no_labels_outputs.
  - intros reviews evaluations Hne Hrev Hev.
    destruct (domains extraction) as [|d ds] eqn:Hd; [done|].
    rewrite trace_bind. unfold await at 1 2. rewrite Hrev.
    cbn [emit ret bind trace completion fst snd app].
    change (outputs (pulls_listReviews :: ?t)) with (outputs t).
    rewrite trace_bind, Hev, outputs_app.
    rewrite (silent_outputs _ (evaluate_silent _ _ _ _ _)).
    apply report_outputs.
Qed.

(** Scenario A of the specification: failure, with billing missing. *)
Lemma run_status_witness :
  let context := event "labeled" "billing" scenario_pr in
  reaches_evaluation scenario_octokit plain_inputs context scenario_pr
                     scenario_config
  ∧ outputs (trace (run scenario_octokit plain_inputs context))
    = [("status", u16 "failure");
       ("required_labels", u16 "frontend,billing");
       ("missing_approvals", u16 "billing")].
Proof.
  intros context.
  assert (Hreach : reaches_evaluation scenario_octokit plain_inputs context
                     scenario_pr scenario_config)
    by (repeat split; vm_compute; reflexivity).
  split; [exact Hreach|].
  destruct (run_status scenario_octokit plain_inputs context scenario_pr
              scenario_config Hreach) as [_ Hout].
  rewrite (Hout scenario_reviews scenario_evaluations);
    [| vm_compute; discriminate | reflexivity | vm_compute; reflexivity ].
  vm_compute. reflexivity.
Defined.

(* ===================================================================== *)
(** ** Drafts *)
(* ===================================================================== *)

Lemma run_body_loaded (octokit : Octokit) (inputs : Inputs) (context : Context)
    (pr : PullRequest) (config : LabelConfig) :
  truthy_string (token inputs) = true →
  pull_request context = Some pr →
  truthy_string (default [] (head_sha pr)) = true →
  completion (loadConfig octokit inputs) = Normal (Some config) →
  run_body octokit inputs context =
  (repos_getContent :: trace (run_with_config octokit inputs context config pr),
   completion (run_with_config octokit inputs context config pr)).
Proof.
  intros Htok Hpr Hsha Hload.
  destruct (loadConfig_loaded _ _ _ Hload) as [Htl _].
  unfold run_body. rewrite Htok, Hpr. cbn [negb].
  destruct (head_sha pr) as [[|c sha]|] eqn:Hh; try done.
  rewrite (M_eta (loadConfig octokit inputs)), Hload, Htl.
  cbn [bind try_catch ret app].
  by destruct (run_with_config octokit inputs context config pr).
Qed.

Lemma createCheckRun_trace (octokit : Octokit) (headSha : option jsstring)
    (conclusion : Conclusion) (summary : Title) (text : Message) :
  truthy_string (default [] headSha) = true →
  trace (createCheckRun octokit headSha conclusion summary text) =
  checks_create conclusion summary text
    :: match on_checks_create octokit with
       | Resolved _ => []
       | Rejected _ => [warning UnableToCreateCheckRun]
       end.
Proof.
  intros H. unfold createCheckRun, await.
  destruct headSha as [[|c s]|]; try done.
  by destruct (on_checks_create octokit) as [[]|].
Qed.

(** The run of a draft that is skipped: the effects of the retraction come
    after the configuration is read and before the draft is reported. *)
Lemma run_draft_trace (octokit : Octokit) (inputs : Inputs)
    (context : Context) (pr : PullRequest) (config : LabelConfig) :
  truthy_string (token inputs) = true →
  pull_request context = Some pr →
  truthy_string (default [] (head_sha pr)) = true →
  completion (loadConfig octokit inputs) = Normal (Some config) →
  ignoreDraft config = Some true →
  draft pr = true →
  trace (run octokit inputs context) =
    [repos_getContent]
    ++ trace (maybeRetractOnUnlabeled octokit config inputs context)
    ++ [info DraftSkipped; checks_create skipped DraftPRTitle DraftSkipped]
    ++ match on_checks_create octokit with
       | Resolved _ => []
       | Rejected _ => [warning UnableToCreateCheckRun]
       end
    ++ [setOutput "status" (u16 "skipped")].
Proof.
  intros Htok Hpr Hsha Hload Hignore Hdraft.
  unfold run. rewrite trace_try_catch.
  rewrite (run_body_loaded _ _ _ _ _ Htok Hpr Hsha Hload).
  cbn [trace completion fst snd]. unfold run_with_config.
  rewrite Hignore, Hdraft.
  change (default false (Some true) && true) with true. cbn iota.
  rewrite trace_bind, completion_bind, maybeRetractOnUnlabeled_normal.
  rewrite trace_bind, !completion_bind. cbn [emit trace completion fst snd].
  rewrite trace_bind, createCheckRun_normal. cbn [emit trace completion fst snd].
  rewrite (createCheckRun_trace _ _ _ _ _ Hsha).
  cbn [app]. f_equal. rewrite <- !app_assoc. f_equal. cbn [app].
  by rewrite app_nil_r.
Qed.

(** The retraction is performed on an [unlabeled] event whose label is a
    non-empty key of the configured labels with a non-empty team. *)
Lemma maybeRetractOnUnlabeled_performed (octokit : Octokit)
    (config : LabelConfig) (inputs : Inputs) (context : Context)
    (name teamSlug : jsstring) :
  retractOnUnlabeled config = Some true →
  eventName context = u16 "pull_request"
    ∨ eventName context = u16 "pull_request_target" →
  action context = Some (u16 "unlabeled") →
  label_name context = Some name →
  name ≠ [] →
  labels config !! name = Some teamSlug →
  truthy_string teamSlug = true →
  trace (maybeRetractOnUnlabeled octokit config inputs context) =
  if dryRun inputs then [info (WouldRemoveTeam (Own teamSlug))]
  else [pulls_removeRequestedReviewers [Own teamSlug];
        match on_removeRequestedReviewers octokit [Own teamSlug] with
        | Resolved _ => info (RemovedTeam (Own teamSlug) name)
        | Rejected _ => warning (FailedToRemoveTeam (Own teamSlug))
        end].
Proof.
  intros Hretract Hevent Haction Hlabel Hname Hteam Htruthy.
  unfold maybeRetractOnUnlabeled.
  rewrite Hretract, Haction, Hlabel. cbn [default negb].
  rewrite (bool_decide_eq_true_2 (Some _ = Some _)) by done. cbn [negb].
  assert (Hev : negb (bool_decide (eventName context = u16 "pull_request"))
                && negb (bool_decide
                           (eventName context = u16 "pull_request_target"))
                = false).
  { destruct Hevent as [He|He]; rewrite He; by vm_compute. }
  rewrite Hev. destruct name as [|c name]; [done|].
  unfold has_in. rewrite (get_own _ _ _ Hteam).
  rewrite (bool_decide_eq_true_2 (is_Some _)) by (by rewrite Hteam).
  cbn [orb negb truthy_slug]. rewrite Htruthy. cbn [negb].
  destruct (dryRun inputs); [done|].
  unfold await. by destruct (on_removeRequestedReviewers octokit _).
Qed.

(** C10: the retract operation runs before the draft check.  In every run
    that loads a configuration with [ignoreDraft] for a draft pull request,
    the effects of the retraction follow the read of the configuration and
    precede the report of the draft, and the one output is the status
    skipped: no review and no member is listed.  On an [unlabeled] event
    whose label is a non-empty configured key, with [retractOnUnlabeled],
    the retraction is the removal of the mapped team, or its dry-run
    trace. *)
Theorem retract_precedes_draft_check (octokit : Octokit) (inputs : Inputs)
    (context : Context) (pr : PullRequest) (config : LabelConfig) :
  truthy_string (token inputs) = true →
  pull_request context = Some pr →
  truthy_string (default [] (head_sha pr)) = true →
  completion (loadConfig octokit inputs) = Normal (Some config) →
  ignoreDraft config = Some true →
  draft pr = true →
  let retract := maybeRetractOnUnlabeled octokit config inputs context in
  trace (run octokit inputs context) =
    [repos_getContent]
    ++ trace retract
    ++ [info DraftSkipped; checks_create skipped DraftPRTitle DraftSkipped]
    ++ match on_checks_create octokit with
       | Resolved _ => []
       | Rejected _ => [warning UnableToCreateCheckRun]
       end
    ++ [setOutput "status" (u16 "skipped")]
  ∧ outputs (trace (run octokit inputs context)) = [("status", u16 "skipped")]
  ∧ ∀ name teamSlug,
      retractOnUnlabeled config = Some true →
      eventName context = u16 "pull_request"
        ∨ eventName context = u16 "pull_request_target" →
      action context = Some (u16 "unlabeled") →
      label_name context = Some name →
      name ≠ [] →
      labels config !! name = Some teamSlug →
      trace retract =
      if dryRun inputs then [info (WouldRemoveTeam (Own teamSlug))]
      else [pulls_removeRequestedReviewers [Own teamSlug];
            match on_removeRequestedReviewers octokit [Own teamSlug] with
            | Resolved _ => info (RemovedTeam (Own teamSlug) name)
            | Rejected _ => warning (FailedToRemoveTeam (Own teamSlug))
            end].
Proof.
  intros Htok Hpr Hsha Hload Hignore Hdraft retract.
  pose proof (run_draft_trace octokit inputs context pr config Htok Hpr Hsha
                Hload Hignore Hdraft) as Hrun.
  fold retract in Hrun. split_and!.
  - exact Hrun.
  - rewrite Hrun, !outputs_app.
    unfold retract.
    rewrite (silent_outputs _ (maybeRetractOnUnlabeled_silent _ _ _ _)).
    by destruct (on_checks_create octokit).
  - intros name teamSlug Hretract Hevent Haction Hlabel Hname Hteam.
    destruct (loadConfig_loaded _ _ _ Hload) as [_ [raw Hraw]].
    destruct (validated_labels raw config Hraw) as [Hslugs _].
    destruct (Hslugs name teamSlug Hteam) as [Htruthy _].
    by apply maybeRetractOnUnlabeled_performed.
Qed.

(** The label [frontend] removed from a draft: the whole trace of the run. *)
Lemma retract_precedes_draft_check_witness :
  (draft (pull_request_of true []) = true
   ∧ ignoreDraft web_config = Some true
   ∧ labels web_config !! u16 "frontend" = Some (u16 "web-platform"))
  ∧ trace (run (agreeable web_document [] (λ _, Resolved [])) plain_inputs
               (event "unlabeled" "frontend" (pull_request_of true [])))
    = [repos_getContent;
       pulls_removeRequestedReviewers [Own (u16 "web-platform")];
       info (RemovedTeam (Own (u16 "web-platform")) (u16 "frontend"));
       info DraftSkipped;
       checks_create skipped DraftPRTitle DraftSkipped;
       setOutput "status" (u16 "skipped")].
Proof.
  split; [repeat split; vm_compute; reflexivity|].
  destruct (retract_precedes_draft_check
              (agreeable web_document [] (λ _, Resolved [])) plain_inputs
              (event "unlabeled" "frontend" (pull_request_of true []))
              (pull_request_of true []) web_config)
    as (Hrun & _ & Hretract);
    [reflexivity | reflexivity | reflexivity | vm_compute; reflexivity
    | reflexivity | reflexivity |].
  rewrite Hrun.
  rewrite (Hretract (u16 "frontend") (u16 "web-platform"));
    [ reflexivity | reflexivity | right; reflexivity | reflexivity
    | reflexivity | discriminate | vm_compute; reflexivity ].
Defined.

(* ===================================================================== *)
(** ** Attempts to list members *)
(* ===================================================================== *)

Lemma attempts_none (slug : jsstring) (t : list effect) :
  Forall (no_attempt slug) t → attempts slug t = 0.
Proof.
  unfold attempts. induction 1 as [|e t He _ IH]; [done|].
  rewrite filter_cons, decide_False; [done|]. unfold no_attempt in He. by rewrite He.
Qed.

Lemma attempts_quiet {A} (slug : jsstring) (m : M A) :
  traced (no_attempt slug) m → attempts slug (trace m) = 0.
Proof. apply attempts_none. Qed.

Lemma attempts_bind {A B} (slug : jsstring) (m : M A) (k : A → M B) :
  attempts slug (trace (bind m k)) =
  attempts slug (trace m)
  + match completion m with
    | Normal a => attempts slug (trace (k a))
    | Throw _ => 0
    end.
Proof.
  rewrite trace_bind, attempts_app. by destruct (completion m).
Qed.

Lemma attempts_try_catch {A} (slug : jsstring) (m : M A) (h : Thrown → M A) :
  attempts slug (trace (try_catch m h)) =
  attempts slug (trace m)
  + match completion m with
    | Normal _ => 0
    | Throw e => attempts slug (trace (h e))
    end.
Proof.
  rewrite trace_try_catch, attempts_app. by destruct (completion m).
Qed.

Lemma loadConfig_quiet (slug : jsstring) (octokit : Octokit) (inputs : Inputs) :
  traced (no_attempt slug) (loadConfig octokit inputs).
Proof. unfold loadConfig. solve_quiet. Qed.

Lemma maybeRetractOnUnlabeled_quiet (slug : jsstring) (octokit : Octokit)
    (config : LabelConfig) (inputs : Inputs) (context : Context) :
  traced (no_attempt slug) (maybeRetractOnUnlabeled octokit config inputs context).
Proof. unfold maybeRetractOnUnlabeled. solve_quiet. Qed.

Lemma createCheckRun_quiet (slug : jsstring) (octokit : Octokit)
    (headSha : option jsstring) (conclusion : Conclusion) (summary : Title)
    (text : Message) :
  traced (no_attempt slug) (createCheckRun octokit headSha conclusion summary text).
Proof. unfold createCheckRun. solve_quiet. Qed.

Lemma ensureTeamReviewRequests_quiet (slug : jsstring) (octokit : Octokit)
    (config : LabelConfig) (ds : list jsstring) (existing : gset jsstring)
    (inputs : Inputs) :
  traced (no_attempt slug)
         (ensureTeamReviewRequests octokit config ds existing inputs).
Proof. unfold ensureTeamReviewRequests. solve_quiet. Qed.

Lemma refresh_requested_teams_quiet (slug : jsstring) (octokit : Octokit)
    (pr : PullRequest) :
  traced (no_attempt slug) (refresh_requested_teams octokit pr).
Proof. unfold refresh_requested_teams. solve_quiet. Qed.

Lemma report_no_labels_quiet (slug : jsstring) (octokit : Octokit)
    (headSha : option jsstring) :
  traced (no_attempt slug) (report_no_labels octokit headSha).
Proof.
  unfold report_no_labels.
  repeat first [ apply createCheckRun_quiet | traced_step ]; done.
Qed.

Lemma report_quiet (slug : jsstring) (octokit : Octokit) (inputs : Inputs)
    (headSha : option jsstring) (evaluations : list EvaluatedDomain) :
  traced (no_attempt slug) (report octokit inputs headSha evaluations).
Proof.
  unfold report.
  repeat first [ apply createCheckRun_quiet | traced_step | case_match ]; done.
Qed.

Lemma run_evaluation_attempts (slug : jsstring) (octokit : Octokit)
    (inputs : Inputs) (raw : jsvalue) (config : LabelConfig) (pr : PullRequest) :
  validateConfig raw = inr config →
  attempts slug (trace (run_evaluation octokit inputs config pr)) ≤ 1.
Proof.
  intros Hraw. unfold run_evaluation.
  rewrite attempts_bind, (attempts_quiet _ _ (refresh_requested_teams_quiet _ _ _)).
  destruct (completion (refresh_requested_teams octokit pr)) as [teams|e]; [|lia].
  rewrite attempts_bind, attempts_quiet.
  2: { apply traced_try_catch; [apply ensureTeamReviewRequests_quiet|].
       intros e. by apply traced_emit. }
  destruct (completion (try_catch _ _)) as [[]|e]; [|lia].
  destruct (domains _) as [|d ds] eqn:Hd.
  - rewrite (attempts_quiet _ _ (report_no_labels_quiet _ _ _)). lia.
  - rewrite attempts_bind, attempts_quiet by (by apply traced_await).
    destruct (completion (await _ _)) as [reviews|e]; [|lia].
    rewrite attempts_bind.
    destruct (evaluate_validated octokit inputs raw config
                (default [] (pr_labels pr))
                (approvedUsers (allReviewStates reviews)) Hraw) as [Hat _].
    cbn zeta in Hat. specialize (Hat slug).
    destruct (completion (evaluate _ _ _ _ _)) as [evs|e]; [|lia].
    rewrite (attempts_quiet _ _ (report_quiet _ _ _ _ _)). lia.
Qed.

Lemma attempts_bind_le {A B} (slug : jsstring) (m : M A) (k : A → M B)
    (n : nat) :
  attempts slug (trace m) = 0 →
  (∀ a, completion m = Normal a → attempts slug (trace (k a)) ≤ n) →
  attempts slug (trace (bind m k)) ≤ n.
Proof.
  intros Hm Hk. rewrite attempts_bind, Hm.
  destruct (completion m) as [a|e]; [|lia]. by apply Hk.
Qed.

Lemma run_with_config_attempts (slug : jsstring) (octokit : Octokit)
    (inputs : Inputs) (context : Context) (raw : jsvalue)
    (config : LabelConfig) (pr : PullRequest) :
  validateConfig raw = inr config →
  attempts slug (trace (run_with_config octokit inputs context config pr)) ≤ 1.
Proof.
  intros Hraw. unfold run_with_config. apply attempts_bind_le.
  - apply attempts_quiet, maybeRetractOnUnlabeled_quiet.
  - intros _ _. destruct (default false (ignoreDraft config) && draft pr).
    + rewrite attempts_quiet; [lia|].
      repeat first [ apply createCheckRun_quiet | traced_step ]; done.
    + by eapply run_evaluation_attempts.
Qed.

Lemma run_attempts (slug : jsstring) (octokit : Octokit) (inputs : Inputs)
    (context : Context) :
  attempts slug (trace (run octokit inputs context)) ≤ 1.
Proof.
  unfold run. rewrite attempts_try_catch.
  assert (Hbody : attempts slug (trace (run_body octokit inputs context)) ≤ 1).
  { unfold run_body.
    destruct (negb (truthy_string (token inputs)));
      [rewrite attempts_quiet by solve_quiet; lia|].
    destruct (pull_request context) as [pr|];
      [|rewrite attempts_quiet by solve_quiet; lia].
    destruct (head_sha pr) as [[|c sha]|];
      [rewrite attempts_quiet by solve_quiet; lia|
      |rewrite attempts_quiet by solve_quiet; lia].
    apply attempts_bind_le.
    - apply attempts_quiet. apply traced_try_catch.
      + apply traced_bind; [apply loadConfig_quiet|intros; apply traced_ret].
      + intros e. solve_quiet.
    - intros loaded Hl. rewrite completion_try_catch, completion_bind in Hl.
      destruct loaded as [[config|]|].
      + destruct (completion (loadConfig octokit inputs)) as [cfg|e] eqn:Hload.
        * injection Hl as [= ->].
          destruct (loadConfig_loaded _ _ _ Hload) as [_ [raw Hraw]].
          by eapply run_with_config_attempts.
        * done.
      + rewrite attempts_quiet; [lia|].
        repeat first [ apply createCheckRun_quiet | traced_step ]; done.
      + rewrite attempts_quiet by solve_quiet. lia. }
  destruct (completion (run_body octokit inputs context)); [lia|].
  rewrite (attempts_quiet _ (emit _)) by solve_quiet. lia.
Qed.

Lemma filter_no_members (members : gset jsstring) (l : list jsstring) :
  members = ∅ → filter (λ user, user ∈ members) l = [].
Proof.
  intros ->. induction l as [|u us IH]; [done|]. rewrite filter_cons.
  destruct (decide _) as [Hin|_]; [|exact IH].
  by apply not_elem_of_empty in Hin.
Qed.

(** C6: for every team slug, a slug the cache holds is answered from the
    cache with no request.  The first call for a slug that is not the name
    of a member of [Object.prototype] sends one listing request, returns the
    logins listed and caches them, so that the next call is answered from the
    cache; when the listing fails, for whatever status, the call returns
    normally: it logs a warning, caches the empty set and returns it.  (For
    the name of a member of [Object.prototype] the test of the cache finds
    that member, and no request is sent at all.)  A run therefore lists the
    members of a slug at most once, however many domains map to it, and a
    loop that returns lists each such team of its domains exactly once; a
    record of a team whose listing fails has no approver and is unsatisfied
    for every required count of at least 1. *)
Theorem team_membership_resolution (octokit : Octokit) (slug : jsstring) :
  (∀ (cache : TeamMembersCache) (members : gset jsstring) (dbg : bool),
     cache !! slug = Some members →
     fetchTeamMembers octokit slug cache dbg = ret (Own members, cache))
  ∧ (∀ (cache : TeamMembersCache) (dbg : bool),
       cache !! slug = None → slug ∉ Object_prototype_keys →
       let answer := on_listMembersInOrg octokit slug in
       let members :=
         match answer with
         | Resolved listed => member_logins listed
         | Rejected _ => ∅
         end in
       fetchTeamMembers octokit slug cache dbg
       = (teams_listMembersInOrg slug
            :: match answer with
               | Resolved _ =>
                   if dbg then [info (DebugFetched (size members) slug)] else []
               | Rejected _ => [warning (CouldNotListMembers slug)]
               end,
          Normal (Own members, <[slug := members]> cache))
       ∧ ∀ dbg', fetchTeamMembers octokit slug (<[slug := members]> cache) dbg'
                 = ret (Own members, <[slug := members]> cache))
  ∧ (∀ (cache : TeamMembersCache) (dbg : bool),
       cache !! slug = None → slug ∈ Object_prototype_keys →
       fetchTeamMembers octokit slug cache dbg = ret (Inherited slug, cache))
  ∧ (∀ inputs context,
       attempts slug (trace (run octokit inputs context)) ≤ 1)
  ∧ (∀ inputs raw config prLabels approved evaluations d,
       validateConfig raw = inr config →
       completion (evaluate octokit inputs config
                            (extractDomainLabels config prLabels) approved)
       = Normal evaluations →
       d ∈ domains (extractDomainLabels config prLabels) →
       labels config !! d = Some slug →
       slug ∉ Object_prototype_keys →
       attempts slug (trace (evaluate octokit inputs config
                               (extractDomainLabels config prLabels) approved))
       = 1)
  ∧ (∀ status inputs raw config prLabels approved evaluations e,
       on_listMembersInOrg octokit slug = Rejected status →
       validateConfig raw = inr config →
       completion (evaluate octokit inputs config
                            (extractDomainLabels config prLabels) approved)
       = Normal evaluations →
       e ∈ evaluations → teamSlug e = slug →
       approvers e = [] ∧ approvals e = 0
       ∧ ∀ z, required e = num_of_Z z → (1 ≤ z)%Z → satisfied e = false).
Proof.
  split_and!.
  - intros cache members dbg. apply fetchTeamMembers_cached.
  - intros cache dbg Hc Hp answer members.
    assert (Hm : members = resolved_members octokit slug) by done.
    split.
    + rewrite (fetchTeamMembers_first _ _ _ _ Hc Hp), Hm.
      unfold answer, resolved_members.
      by destruct (on_listMembersInOrg octokit slug).
    + intros dbg'. apply fetchTeamMembers_cached, lookup_insert_eq.
  - intros cache dbg. apply fetchTeamMembers_inherited.
  - intros inputs context. apply run_attempts.
  - intros inputs raw config prLabels approved evaluations d Hraw Hev Hd Hl Hp.
    unfold evaluate in *.
    destruct (for_of _ (∅, []) (domains (extractDomainLabels config prLabels)))
      as [t [st|err]] eqn:Hrun; [|done].
    unfold bind, trace. simpl. rewrite app_nil_r.
    eapply (evaluate_loop_lists octokit inputs config _ approved _ ∅ []);
      [| |exact Hrun|apply lookup_empty|exact Hp|].
    + intros s members Hs. by rewrite lookup_empty in Hs.
    + by eapply validated_domains_ok.
    + exists d. split; [done|]. unfold slug_of. by rewrite Hl.
  - intros status inputs raw config prLabels approved evaluations e Hrej Hraw
      Hev He Hslug.
    destruct (evaluate_validated octokit inputs raw config prLabels approved Hraw)
      as [_ Hc]. cbn zeta in Hc. rewrite Hev in Hc. subst evaluations.
    apply list_elem_of_fmap in He as (d & -> & _).
    unfold evaluation_of in *. cbn [teamSlug approvers approvals required satisfied] in *.
    rewrite Hslug. unfold resolved_members. rewrite Hrej.
    rewrite (filter_no_members ∅ approved eq_refl). split; [done|]. split; [done|].
    intros z -> Hz. apply not_true_is_false. rewrite js_ge_integers.
    simpl. lia.
Qed.

(** Scenario E: the first call for finance-eng, whose members cannot be
    listed, and the call after it. *)
Lemma team_membership_resolution_witness :
  let octokit :=
    agreeable scenario_document scenario_reviews unlistable_members in
  let slug := u16 "finance-eng" in
  let cached : TeamMembersCache := <[slug := ∅]> ∅ in
  on_listMembersInOrg octokit slug = Rejected (Some 403%Z)
  ∧ fetchTeamMembers octokit slug ∅ false
    = ([teams_listMembersInOrg slug; warning (CouldNotListMembers slug)],
       Normal (Own ∅, cached))
  ∧ fetchTeamMembers octokit slug cached false = ret (Own ∅, cached).
Proof.
  intros octokit slug cached. split; [reflexivity|].
  destruct (team_membership_resolution octokit slug) as (_ & Hfirst & _).
  assert (Hp : slug ∉ Object_prototype_keys).
  { apply (bool_decide_unpack _). by vm_compute. }
  destruct (Hfirst ∅ false (lookup_empty slug) Hp) as [Hcall Hnext].
  split; [exact Hcall|exact (Hnext false)].
Defined.

(** ** Requests *)

Lemma toRequest_snoc (config : LabelConfig) (ds : list jsstring) (d : jsstring)
    (existing : gset jsstring) :
  toRequest config (ds ++ [d]) existing =
  toRequest config ds existing ++
    match get (labels config) d with
    | Some team =>
        if negb (truthy_slug (Some team)) then []
        else if requested existing team then [] else [team]
    | None => []
    end.
Proof.
  unfold toRequest. rewrite foldl_snoc.
  destruct (get (labels config) d) as [team|]; [|by rewrite app_nil_r].
  destruct (negb (truthy_slug (Some team))); [by rewrite app_nil_r|].
  destruct (requested existing team); by rewrite ?app_nil_r.
Qed.

Lemma toRequest_elem (config : LabelConfig) (ds : list jsstring)
    (existing : gset jsstring) (team : prop jsstring) :
  team ∈ toRequest config ds existing ↔
  ∃ d, d ∈ ds ∧ get (labels config) d = Some team
       ∧ truthy_slug (Some team) = true ∧ requested existing team = false.
Proof.
  induction ds as [|d ds IH] using rev_ind.
  - split; [by intros ?%elem_of_nil|]. by intros (? & ?%elem_of_nil & _).
  - rewrite toRequest_snoc, elem_of_app, IH. setoid_rewrite elem_of_app.
    setoid_rewrite list_elem_of_singleton. split.
    + intros [(d' & ? & ?)|Hin]; [by eauto|]. exists d. split; [by right|].
      destruct (get (labels config) d) as [team'|]; [|by apply elem_of_nil in Hin].
      destruct (truthy_slug (Some team')) eqn:Ht; simpl in Hin;
        [|by apply elem_of_nil in Hin].
      destruct (requested existing team') eqn:Hr; [by apply elem_of_nil in Hin|].
      apply list_elem_of_singleton in Hin as ->. done.
    + intros (d' & [Hin| ->] & Hg & Ht & Hr); [left; by eauto|right].
      rewrite Hg, Ht, Hr. simpl. by apply list_elem_of_singleton.
Qed.

Lemma for_of_ext {S A} (f g : S → A → M S) :
  (∀ st x, f st x = g st x) → ∀ xs st, for_of f st xs = for_of g st xs.
Proof.
  intros H xs. induction xs as [|x xs IH]; intros st; simpl; [done|].
  rewrite H. destruct (g st x) as [t [st'|e]]; simpl; [|done]. by rewrite IH.
Qed.

Lemma evaluate_ext (o1 o2 : Octokit) (inputs : Inputs) (config : LabelConfig)
    (extraction : DomainExtractionResult) (approved : list jsstring) :
  (∀ slug, on_listMembersInOrg o1 slug = on_listMembersInOrg o2 slug) →
  evaluate o1 inputs config extraction approved
  = evaluate o2 inputs config extraction approved.
Proof.
  intros H. unfold evaluate. f_equal. apply for_of_ext.
  intros [cache evs] d. unfold evaluate_domain.
  assert (Hf : ∀ slug c dbg, fetchTeamMembers o1 slug c dbg
                             = fetchTeamMembers o2 slug c dbg).
  { intros slug c dbg. unfold fetchTeamMembers. by rewrite H. }
  destruct (get (labels config) d) as [[[|c s]|k]|]; try done.
  destruct (Map_get _ _) as [[|c' l]|]; try done.
  by rewrite Hf.
Qed.

Lemma toRequest_validated (raw : jsvalue) (config : LabelConfig)
    (prLabels : list (option jsstring)) (existing : gset jsstring)
    (team : prop jsstring) :
  validateConfig raw = inr config →
  team ∈ toRequest config (domains (extractDomainLabels config prLabels)) existing
  ↔ ∃ d slug, d ∈ domains (extractDomainLabels config prLabels)
              ∧ labels config !! d = Some slug
              ∧ team = Own slug ∧ slug ∉ existing.
Proof.
  intros Hraw. rewrite toRequest_elem.
  pose proof (validated_domains_ok raw config prLabels Hraw) as Hok.
  rewrite Forall_forall in Hok. split.
  - intros (d & Hd & Hg & _ & Hr). destruct (Hok d Hd) as (slug & Hl & _).
    rewrite (get_own _ _ _ Hl) in Hg. injection Hg as <-.
    exists d, slug. repeat split; [done..|].
    simpl in Hr. by apply bool_decide_eq_false in Hr.
  - intros (d & slug & Hd & Hl & -> & Hn). exists d.
    destruct (Hok d Hd) as (slug' & Hl' & Hs & _).
    rewrite Hl in Hl'. injection Hl' as <-.
    split; [done|]. split; [by apply get_own|]. split.
    + by destruct slug.
    + simpl. by apply bool_decide_eq_false.
Qed.

Lemma ensureTeamReviewRequests_trace (octokit : Octokit) (config : LabelConfig)
    (ds : list jsstring) (existing : gset jsstring) (inputs : Inputs) :
  trace (ensureTeamReviewRequests octokit config ds existing inputs) =
  match toRequest config ds existing with
  | [] => []
  | teams =>
      if dryRun inputs then [info (WouldRequestTeams teams)]
      else pulls_requestReviewers teams
             :: match on_requestReviewers octokit teams with
                | Resolved _ => [info (RequestedTeams teams)]
                | Rejected status =>
                    if decide (status = Some 422%Z)
                    then [warning RequestsMayExist] else []
                end
  end.
Proof.
  unfold ensureTeamReviewRequests.
  destruct (toRequest config ds existing) as [|team teams]; [done|].
  destruct (dryRun inputs); [done|]. unfold await.
  destruct (on_requestReviewers octokit (team :: teams)) as [[]|status]; [done|].
  destruct status as [[|p|p]|]; try done.
  repeat (destruct p as [p|p|]; try done).
Qed.

(** C8: under a validated configuration the teams the ensure operation
    requests are exactly the slugs the matched domains map to, less the
    teams already requested, so a team already requested is never requested
    again; the operation issues at most one request for them, and under
    dry-run only an informational trace; once the requested set contains
    them the operation does nothing; and the evaluation is the same for
    every remote side with the same team memberships. *)
Theorem ensure_is_idempotent (octokit : Octokit) (inputs : Inputs)
    (raw : jsvalue) (config : LabelConfig) (prLabels : list (option jsstring))
    (existing : gset jsstring) :
  validateConfig raw = inr config →
  let extraction := extractDomainLabels config prLabels in
  let teams := toRequest config (domains extraction) existing in
  let ensure requested :=
    ensureTeamReviewRequests octokit config (domains extraction) requested
                             inputs in
  (∀ team, team ∈ teams ↔
           ∃ d slug, d ∈ domains extraction ∧ labels config !! d = Some slug
                     ∧ team = Own slug ∧ slug ∉ existing)
  ∧ (∀ slug, slug ∈ existing → Own slug ∉ teams)
  ∧ trace (ensure existing) =
      match teams with
      | [] => []
      | _ =>
          if dryRun inputs then [info (WouldRequestTeams teams)]
          else pulls_requestReviewers teams
                 :: match on_requestReviewers octokit teams with
                    | Resolved _ => [info (RequestedTeams teams)]
                    | Rejected status =>
                        if decide (status = Some 422%Z)
                        then [warning RequestsMayExist] else []
                    end
      end
  ∧ (∀ requested : gset jsstring,
       existing ⊆ requested →
       (∀ slug, Own slug ∈ teams → slug ∈ requested) →
       trace (ensure requested) = [])
  ∧ (∀ octokit' approved,
       (∀ slug, on_listMembersInOrg octokit' slug
                = on_listMembersInOrg octokit slug) →
       evaluate octokit' inputs config extraction approved
       = evaluate octokit inputs config extraction approved).
Proof.
  intros Hraw extraction teams ensure.
  pose proof (toRequest_validated raw config prLabels) as Hchar.
  split; [|split; [|split; [|split]]].
  - intros team. by apply Hchar.
  - intros slug Hin Hteam. apply (Hchar existing _ Hraw) in Hteam
      as (d & slug' & _ & _ & [= <-] & Hn). done.
  - unfold ensure. rewrite ensureTeamReviewRequests_trace. fold extraction teams.
    by destruct teams.
  - intros requested Hsub Hall. unfold ensure.
    rewrite ensureTeamReviewRequests_trace. fold extraction.
    destruct (toRequest config (domains extraction) requested) as [|team rest] eqn:Ht;
      [done|].
    exfalso. assert (Hin : team ∈ toRequest config (domains extraction) requested)
      by (rewrite Ht; left).
    apply (Hchar requested _ Hraw) in Hin as (d & slug & Hd & Hl & -> & Hn).
    apply Hn, Hall. apply (Hchar existing _ Hraw).
    exists d, slug. repeat split; [done..|]. intros Hin. apply Hn. by apply Hsub.
  - intros octokit' approved Hsame. by apply evaluate_ext.
Qed.

(** A team already requested is not requested; with both teams requested
    the operation does nothing. *)
Lemma ensure_is_idempotent_witness :
  validateConfig scenario_document = inr scenario_config
  ∧ (Own (u16 "web-platform")
       ∉ toRequest scenario_config
           (domains (extractDomainLabels scenario_config scenario_labels))
           {[ u16 "web-platform" ]})
  ∧ trace (ensureTeamReviewRequests scenario_octokit scenario_config
             (domains (extractDomainLabels scenario_config scenario_labels))
             {[ u16 "web-platform"; u16 "finance-eng" ]} plain_inputs) = [].
Proof.
  assert (Hvalid : validateConfig scenario_document = inr scenario_config)
    by (vm_compute; reflexivity).
  split; [exact Hvalid|].
  destruct (ensure_is_idempotent scenario_octokit plain_inputs
              scenario_document scenario_config scenario_labels
              {[ u16 "web-platform" ]} Hvalid)
    as (_ & Hnever & _ & Hagain & _).
  split.
  - apply Hnever. by apply elem_of_singleton.
  - apply Hagain.
    + apply union_subseteq_l.
    + intros slug Hin. vm_compute in Hin.
      apply list_elem_of_singleton in Hin. injection Hin as ->.
      apply elem_of_union_r. by apply elem_of_singleton.
Defined.

(* ===================================================================== *)
(** ** Scenarios of the specification *)
(* ===================================================================== *)

(** Scenario B: no configured label on the pull request. *)
Example scenario_no_configured_label :
  outputs (trace (run scenario_octokit plain_inputs
                      (event "opened" "" (pull_request_of false ["docs"]%string))))
  = [("status", u16 "success"); ("required_labels", []);
     ("missing_approvals", [])].
Proof. vm_compute. reflexivity. Qed.

(** Scenario C: a draft is skipped and no team is requested, labels or not. *)
Example scenario_draft :
  trace (run scenario_octokit plain_inputs
             (event "labeled" "billing"
                    (pull_request_of true ["frontend"; "billing"]%string)))
  = [repos_getContent; info DraftSkipped;
     checks_create skipped DraftPRTitle DraftSkipped;
     setOutput "status" (u16 "skipped")].
Proof. vm_compute. reflexivity. Qed.

(** Scenario D: under dry-run the request is traced, not sent, and the
    evaluation goes on. *)
Example scenario_dry_run :
  let inputs :=
    {| token := u16 "t"; configPath := u16 ".github/label-teams.yml";
       failOnMissingConfig := true; dryRun := true; debug := false;
       summaryMode := standard |} in
  let t := trace (run scenario_octokit inputs
                      (event "labeled" "billing" scenario_pr)) in
  take 3 t
  = [repos_getContent; pulls_get;
     info (WouldRequestTeams [Own (u16 "web-platform");
                              Own (u16 "finance-eng")])]
  ∧ outputs t
    = [("status", u16 "failure");
       ("required_labels", u16 "frontend,billing");
       ("missing_approvals", u16 "billing")].
Proof. split; vm_compute; reflexivity. Qed.

(** Scenario E: the members of finance-eng cannot be listed; a warning is
    logged, billing counts no approval and the status is failure. *)
Example scenario_unlistable_team :
  let octokit :=
    agreeable scenario_document scenario_reviews unlistable_members in
  let t := trace (run octokit plain_inputs
                      (event "labeled" "billing" scenario_pr)) in
  warning (CouldNotListMembers (u16 "finance-eng")) ∈ t
  ∧ outputs t
    = [("status", u16 "failure");
       ("required_labels", u16 "frontend,billing");
       ("missing_approvals", u16 "billing")].
Proof.
  split; [|vm_compute; reflexivity].
  vm_compute. do 7 right. left.
Qed.

(** Two domains of one team: its members are listed once. *)
Example shared_team_is_listed_once :
  let octokit :=
    agreeable shared_team_document scenario_reviews scenario_members in
  attempts (u16 "web-platform")
           (trace (run octokit plain_inputs
                       (event "labeled" "ui"
                              (pull_request_of false ["frontend"; "ui"]%string))))
  = 1.
Proof. vm_compute. reflexivity. Qed.

(* ===================================================================== *)
(** ** The inputs *)
(* ===================================================================== *)

Lemma lower_unit_ascii (c : N) : (lower_unit c < 128)%N ↔ (c < 128)%N.
Proof.
  unfold lower_unit.
  destruct (65 <=? c)%N eqn:H1; destruct (c <=? 90)%N eqn:H2; simpl; try done.
  apply N.leb_le in H1, H2. lia.
Qed.

Lemma truthy_words_latin (w : jsstring) :
  w ∈ truthy_words → Forall (λ c, (c < 128)%N ∧ c ≠ 107%N) w.
Proof.
  unfold truthy_words. intros Hw.
  repeat (apply elem_of_cons in Hw as [->|Hw];
          [vm_compute; repeat constructor; done|]).
  by apply elem_of_nil in Hw.
Qed.

Lemma lowered_ascii (s : jsstring) :
  Forall (λ c, (c < 128)%N) (lower_unit <$> s) → Forall (λ c, (c < 128)%N) s.
Proof.
  rewrite Forall_fmap. intros H. eapply Forall_impl; [exact H|].
  intros c. simpl. apply lower_unit_ascii.
Qed.

(** Whether the lower case of a text is one of the words is decided by its
    code units of Basic Latin. *)
Lemma lowered_word (toLowerCase : jsstring → jsstring) (s : jsstring) :
  lowers_basic_latin toLowerCase → only_kelvin_enters toLowerCase →
  toLowerCase s ∈ truthy_words ↔ lower_unit <$> s ∈ truthy_words.
Proof.
  intros Hbasic Hkelvin. split; intros Hw.
  - apply truthy_words_latin in Hw as Hl. apply Hkelvin in Hl.
    by rewrite <- (Hbasic s Hl).
  - apply truthy_words_latin in Hw as Hl.
    assert (Hs : Forall (λ c, (c < 128)%N) s).
    { apply lowered_ascii. eapply Forall_impl; [exact Hl|]. by intros c [? _]. }
    by rewrite (Hbasic s Hs).
Qed.

Lemma lower_latin_basic : lowers_basic_latin lower_latin.
Proof.
  intros s Hs. unfold lower_latin.
  induction Hs as [|c s Hc _ IH]; [done|]. rewrite !fmap_cons, IH. f_equal.
  destruct (c =? 8490)%N eqn:Hk; [|done]. apply N.eqb_eq in Hk. lia.
Qed.

Lemma lower_latin_kelvin : only_kelvin_enters lower_latin.
Proof.
  intros s. unfold lower_latin. rewrite Forall_fmap.
  intros H. eapply Forall_impl; [exact H|]. intros c. simpl.
  destruct (c =? 8490)%N eqn:Hk; [by intros [_ ?]|].
  intros [Hc _]. by apply lower_unit_ascii.
Qed.

(** X1: The boolean inputs.  An input that is not set takes the default.  An
    input that is set is true exactly when its text, trimmed and with A to Z
    lowered, is one of [1], [true], [yes], [on]; whatever else it says, blank
    text included, it is false, so the default plays no part.  Of the lower
    case of the engine two facts are used: on Basic Latin it lowers A to Z
    unit by unit, and outside Basic Latin only the Kelvin sign has its lower
    case in it. *)
Theorem getBooleanInput_spec (toLowerCase : jsstring → jsstring) (env : Env)
    (name : string) (defaultValue : bool) :
  lowers_basic_latin toLowerCase → only_kelvin_enters toLowerCase →
  let raw := getInput env name in
  let result := getBooleanInput toLowerCase env name defaultValue in
  (raw = [] → result = defaultValue)
  ∧ (raw ≠ [] →
     (result = true ↔ lower_unit <$> trim raw ∈ truthy_words)
     ∧ result = getBooleanInput toLowerCase env name (negb defaultValue)
     ∧ (trim raw = [] → result = false)).
Proof.
  intros Hbasic Hkelvin raw result. unfold result, getBooleanInput. fold raw.
  split.
  - by intros ->.
  - intros Hraw. destruct raw as [|c raw'] eqn:Hr; [done|].
    cbn [truthy_string negb]. split_and!.
    + by rewrite bool_decide_eq_true, (lowered_word _ _ Hbasic Hkelvin).
    + done.
    + intros Ht. apply bool_decide_eq_false.
      rewrite (lowered_word _ _ Hbasic Hkelvin), Ht. unfold truthy_words.
      intros Hw. repeat (apply elem_of_cons in Hw as [Hw|Hw]; [done|]).
      by apply elem_of_nil in Hw.
Qed.

(** An input that says "Yes". *)
Lemma getBooleanInput_spec_witness :
  getInput yes_env "dry-run" = u16 "Yes"
  ∧ getBooleanInput lower_latin yes_env "dry-run" false = true.
Proof.
  split; [reflexivity|].
  destruct (getBooleanInput_spec lower_latin yes_env "dry-run" false
              lower_latin_basic lower_latin_kelvin) as [_ H].
  destruct H as (H & _ & _); [done|]. apply H. vm_compute. do 2 right. left.
Defined.

(* ===================================================================== *)
(** ** The steps of a run *)
(* ===================================================================== *)

(** What loading the configuration does, by the answer to the read.  The read
    is made at the base branch the pull request of the event names;
    [on_getContent] is its answer. *)
Lemma loadConfig_eq (octokit : Octokit) (inputs : Inputs) :
  loadConfig octokit inputs =
  match on_getContent octokit with
  | Resolved (FileContent (Some raw)) =>
      match validateConfig raw with
      | inr config => ([repos_getContent], Normal (Some config))
      | inl e => ([repos_getContent], Throw (ConfigInvalid e))
      end
  | Resolved (FileContent None) => ([repos_getContent], Throw YamlError)
  | Resolved OtherContent =>
      ([repos_getContent; warning ConfigNotAFile], Normal None)
  | Rejected status =>
      if decide (status = Some 404%Z) then
        if failOnMissingConfig inputs
        then ([repos_getContent], Throw ConfigNotFound)
        else ([repos_getContent; warning ConfigNotFoundAt], Normal None)
      else ([repos_getContent], Throw (RequestError status))
  end.
Proof.
  unfold loadConfig, await.
  destruct (on_getContent octokit) as [[[raw|]|]|status]; simpl; try done.
  - by destruct (validateConfig raw).
  - destruct (decide (status = Some 404%Z)) as [->|Hne].
    + by destruct (failOnMissingConfig inputs).
    + destruct status as [[|p|p]|]; try done.
      repeat (destruct p as [p|p|]; try done).
Qed.

(** The run never throws: what its body throws is reported as a failure. *)
Lemma run_eq (octokit : Octokit) (inputs : Inputs) (context : Context) :
  run octokit inputs context =
  (trace (run_body octokit inputs context)
     ++ match completion (run_body octokit inputs context) with
        | Normal _ => []
        | Throw e => [setFailed (Unhandled e)]
        end,
   Normal tt).
Proof.
  unfold run, try_catch, trace, completion.
  destruct (run_body octokit inputs context) as [t [[]|e]]; simpl.
  - by rewrite app_nil_r.
  - done.
Qed.

(** The body of a run that has a token and a pull request with a head
    commit, by what loading the configuration gives. *)
Lemma run_body_eq (octokit : Octokit) (inputs : Inputs) (context : Context)
    (pr : PullRequest) :
  truthy_string (token inputs) = true →
  pull_request context = Some pr →
  truthy_string (default [] (head_sha pr)) = true →
  run_body octokit inputs context =
  match loadConfig octokit inputs with
  | (t, Throw e) => (t ++ [setFailed (FailedToLoadConfig e)], Normal tt)
  | (t, Normal None) =>
      (t ++ [info NoConfiguration; setOutput "status" (u16 "skipped")]
         ++ trace (createCheckRun octokit (head_sha pr) skipped NoConfigTitle
                                  ConfigMissingText),
       Normal tt)
  | (t, Normal (Some config)) =>
      (t ++ trace (run_with_config octokit inputs context config pr),
       completion (run_with_config octokit inputs context config pr))
  end.
Proof.
  intros Htok Hpr Hsha. unfold run_body. rewrite Htok, Hpr. cbn [negb].
  destruct (head_sha pr) as [[|c sha]|] eqn:Hh; try done.
  destruct (loadConfig octokit inputs) as [t [[config|]|e]].
  - cbn [bind try_catch ret app]. rewrite app_nil_r.
    by destruct (run_with_config octokit inputs context config pr).
  - cbn [bind try_catch ret app emit]. rewrite app_nil_r.
    pose proof (createCheckRun_normal octokit (Some (c :: sha)) skipped
                  NoConfigTitle ConfigMissingText) as Hn.
    destruct (createCheckRun _ _ _ _ _) as [t' r]. simpl in *. by rewrite Hn.
  - cbn [bind try_catch ret app emit]. by rewrite app_nil_r.
Qed.

(** A run with a token, a pull request and a head commit starts with the
    read of the configuration. *)
Lemma run_starts_with_read (octokit : Octokit) (inputs : Inputs)
    (context : Context) (pr : PullRequest) :
  truthy_string (token inputs) = true →
  pull_request context = Some pr →
  truthy_string (default [] (head_sha pr)) = true →
  ∃ t, trace (run octokit inputs context) = repos_getContent :: t.
Proof.
  intros Htok Hpr Hsha. rewrite run_eq. cbn [trace fst].
  rewrite (run_body_eq _ _ _ _ Htok Hpr Hsha).
  assert (Hl : ∃ t r, loadConfig octokit inputs = (repos_getContent :: t, r)).
  { rewrite loadConfig_eq. repeat case_match; by eexists _, _. }
  destruct Hl as (t & r & ->). destruct r as [[config|]|e]; by eexists.
Qed.

(** X2: The token.  The token input is taken when it is set, the environment's
    [GITHUB_TOKEN] otherwise; and the action stops with the failure "No
    GitHub token provided", before any request, exactly when both are empty,
    whatever the other inputs say. *)
Theorem token_sources (toLowerCase : jsstring → jsstring) (env : Env)
    (octokit : Octokit) (context : Context) :
  token (readInputs toLowerCase env)
  = (if truthy_string (getInput env "token") then getInput env "token"
     else default [] (GITHUB_TOKEN env))
  ∧ (trace (main toLowerCase env octokit context) = [setFailed NoToken]
     ↔ getInput env "token" = [] ∧ default [] (GITHUB_TOKEN env) = []).
Proof.
  split; [done|]. unfold main.
  set (inputs := readInputs toLowerCase env).
  assert (Htok : token inputs = [] ↔
                 getInput env "token" = [] ∧ default [] (GITHUB_TOKEN env) = []).
  { unfold inputs, readInputs. cbn [token].
    destruct (getInput env "token") as [|c s]; simpl; [naive_solver|].
    split; [done|]. by intros [? _]. }
  rewrite <- Htok. split.
  - intros Hrun. destruct (token inputs) as [|c s] eqn:Ht; [done|]. exfalso.
    destruct (pull_request context) as [pr|] eqn:Hpr.
    + destruct (truthy_string (default [] (head_sha pr))) eqn:Hsha.
      * destruct (run_starts_with_read octokit inputs context pr) as [t Hs];
          [by rewrite Ht|done|done|]. by rewrite Hs in Hrun.
      * rewrite run_eq in Hrun. unfold run_body in Hrun.
        rewrite Ht, Hpr in Hrun. cbn [truthy_string negb] in Hrun.
        by destruct (head_sha pr) as [[|c' sha]|].
    + rewrite run_eq in Hrun. unfold run_body in Hrun.
      rewrite Ht, Hpr in Hrun. done.
  - intros Ht. rewrite run_eq. unfold run_body. by rewrite Ht.
Qed.

(** Nothing set: the action stops for want of a token. *)
Lemma token_sources_witness :
  trace (main lower_latin unset_env scenario_octokit
              (event "labeled" "billing" scenario_pr))
  = [setFailed NoToken].
Proof.
  destruct (token_sources lower_latin unset_env scenario_octokit
              (event "labeled" "billing" scenario_pr)) as [_ H].
  apply H. split; reflexivity.
Defined.

(* ===================================================================== *)
(** ** The run, step by step *)
(* ===================================================================== *)

Lemma failures_app (t1 t2 : list effect) :
  failures (t1 ++ t2) = failures t1 ++ failures t2.
Proof. unfold failures. apply omap_app. Qed.

Lemma mute_outputs (t : list effect) : Forall mute t → outputs t = [].
Proof.
  induction 1 as [|e t He _ IH]; [done|]. unfold outputs in *. simpl.
  destruct e; try done.
Qed.

Lemma mute_failures (t : list effect) : Forall mute t → failures t = [].
Proof.
  induction 1 as [|e t He _ IH]; [done|]. unfold failures in *. simpl.
  destruct e; try done.
Qed.

Lemma loadConfig_mute (octokit : Octokit) (inputs : Inputs) :
  traced mute (loadConfig octokit inputs).
Proof. unfold loadConfig. solve_traced. Qed.

Lemma maybeRetractOnUnlabeled_mute (octokit : Octokit) (config : LabelConfig)
    (inputs : Inputs) (context : Context) :
  traced mute (maybeRetractOnUnlabeled octokit config inputs context).
Proof. unfold maybeRetractOnUnlabeled. solve_traced. Qed.

Lemma createCheckRun_mute (octokit : Octokit) (headSha : option jsstring)
    (conclusion : Conclusion) (summary : Title) (text : Message) :
  traced mute (createCheckRun octokit headSha conclusion summary text).
Proof. unfold createCheckRun. solve_traced. Qed.

Lemma refresh_requested_teams_mute (octokit : Octokit) (pr : PullRequest) :
  traced mute (refresh_requested_teams octokit pr).
Proof. unfold refresh_requested_teams. solve_traced. Qed.

Lemma ensure_logged_mute (octokit : Octokit) (inputs : Inputs)
    (config : LabelConfig) (pr : PullRequest)
    (teams : option (list (option jsstring))) :
  traced mute (ensure_logged octokit inputs config pr teams).
Proof. unfold ensure_logged, ensureTeamReviewRequests. solve_traced. Qed.

Lemma ensure_logged_normal (octokit : Octokit) (inputs : Inputs)
    (config : LabelConfig) (pr : PullRequest)
    (teams : option (list (option jsstring))) :
  completion (ensure_logged octokit inputs config pr teams) = Normal tt.
Proof. apply ensure_caught_normal. Qed.

(** The loop of the evaluation lists members and logs what it found; it does
    nothing else. *)
Lemma evaluate_traced (P : effect → Prop) (octokit : Octokit) (inputs : Inputs)
    (config : LabelConfig) (extraction : DomainExtractionResult)
    (approved : list jsstring) :
  (∀ slug, P (teams_listMembersInOrg slug)) →
  (∀ n slug, P (info (DebugFetched n slug))) →
  (∀ d, P (warning (NoMappedTeam d))) →
  (∀ d, P (warning (LabelNotFound d))) →
  (∀ slug, P (warning (CouldNotListMembers slug))) →
  traced P (evaluate octokit inputs config extraction approved).
Proof.
  intros Hl Hi Hw1 Hw2 Hw3. unfold evaluate.
  apply traced_bind; [|intros; apply traced_ret].
  apply for_of_traced. intros [cache evs] d.
  unfold evaluate_domain, fetchTeamMembers, collect_approvers.
  repeat first [ traced_step | case_match ]; try done.
Qed.

Lemma evaluate_mute (octokit : Octokit) (inputs : Inputs)
    (config : LabelConfig) (extraction : DomainExtractionResult)
    (approved : list jsstring) :
  traced mute (evaluate octokit inputs config extraction approved).
Proof. by apply evaluate_traced. Qed.

(** The run of a policy: the retraction, then the report of a draft or the
    evaluation. *)
Lemma run_with_config_eq (octokit : Octokit) (inputs : Inputs)
    (context : Context) (config : LabelConfig) (pr : PullRequest) :
  run_with_config octokit inputs context config pr =
  if default false (ignoreDraft config) && draft pr then
    (trace (maybeRetractOnUnlabeled octokit config inputs context)
       ++ [info DraftSkipped]
       ++ trace (createCheckRun octokit (head_sha pr) skipped DraftPRTitle
                                DraftSkipped)
       ++ [setOutput "status" (u16 "skipped")],
     Normal tt)
  else
    (trace (maybeRetractOnUnlabeled octokit config inputs context)
       ++ trace (run_evaluation octokit inputs config pr),
     completion (run_evaluation octokit inputs config pr)).
Proof.
  unfold run_with_config.
  pose proof (maybeRetractOnUnlabeled_normal octokit config inputs context) as Hn.
  destruct (maybeRetractOnUnlabeled octokit config inputs context) as [t r].
  simpl in Hn. subst r. cbn [bind trace fst].
  destruct (default false (ignoreDraft config) && draft pr).
  - pose proof (createCheckRun_normal octokit (head_sha pr) skipped
                  DraftPRTitle DraftSkipped) as Hc.
    destruct (createCheckRun _ _ _ _ _) as [t' r']. simpl in Hc. subst r'.
    by cbn [bind emit trace fst app].
  - by destruct (run_evaluation octokit inputs config pr).
Qed.

(** The evaluation: the requested teams are read, the missing teams are
    requested, and the rest follows whatever these two did. *)
Lemma run_evaluation_eq (octokit : Octokit) (inputs : Inputs)
    (config : LabelConfig) (pr : PullRequest) :
  let teams :=
    match on_pulls_get octokit with
    | Resolved teams => teams
    | Rejected _ => requested_teams pr
    end in
  run_evaluation octokit inputs config pr =
  (trace (refresh_requested_teams octokit pr)
     ++ trace (ensure_logged octokit inputs config pr teams)
     ++ trace (evaluation_tail octokit inputs config pr),
   completion (evaluation_tail octokit inputs config pr)).
Proof.
  intros teams.
  assert (Hr : completion (refresh_requested_teams octokit pr) = Normal teams).
  { unfold refresh_requested_teams, await, teams.
    by destruct (on_pulls_get octokit). }
  change (run_evaluation octokit inputs config pr)
    with (bind (refresh_requested_teams octokit pr)
               (λ teams, bind (ensure_logged octokit inputs config pr teams)
                              (λ _, evaluation_tail octokit inputs config pr))).
  rewrite (M_eta (bind _ _)), trace_bind, completion_bind, Hr.
  rewrite trace_bind, completion_bind, ensure_logged_normal. done.
Qed.

(** The report of the records: the check run, the three outputs and the
    final message. *)
Lemma report_eq (octokit : Octokit) (inputs : Inputs)
    (headSha : option jsstring) (evaluations : list EvaluatedDomain) :
  let anyFailure := negb (bool_decide (missing_keys evaluations = [])) in
  report octokit inputs headSha evaluations =
  (trace (createCheckRun octokit headSha
            (if anyFailure then failure else success)
            (SummaryTitle (if anyFailure then MissingApprovals else AllSatisfied))
            (FormattedEvaluations evaluations (summaryMode inputs)))
     ++ [setOutput "status" (status_of anyFailure);
         setOutput "required_labels" (join (u16 ",") (domainKey <$> evaluations));
         setOutput "missing_approvals" (join (u16 ",") (missing_keys evaluations));
         if anyFailure then setFailed MissingApprovals else info AllSatisfied],
   Normal tt).
Proof.
  intros anyFailure. unfold report. fold (missing_keys evaluations). fold anyFailure.
  pose proof (createCheckRun_normal octokit headSha
                (if anyFailure then failure else success)
                (SummaryTitle (if anyFailure then MissingApprovals else AllSatisfied))
                (FormattedEvaluations evaluations (summaryMode inputs))) as Hc.
  destruct (createCheckRun _ _ _ _ _) as [t r]. simpl in Hc. subst r.
  cbn [bind emit trace fst app]. by destruct anyFailure.
Qed.

Lemma report_no_labels_eq (octokit : Octokit) (headSha : option jsstring) :
  report_no_labels octokit headSha =
  (info NoConfiguredLabels
     :: trace (createCheckRun octokit headSha success NoLabelsTitle
                              NoConfiguredLabels)
     ++ [setOutput "status" (u16 "success");
         setOutput "required_labels" [];
         setOutput "missing_approvals" []],
   Normal tt).
Proof.
  unfold report_no_labels.
  pose proof (createCheckRun_normal octokit headSha success NoLabelsTitle
                NoConfiguredLabels) as Hc.
  destruct (createCheckRun _ _ _ _ _) as [t r]. simpl in Hc. subst r.
  by cbn [bind emit trace fst app].
Qed.

(** The end of the evaluation when a configured label is on the pull
    request. *)
Lemma evaluation_tail_eq (octokit : Octokit) (inputs : Inputs)
    (config : LabelConfig) (pr : PullRequest) :
  let extraction := extractDomainLabels config (default [] (pr_labels pr)) in
  domains extraction ≠ [] →
  evaluation_tail octokit inputs config pr =
  match on_listReviews octokit with
  | Rejected status => ([pulls_listReviews], Throw (RequestError status))
  | Resolved reviews =>
      let loop := evaluate octokit inputs config extraction
                           (approvedUsers (allReviewStates reviews)) in
      match completion loop with
      | Throw e => (pulls_listReviews :: trace loop, Throw e)
      | Normal evaluations =>
          (pulls_listReviews :: trace loop
             ++ trace (report octokit inputs (head_sha pr) evaluations),
           Normal tt)
      end
  end.
Proof.
  intros extraction Hne. unfold evaluation_tail. fold extraction.
  destruct (domains extraction) as [|d ds] eqn:Hd; [done|].
  unfold await. destruct (on_listReviews octokit) as [reviews|status]; [|done].
  cbn [emit ret bind app]. cbn zeta.
  destruct (evaluate octokit inputs config extraction _) as [t [evs|e]] eqn:Hev;
    cbn [completion trace fst snd bind]; [|done].
  pose proof (report_eq octokit inputs (head_sha pr) evs) as Hrep.
  cbn zeta in Hrep. rewrite Hrep. done.
Qed.

(* ===================================================================== *)
(** ** Runs without a configuration *)
(* ===================================================================== *)

(** X3: No configuration.  When the configuration file is not found (404), the
    run fails at once if [fail-on-missing-config] is set, and otherwise logs a
    warning, sets the status skipped and creates a skipped check run.  When
    the path is a directory or has no content, the run is skipped in the same
    way whatever [fail-on-missing-config] says.  In neither case is anything
    else read or requested. *)
Theorem missing_configuration (octokit : Octokit) (inputs : Inputs)
    (context : Context) (pr : PullRequest) :
  truthy_string (token inputs) = true →
  pull_request context = Some pr →
  truthy_string (default [] (head_sha pr)) = true →
  let skipped_run :=
    [info NoConfiguration; setOutput "status" (u16 "skipped");
     checks_create skipped NoConfigTitle ConfigMissingText]
    ++ match on_checks_create octokit with
       | Resolved _ => []
       | Rejected _ => [warning UnableToCreateCheckRun]
       end in
  (on_getContent octokit = Rejected (Some 404%Z) →
   trace (run octokit inputs context) =
   if failOnMissingConfig inputs
   then [repos_getContent; setFailed (FailedToLoadConfig ConfigNotFound)]
   else [repos_getContent; warning ConfigNotFoundAt] ++ skipped_run)
  ∧ (on_getContent octokit = Resolved OtherContent →
     trace (run octokit inputs context) =
     [repos_getContent; warning ConfigNotAFile] ++ skipped_run).
Proof.
  intros Htok Hpr Hsha skipped_run. unfold skipped_run.
  rewrite run_eq, (run_body_eq _ _ _ _ Htok Hpr Hsha), loadConfig_eq.
  split; intros ->.
  - rewrite decide_True by done. destruct (failOnMissingConfig inputs); [done|].
    cbn [trace completion fst snd]. rewrite (createCheckRun_trace _ _ _ _ _ Hsha).
    cbn [app]. by rewrite app_nil_r.
  - cbn [trace completion fst snd]. rewrite (createCheckRun_trace _ _ _ _ _ Hsha).
    cbn [app]. by rewrite app_nil_r.
Qed.

(** No configuration file, and [fail-on-missing-config] set. *)
Lemma missing_configuration_witness :
  on_getContent octokit_without_config = Rejected (Some 404%Z)
  ∧ trace (run octokit_without_config plain_inputs
               (event "labeled" "billing" scenario_pr))
    = [repos_getContent; setFailed (FailedToLoadConfig ConfigNotFound)].
Proof.
  split; [reflexivity|].
  destruct (missing_configuration octokit_without_config plain_inputs
              (event "labeled" "billing" scenario_pr) scenario_pr
              eq_refl eq_refl eq_refl) as [H _].
  rewrite (H eq_refl). reflexivity.
Defined.

(** X4: A configuration that does not load.  When loading the configuration
    throws, the run reports "Failed to load config" with what was thrown and
    stops: it sets no output, creates no check run and makes no other
    request.  Loading throws exactly when the document is refused by the
    validation, when the text is not YAML, when the file is not found and
    [fail-on-missing-config] is set, and when the read fails with any other
    status. *)
Theorem load_failure (octokit : Octokit) (inputs : Inputs) (context : Context)
    (pr : PullRequest) (e : Thrown) :
  truthy_string (token inputs) = true →
  pull_request context = Some pr →
  truthy_string (default [] (head_sha pr)) = true →
  (completion (loadConfig octokit inputs) = Throw e →
   trace (run octokit inputs context)
   = [repos_getContent; setFailed (FailedToLoadConfig e)])
  ∧ (completion (loadConfig octokit inputs) = Throw e
     ↔ (∃ raw err, on_getContent octokit = Resolved (FileContent (Some raw))
                   ∧ validateConfig raw = inl err ∧ e = ConfigInvalid err)
       ∨ (on_getContent octokit = Resolved (FileContent None) ∧ e = YamlError)
       ∨ (on_getContent octokit = Rejected (Some 404%Z)
          ∧ failOnMissingConfig inputs = true ∧ e = ConfigNotFound)
       ∨ (∃ status, on_getContent octokit = Rejected status
                    ∧ status ≠ Some 404%Z ∧ e = RequestError status)).
Proof.
  intros Htok Hpr Hsha. split.
  - intros Hthrow.
    rewrite run_eq, (run_body_eq _ _ _ _ Htok Hpr Hsha).
    assert (Ht : trace (loadConfig octokit inputs) = [repos_getContent]).
    { revert Hthrow. rewrite loadConfig_eq. by repeat case_match. }
    destruct (loadConfig octokit inputs) as [t r]. simpl in Ht, Hthrow.
    by subst t r.
  - rewrite loadConfig_eq.
    destruct (on_getContent octokit) as [[[raw|]|]|status].
    + destruct (validateConfig raw) as [err|config] eqn:Hv; simpl.
      * split; [intros [= <-]; left; by eexists _, _|].
        intros [(r & err' & [= <-] & Hv' & ->)|[[? _]|[[? _]|(? & ? & _)]]];
          try done. congruence.
      * split; [done|].
        intros [(r & err' & [= <-] & Hv' & ->)|[[? _]|[[? _]|(? & ? & _)]]];
          try done. congruence.
    + simpl. split; [intros [= <-]; right; by left|].
      by intros [(? & ? & ? & _)|[[_ ->]|[[? _]|(? & ? & _)]]].
    + simpl. split; [done|].
      by intros [(? & ? & ? & _)|[[? _]|[[? _]|(? & ? & _)]]].
    + destruct (decide (status = Some 404%Z)) as [->|Hne].
      * destruct (failOnMissingConfig inputs); simpl.
        -- split; [intros [= <-]; right; right; by left|].
           intros [(? & ? & ? & _)|[[? _]|[(_ & _ & ->)|(? & [= <-] & ? & _)]]];
             done.
        -- split; [done|].
           intros [(? & ? & ? & _)|[[? _]|[(_ & ? & _)|(? & [= <-] & ? & _)]]];
             done.
      * simpl. split; [intros [= <-]; right; right; right; by eexists|].
        intros [(? & ? & ? & _)|[[? _]|[([= ->] & _)|(? & [= <-] & _ & ->)]]];
          done.
Qed.

(** A document with a blank team slug: the run fails with what the
    validation throws. *)
Lemma load_failure_witness :
  let octokit := agreeable blank_slug_document [] (λ _, Resolved []) in
  completion (loadConfig octokit plain_inputs)
  = Throw (ConfigInvalid (DomainNotSlug (u16 "frontend")))
  ∧ trace (run octokit plain_inputs (event "labeled" "billing" scenario_pr))
    = [repos_getContent;
       setFailed (FailedToLoadConfig
                    (ConfigInvalid (DomainNotSlug (u16 "frontend"))))].
Proof.
  intros octokit.
  assert (Hthrow : completion (loadConfig octokit plain_inputs)
                   = Throw (ConfigInvalid (DomainNotSlug (u16 "frontend"))))
    by (vm_compute; reflexivity).
  split; [exact Hthrow|].
  destruct (load_failure octokit plain_inputs
              (event "labeled" "billing" scenario_pr) scenario_pr
              (ConfigInvalid (DomainNotSlug (u16 "frontend")))
              eq_refl eq_refl eq_refl) as [H _].
  exact (H Hthrow).
Defined.

(* ===================================================================== *)
(** ** What validation accepts and what it reports *)
(* ===================================================================== *)

Lemma validate_labels_outcome (es : list (jsstring * jsvalue))
    (m : gmap jsstring jsstring) :
  match validate_labels es m with
  | inr _ => Forall (λ e, is_slug e.2 = true) es
  | inl e =>
      ∃ pre k v post,
        es = pre ++ (k, v) :: post
        ∧ Forall (λ e, is_slug e.2 = true) pre
        ∧ is_slug v = false ∧ e = DomainNotSlug k
  end.
Proof.
  revert m. induction es as [|[k v] es IH]; intros m; simpl; [constructor|].
  assert (Hbad : is_slug v = false →
                 ∃ pre k0 v0 post,
                   (k, v) :: es = pre ++ (k0, v0) :: post
                   ∧ Forall (λ e, is_slug e.2 = true) pre
                   ∧ is_slug v0 = false ∧ DomainNotSlug k = DomainNotSlug k0).
  { intros Hv. exists [], k, v, es. by repeat split. }
  destruct v as [| | |s| |]; try (by apply Hbad).
  destruct (truthy_string (trim s)) eqn:Hs; [|by apply Hbad].
  specialize (IH (assign m (trim k) (trim s))).
  destruct (validate_labels es _) as [e|m'].
  - destruct IH as (pre & k0 & v0 & post & -> & Hpre & Hv0 & ->).
    exists ((k, JString s) :: pre), k0, v0, post. repeat split; [|done].
    by constructor.
  - by constructor.
Qed.

Lemma validate_overrides_outcome (es : list (jsstring * jsvalue))
    (o : gmap jsstring Override) :
  match validate_overrides es o with
  | inr _ => Forall (λ e, override_ok e.2 = true) es
  | inl e =>
      ∃ pre k spec post r,
        es = pre ++ (k, spec) :: post
        ∧ Forall (λ e, override_ok e.2 = true) pre
        ∧ is_object spec = true
        ∧ field "requiredApprovals" spec = Some r
        ∧ override_ok spec = false ∧ e = OverrideInvalid k r
  end.
Proof.
  revert o. induction es as [|[k spec] es IH]; intros o; simpl; [constructor|].
  assert (Hgo : ∀ o', override_ok spec = true →
            match validate_overrides es o' with
            | inr _ => Forall (λ e, override_ok e.2 = true) ((k, spec) :: es)
            | inl e =>
                ∃ pre k0 spec0 post r,
                  (k, spec) :: es = pre ++ (k0, spec0) :: post
                  ∧ Forall (λ e, override_ok e.2 = true) pre
                  ∧ is_object spec0 = true
                  ∧ field "requiredApprovals" spec0 = Some r
                  ∧ override_ok spec0 = false ∧ e = OverrideInvalid k0 r
            end).
  { intros o' Hok. specialize (IH o'). destruct (validate_overrides es o') as [e|o''].
    - destruct IH as (pre & k0 & spec0 & post & r & -> & Hpre & ? & ? & ? & ->).
      exists ((k, spec) :: pre), k0, spec0, post, r. repeat split; [|done..].
      by constructor.
    - by constructor. }
  unfold override_ok in Hgo |- *.
  destruct (is_object spec) eqn:Hobj; [|by apply Hgo].
  destruct (field "requiredApprovals" spec) as [r|] eqn:Hr; [|by apply Hgo].
  assert (Hbad : override_ok spec = false →
            ∃ pre k0 spec0 post r0,
              (k, spec) :: es = pre ++ (k0, spec0) :: post
              ∧ Forall (λ e, override_ok e.2 = true) pre
              ∧ is_object spec0 = true
              ∧ field "requiredApprovals" spec0 = Some r0
              ∧ override_ok spec0 = false
              ∧ OverrideInvalid k r = OverrideInvalid k0 r0).
  { intros Hv. exists [], k, spec, es, r. by repeat split. }
  unfold override_ok in Hbad. rewrite Hobj, Hr in Hbad.
  destruct r as [| |n| | |]; try (by apply Hbad).
  destruct (js_lt n (num_of_Z 1)) eqn:Hn; [by apply Hbad|].
  by apply Hgo.
Qed.

(** X5: The outcome of validation.  A document is accepted exactly when it is an
    object whose [labels] is an object with nothing but non-blank strings for
    values and whose [overrides], when it is an object, has no entry with a
    [requiredApprovals] that is not a number or is below 1; nothing else is
    asked of it.  A refusal names the first offending entry by its key as
    written: the labels are checked before the overrides. *)
Theorem validateConfig_outcome (raw : jsvalue) :
  ((∃ config, validateConfig raw = inr config) ↔ acceptable raw)
  ∧ match validateConfig raw with
    | inr _ => acceptable raw
    | inl RootNotObject => is_object raw = false
    | inl LabelsNotObject =>
        is_object raw = true
        ∧ ∀ l, field "labels" raw = Some l → is_object l = false
    | inl (DomainNotSlug k) =>
        ∃ l pre v post,
          field "labels" raw = Some l
          ∧ Object_entries l = pre ++ (k, v) :: post
          ∧ Forall (λ e, is_slug e.2 = true) pre
          ∧ is_slug v = false
    | inl (OverrideInvalid k r) =>
        ∃ l o pre spec post,
          field "labels" raw = Some l
          ∧ Forall (λ e, is_slug e.2 = true) (Object_entries l)
          ∧ field "overrides" raw = Some o
          ∧ Object_entries o = pre ++ (k, spec) :: post
          ∧ Forall (λ e, override_ok e.2 = true) pre
          ∧ field "requiredApprovals" spec = Some r
          ∧ override_ok spec = false
    end.
Proof.
  assert (Hmain :
    match validateConfig raw with
    | inr _ => acceptable raw
    | inl RootNotObject => is_object raw = false
    | inl LabelsNotObject =>
        is_object raw = true
        ∧ ∀ l, field "labels" raw = Some l → is_object l = false
    | inl (DomainNotSlug k) =>
        ∃ l pre v post,
          field "labels" raw = Some l
          ∧ Object_entries l = pre ++ (k, v) :: post
          ∧ Forall (λ e, is_slug e.2 = true) pre
          ∧ is_slug v = false
    | inl (OverrideInvalid k r) =>
        ∃ l o pre spec post,
          field "labels" raw = Some l
          ∧ Forall (λ e, is_slug e.2 = true) (Object_entries l)
          ∧ field "overrides" raw = Some o
          ∧ Object_entries o = pre ++ (k, spec) :: post
          ∧ Forall (λ e, override_ok e.2 = true) pre
          ∧ field "requiredApprovals" spec = Some r
          ∧ override_ok spec = false
    end).
  { unfold validateConfig, acceptable.
    destruct (is_object raw) eqn:Hraw; simpl; [|done].
    destruct (field "labels" raw) as [l|] eqn:Hl; [|by split].
    destruct (is_object l) eqn:Hlo; simpl; [|split; [done|by intros ? [= <-]]].
    pose proof (validate_labels_outcome (Object_entries l) ∅) as Hlabels.
    destruct (validate_labels (Object_entries l) ∅) as [e|lb].
    { destruct Hlabels as (pre & k & v & post & Hes & Hpre & Hv & ->).
      by exists l, pre, v, post. }
    destruct (field "overrides" raw) as [o|] eqn:Ho.
    - destruct (is_object o) eqn:Hoo.
      + pose proof (validate_overrides_outcome (Object_entries o) ∅) as Hov.
        destruct (validate_overrides (Object_entries o) ∅) as [e|ov].
        * destruct Hov as (pre & k & spec & post & r & Hes & Hpre & _ & Hr & Hbad & ->).
          by exists l, o, pre, spec, post.
        * split; [done|]. split; [by exists l|]. by intros ? [= <-] _.
      + split; [done|]. split; [by exists l|]. intros ? [= <-]. congruence.
    - split; [done|]. split; [by exists l|]. done. }
  split; [|exact Hmain]. split.
  - intros [config Hc]. by rewrite Hc in Hmain.
  - intros (Hraw & (l & Hl & Hlo & Hall) & Hov).
    destruct (validateConfig raw) as [e|config]; [|by eexists]. exfalso.
    destruct e as [| |k|k r].
    + congruence.
    + destruct Hmain as [_ Hno]. specialize (Hno l Hl). congruence.
    + destruct Hmain as (l' & pre & v & post & Hl' & Hes & _ & Hv).
      rewrite Hl in Hl'. injection Hl' as <-. rewrite Hes in Hall.
      apply Forall_app in Hall as [_ Hall]. apply Forall_cons in Hall as [Hok _].
      simpl in Hok. congruence.
    + destruct Hmain as (l' & o & pre & spec & post & _ & _ & Ho & Hes & _ & Hr & Hbad).
      assert (Hoo : is_object o = true).
      { destruct o; try done; simpl in Hes; by destruct pre. }
      specialize (Hov o Ho Hoo). rewrite Hes in Hov.
      apply Forall_app in Hov as [_ Hov]. apply Forall_cons in Hov as [Hok _].
      simpl in Hok. congruence.
Qed.

(* ===================================================================== *)
(** ** The number of approvals a validated policy requires *)
(* ===================================================================== *)

Lemma Math_floor_requirement (n : jsnum) :
  js_lt n (num_of_Z 1) = false → requirement (Math_floor n).
Proof.
  unfold requirement. destruct n as [q| | |]; simpl; intros H; try done; auto.
  left. exists (Qfloor q). split; [|done].
  apply negb_false_iff, Qle_bool_iff in H.
  rewrite <- (Qfloor_Z 1). by apply Qfloor_resp_le.
Qed.

Lemma default_requiredApprovals_requirement (raw : jsvalue) :
  requirement (default_requiredApprovals raw).
Proof.
  assert (H1 : requirement (num_of_Z 1)) by (left; exists 1%Z; split; [lia|done]).
  unfold default_requiredApprovals.
  destruct (field "requiredApprovals" raw) as [[| |n| | |]|]; try done.
  destruct (js_ge n (num_of_Z 1)) eqn:Hn; [|done].
  apply Math_floor_requirement.
  destruct n as [q| | |]; simpl in *; try done.
  by rewrite Hn.
Qed.

Lemma validate_overrides_requirement (es : list (jsstring * jsvalue))
    (o o' : gmap jsstring Override) :
  validate_overrides es o = inr o' →
  map_Forall (λ _ ov, ∃ n, ov_requiredApprovals ov = Some n ∧ requirement n) o →
  map_Forall (λ _ ov, ∃ n, ov_requiredApprovals ov = Some n ∧ requirement n) o'.
Proof.
  revert o. induction es as [|[k spec] es IH]; intros o H Ho; simpl in H.
  - by injection H as <-.
  - destruct (is_object spec); [|by eapply IH].
    destruct (field "requiredApprovals" spec) as [r|]; [|by eapply IH].
    destruct r as [| |n| | |]; try done.
    destruct (js_lt n (num_of_Z 1)) eqn:Hn; [done|].
    apply (IH _ H). unfold assign. destruct (decide _); [done|].
    apply map_Forall_insert_2; [|done].
    eexists. split; [done|]. by apply Math_floor_requirement.
Qed.

Lemma required_for_requirement (raw : jsvalue) (config : LabelConfig)
    (d : jsstring) :
  validateConfig raw = inr config → requirement (required_for config d).
Proof.
  intros H. pose proof (required_for_validated raw config d H) as Hreq.
  apply validateConfig_inr in H as (Hr & _ & _ & l & _ & _ & _ & o & Ho & Hv).
  rewrite Ho in Hreq. simpl in Hreq.
  destruct (o !! d) as [ov|] eqn:Hov.
  - assert (Hall : map_Forall
              (λ _ ov, ∃ n, ov_requiredApprovals ov = Some n ∧ requirement n) o).
    { destruct (field "overrides" raw) as [v|]; [destruct (is_object v)|].
      - eapply validate_overrides_requirement; [exact Hv|]. apply map_Forall_empty.
      - subst o. apply map_Forall_empty.
      - subst o. apply map_Forall_empty. }
    destruct (Hall d ov Hov) as (n & Hn & Hrange). congruence.
  - rewrite Hr in Hreq. injection Hreq as <-.
    apply default_requiredApprovals_requirement.
Qed.

Lemma js_ge_requirement (n : nat) (r : jsnum) :
  requirement r → js_ge (num_of_nat n) r = true → 1 ≤ n.
Proof.
  intros [(z & Hz & ->)|[-> | ->]] H; [|done..].
  apply js_ge_integers in H. lia.
Qed.

(** X6: No approval, no pass.  In every record of a validated policy the
    required count is an integer of at least 1, +Infinity or NaN, never 0 or
    less; so a record is satisfied only with at least one approver. *)
Theorem no_approval_no_pass (octokit : Octokit) (inputs : Inputs)
    (raw : jsvalue) (config : LabelConfig) (prLabels : list (option jsstring))
    (approved : list jsstring) (evaluations : list EvaluatedDomain) :
  validateConfig raw = inr config →
  completion (evaluate octokit inputs config
                       (extractDomainLabels config prLabels) approved)
  = Normal evaluations →
  Forall (λ e, requirement (required e)
               ∧ (satisfied e = true → 1 ≤ approvals e ∧ approvers e ≠ []))
         evaluations.
Proof.
  intros Hraw Hev.
  destruct (evaluate_validated octokit inputs raw config prLabels approved Hraw)
    as [_ Hc]. cbn zeta in Hc. rewrite Hev in Hc. subst evaluations.
  apply Forall_fmap, Forall_forall. intros d _.
  unfold compose, evaluation_of. cbn [required satisfied approvals approvers].
  pose proof (required_for_requirement raw config d Hraw) as Hreq.
  split; [done|]. intros Hs.
  pose proof (js_ge_requirement _ _ Hreq Hs) as Hn. split; [done|].
  intros Hnil. rewrite Hnil in Hn. simpl in Hn. lia.
Qed.

(** Scenario A: each record requires at least one approval, and the
    satisfied one has an approver. *)
Lemma no_approval_no_pass_witness :
  validateConfig scenario_document = inr scenario_config
  ∧ Forall (λ e, requirement (required e)
                 ∧ (satisfied e = true → 1 ≤ approvals e ∧ approvers e ≠ []))
           scenario_evaluations.
Proof.
  assert (Hvalid : validateConfig scenario_document = inr scenario_config)
    by (vm_compute; reflexivity).
  split; [exact Hvalid|].
  apply (no_approval_no_pass scenario_octokit plain_inputs scenario_document
           scenario_config scenario_labels
           (approvedUsers (allReviewStates scenario_reviews)) _ Hvalid).
  vm_compute. reflexivity.
Defined.

Lemma validate_overrides_lookup (es : list (jsstring * jsvalue))
    (k : jsstring) (spec : jsvalue) (n : jsnum) :
  (∀ spec', (k, spec') ∈ es → spec' = spec) →
  field "requiredApprovals" spec = Some (JNumber n) → k ≠ proto_key →
  ∀ o o' : gmap jsstring Override,
  validate_overrides es o = inr o' →
  o' !! k = if decide (k ∈ es.*1)
            then Some {| ov_requiredApprovals := Some (Math_floor n) |}
            else o !! k.
Proof.
  intros Huniq Hn Hk. assert (Hobj : is_object spec = true).
  { destruct spec; try done. }
  induction es as [|[k0 spec0] es IH]; intros o o' H; simpl in H.
  - injection H as <-. rewrite decide_False; [done|]. apply not_elem_of_nil.
  - assert (Hes : ∀ spec', (k, spec') ∈ es → spec' = spec).
    { intros spec' Hin. apply Huniq. by right. }
    specialize (IH Hes). rewrite fmap_cons. cbn [fst].
    assert (Hskip : k0 ≠ k → ∀ o1, o1 !! k = o !! k →
              validate_overrides es o1 = inr o' →
              o' !! k = if decide (k ∈ k0 :: es.*1)
                        then Some {| ov_requiredApprovals := Some (Math_floor n) |}
                        else o !! k).
    { intros Hne o1 Ho1 H1. rewrite (IH o1 o' H1), Ho1.
      destruct (decide (k ∈ es.*1)) as [Hin|Hnin].
      - rewrite decide_True; [done|by right].
      - rewrite decide_False; [done|]. rewrite not_elem_of_cons. naive_solver. }
    destruct (decide (k0 = k)) as [->|Hne].
    + assert (spec0 = spec) as -> by (apply Huniq; left).
      rewrite Hobj, Hn in H.
      destruct (js_lt n (num_of_Z 1)); [done|].
      rewrite (IH _ o' H). rewrite (decide_True (P := _ ∈ _ :: _)) by left.
      destruct (decide (k ∈ es.*1)); [done|].
      unfold assign. rewrite decide_False by done. by rewrite lookup_insert_eq.
    + destruct (is_object spec0); [|by apply (Hskip Hne o)].
      destruct (field "requiredApprovals" spec0) as [r|]; [|by apply (Hskip Hne o)].
      destruct r as [| |n0| | |]; try done.
      destruct (js_lt n0 (num_of_Z 1)); [done|].
      eapply (Hskip Hne); [|exact H]. unfold assign.
      destruct (decide (k0 = proto_key)); [done|]. by rewrite lookup_insert_ne.
Qed.

(** X7: The number of an override.  An override is kept under its key as
    written, and its number, once not below 1, is floored and becomes the
    required count of that key.  NaN is not below 1, and neither is
    +Infinity: both are accepted, and no count of approvals reaches them. *)
Theorem override_requirement (raw : jsvalue) (config : LabelConfig)
    (entries : list (jsstring * jsvalue)) (k : jsstring) (spec : jsvalue)
    (n : jsnum) :
  validateConfig raw = inr config →
  field "overrides" raw = Some (JObject entries) →
  (k, spec) ∈ entries → (∀ spec', (k, spec') ∈ entries → spec' = spec) →
  field "requiredApprovals" spec = Some (JNumber n) →
  k ≠ proto_key →
  js_lt n (num_of_Z 1) = false
  ∧ required_for config k = Math_floor n
  ∧ (n = NaN ∨ n = PosInf →
     ∀ approvals, js_ge (num_of_nat approvals) (required_for config k) = false).
Proof.
  intros Hraw Hov Hin Huniq Hn Hk.
  pose proof Hraw as Hinr.
  apply validateConfig_inr in Hinr as (_ & _ & _ & l & _ & _ & _ & o & Ho & Hv).
  rewrite Hov in Hv. simpl in Hv.
  pose proof (validate_overrides_lookup entries k spec n Huniq Hn Hk ∅ o Hv) as Hlook.
  rewrite decide_True in Hlook
    by (apply list_elem_of_fmap; by exists (k, spec)).
  assert (Hreq : required_for config k = Math_floor n).
  { unfold required_for. rewrite Ho, (get_own _ _ _ Hlook). done. }
  split_and!.
  - pose proof (validate_overrides_outcome entries ∅) as Hout. rewrite Hv in Hout.
    rewrite Forall_forall in Hout. specialize (Hout _ Hin). simpl in Hout.
    unfold override_ok in Hout.
    assert (Hobj : is_object spec = true) by (by destruct spec).
    rewrite Hobj, Hn in Hout. by apply negb_true_iff in Hout.
  - exact Hreq.
  - rewrite Hreq. by intros [-> | ->] approvals.
Qed.

(** An override of NaN is accepted, and five approvals do not reach it. *)
Lemma override_requirement_witness :
  ∃ config,
    validateConfig nan_document = inr config
    ∧ required_for config (u16 "frontend") = NaN
    ∧ js_ge (num_of_nat 5) (required_for config (u16 "frontend")) = false.
Proof.
  destruct (validateConfig nan_document) as [e|config] eqn:Hvalid;
    [vm_compute in Hvalid; discriminate|].
  exists config. split; [reflexivity|].
  destruct (override_requirement nan_document config
              [(u16 "frontend", nan_override)] (u16 "frontend") nan_override NaN
              Hvalid eq_refl) as (_ & Hreq & Hnever).
  - by apply list_elem_of_singleton.
  - intros spec' Hin. apply list_elem_of_singleton in Hin. by injection Hin.
  - reflexivity.
  - vm_compute. discriminate.
  - split; [exact Hreq|]. apply Hnever. by left.
Defined.

Lemma js_ge_mono (a a' : nat) (r : jsnum) :
  a ≤ a' → js_ge (num_of_nat a) r = true → js_ge (num_of_nat a') r = true.
Proof.
  intros Hle. destruct r as [q| | |]; try done. unfold js_ge, num_of_nat, num_of_Z.
  rewrite !Qle_bool_iff. intros H. eapply Qle_trans; [exact H|].
  rewrite <- Zle_Qle. lia.
Qed.

Lemma approvers_mono (members : gset jsstring) (approved approved' : list jsstring) :
  NoDup approved → approved ⊆ approved' →
  length (filter (λ user, user ∈ members) approved)
  ≤ length (filter (λ user, user ∈ members) approved').
Proof.
  intros Hn Hsub. apply submseteq_length, NoDup_submseteq.
  - by apply NoDup_filter.
  - intros x. rewrite !list_elem_of_filter. intros [? ?]. split; [done|]. by apply Hsub.
Qed.

(** X8: More approvals never hurt.  Under a validated policy, when the approved
    users grow, every record keeps its key, counts at least as many
    approvals, and stays satisfied if it was; so a pull request that passed
    still passes. *)
Theorem more_approvals_never_hurt (octokit : Octokit) (inputs : Inputs)
    (raw : jsvalue) (config : LabelConfig) (prLabels : list (option jsstring))
    (approved approved' : list jsstring)
    (evaluations evaluations' : list EvaluatedDomain) :
  validateConfig raw = inr config →
  NoDup approved → approved ⊆ approved' →
  completion (evaluate octokit inputs config
                       (extractDomainLabels config prLabels) approved)
  = Normal evaluations →
  completion (evaluate octokit inputs config
                       (extractDomainLabels config prLabels) approved')
  = Normal evaluations' →
  Forall2 (λ e e', domainKey e = domainKey e' ∧ teamSlug e = teamSlug e'
                   ∧ required e = required e'
                   ∧ approvals e ≤ approvals e'
                   ∧ (satisfied e = true → satisfied e' = true))
          evaluations evaluations'
  ∧ (Forall (λ e, satisfied e = true) evaluations →
     Forall (λ e, satisfied e = true) evaluations').
Proof.
  intros Hraw Hn Hsub Hev Hev'.
  destruct (evaluate_validated octokit inputs raw config prLabels approved Hraw)
    as [_ Hc]. cbn zeta in Hc. rewrite Hev in Hc. subst evaluations.
  destruct (evaluate_validated octokit inputs raw config prLabels approved' Hraw)
    as [_ Hc]. cbn zeta in Hc. rewrite Hev' in Hc. subst evaluations'.
  assert (Hstep : ∀ d,
            let e := evaluation_of octokit config approved d (slug_of config d) in
            let e' := evaluation_of octokit config approved' d (slug_of config d) in
            approvals e ≤ approvals e' ∧ (satisfied e = true → satisfied e' = true)).
  { intros d. unfold evaluation_of. cbn [approvals satisfied].
    pose proof (approvers_mono (resolved_members octokit (slug_of config d))
                  approved approved' Hn Hsub) as Hle.
    split; [done|]. by apply js_ge_mono. }
  split.
  - apply Forall2_fmap, Forall_Forall2_diag, Forall_forall. intros d _.
    destruct (Hstep d) as [? ?]. by repeat split.
  - rewrite !Forall_fmap. intros H. eapply Forall_impl; [exact H|].
    intros d. apply (Hstep d).
Qed.

(** Scenario A with alice alone, and with alice and bob. *)
Lemma more_approvals_never_hurt_witness :
  let loop approved :=
    evaluate scenario_octokit plain_inputs scenario_config
             (extractDomainLabels scenario_config scenario_labels) approved in
  [u16 "alice"] ⊆ [u16 "alice"; u16 "bob"]
  ∧ Forall2 (λ e e', approvals e ≤ approvals e')
            (records (loop [u16 "alice"]))
            (records (loop [u16 "alice"; u16 "bob"])).
Proof.
  intros loop.
  assert (Hsub : [u16 "alice"] ⊆ [u16 "alice"; u16 "bob"]).
  { intros x Hx. apply list_elem_of_singleton in Hx as ->. left. }
  split; [exact Hsub|].
  destruct (more_approvals_never_hurt scenario_octokit plain_inputs
              scenario_document scenario_config scenario_labels
              [u16 "alice"] [u16 "alice"; u16 "bob"]
              (records (loop [u16 "alice"]))
              (records (loop [u16 "alice"; u16 "bob"])))
    as [H _].
  - vm_compute. reflexivity.
  - apply NoDup_singleton.
  - exact Hsub.
  - vm_compute. reflexivity.
  - vm_compute. reflexivity.
  - eapply Forall2_impl; [exact H|]. by intros e e' (_ & _ & _ & ? & _).
Defined.

(* ===================================================================== *)
(** ** Reviews in and out of order *)
(* ===================================================================== *)

Lemma in_order_weaken (t t' : Z) (rs : list Review) :
  (t ≤ t')%Z → in_order t' rs = true → in_order t rs = true.
Proof.
  intros Hle. destruct rs as [|r rs]; simpl; [done|].
  destruct (r_submitted_at r) as [|ms|]; try done.
  rewrite !andb_true_iff, !Z.leb_le. intros [? ?]. split; [lia|done].
Qed.

Lemma in_order_filter (P : Review → Prop) `{∀ r, Decision (P r)} (rs : list Review) :
  ∀ t, in_order t rs = true → in_order t (filter P rs) = true.
Proof.
  induction rs as [|r rs IH]; intros t; simpl; [done|].
  destruct (r_submitted_at r) as [|ms|] eqn:Hr; try done.
  rewrite andb_true_iff, Z.leb_le. intros [Hle Hrest].
  rewrite filter_cons. destruct (decide (P r)).
  - simpl. rewrite Hr, andb_true_iff, Z.leb_le. split; [done|by apply IH].
  - apply IH. by eapply in_order_weaken.
Qed.

Lemma chronological_filter (P : Review → Prop) `{∀ r, Decision (P r)}
    (rs : list Review) :
  chronological rs = true → chronological (filter P rs) = true.
Proof.
  induction rs as [|r rs IH]; [done|]. simpl.
  destruct (r_submitted_at r) as [|ms|] eqn:Hr; try done. intros Hrest.
  rewrite filter_cons. destruct (decide (P r)).
  - simpl. rewrite Hr. by apply in_order_filter.
  - apply IH. destruct rs as [|r' rs']; [done|]. simpl in *.
    destruct (r_submitted_at r'); try done.
    by apply andb_true_iff in Hrest as [_ ?].
Qed.

Lemma later_in_order (es : list Review) :
  ∀ (t : Z) (cur : ReviewInfo),
  submitted_at cur = Instant t → in_order t es = true →
  foldl later_or_equal_wins (Some cur) es
  = Some (default cur (info_of <$> last es)).
Proof.
  induction es as [|r es IH]; intros t cur Hcur Hes; [done|].
  simpl in Hes. destruct (r_submitted_at r) as [|ms|] eqn:Hr; try done.
  apply andb_true_iff in Hes as [Hle Hes]. apply Z.leb_le in Hle.
  cbn [foldl later_or_equal_wins]. rewrite Hcur, Hr. cbn [getTime].
  assert (Hge : js_ge (num_of_Z ms) (num_of_Z t) = true).
  { unfold js_ge, num_of_Z. apply Qle_bool_iff. by rewrite <- Zle_Qle. }
  rewrite Hge. rewrite (IH ms (info_of r)); [|by simpl|done].
  rewrite last_cons. by destruct (last es).
Qed.

Lemma latest_chronological (es : list Review) :
  chronological es = true → latest es = info_of <$> last es.
Proof.
  destruct es as [|r es]; [done|]. simpl.
  destruct (r_submitted_at r) as [|ms|] eqn:Hr; try done. intros Hes.
  unfold latest. cbn [foldl later_or_equal_wins].
  rewrite (later_in_order es ms (info_of r)); [|by simpl|done].
  rewrite last_cons. by destruct (last es).
Qed.

(** X9: Reviews delivered oldest first.  When every review has a valid timestamp
    and the reviews come in the order of their timestamps, the state kept for
    a user is that of the last review the user submitted, and the approved
    users are the users whose last review is an approval. *)
Theorem last_review_wins (allReviews : list Review) :
  chronological allReviews = true →
  ∀ user, user ≠ [] →
    Map_get (allReviewStates allReviews) user
    = info_of <$> last (events_of user allReviews)
    ∧ (user ∈ approvedUsers (allReviewStates allReviews)
       ↔ ∃ r, last (events_of user allReviews) = Some r
              ∧ r_state r = Some APPROVED).
Proof.
  intros Hch user Hu.
  assert (Hget : Map_get (allReviewStates allReviews) user
                 = info_of <$> last (events_of user allReviews)).
  { rewrite (allReviewStates_latest _ _ Hu). apply latest_chronological.
    by apply chronological_filter. }
  split; [exact Hget|]. rewrite approvedUsers_elem.
  setoid_rewrite (Map_get_elem _ user _ (allReviewStates_NoDup allReviews)).
  rewrite Hget. destruct (last (events_of user allReviews)) as [r|]; simpl.
  - split.
    + intros (kept & [= <-] & Hs). exists r. split; [done|].
      unfold info_of in Hs. simpl in Hs.
      destruct (r_state r) as [s|]; simpl in Hs; [by subst|done].
    + intros (r' & [= <-] & Hs). eexists. split; [done|].
      unfold info_of. simpl. by rewrite Hs.
  - split; [by intros (? & ? & _)|by intros (? & ? & _)].
Qed.

(** Alice approves and then requests changes: her last review wins. *)
Lemma last_review_wins_witness :
  chronological second_thoughts = true
  ∧ Map_get (allReviewStates second_thoughts) (u16 "alice")
    = Some {| state := u16 "CHANGES_REQUESTED"; submitted_at := Instant 2000 |}.
Proof.
  split; [reflexivity|].
  destruct (last_review_wins second_thoughts eq_refl (u16 "alice")) as [H _].
  - vm_compute. discriminate.
  - rewrite H. vm_compute. reflexivity.
Defined.

(** Among reviews with valid timestamps the state kept is that of a review
    with the greatest timestamp. *)
Lemma latest_maximal (es : list Review) :
  timed es →
  match latest es with
  | None => es = []
  | Some kept =>
      ∃ r, r ∈ es ∧ kept = info_of r
           ∧ ∀ r', r' ∈ es →
                   js_ge (getTime (r_submitted_at r))
                         (getTime (r_submitted_at r')) = true
  end.
Proof.
  induction es as [|r es IH] using rev_ind; [done|].
  intros Ht. apply Forall_app in Ht as [Hes Hr]. apply Forall_singleton in Hr as [ms Hr].
  specialize (IH Hes). rewrite latest_snoc.
  assert (Hrefl : ∀ z, js_ge (num_of_Z z) (num_of_Z z) = true).
  { intros z. unfold js_ge, num_of_Z. apply Qle_bool_iff, Qle_refl. }
  destruct (latest es) as [cur|].
  - destruct IH as (r0 & Hin & -> & Hmax). cbn [later_or_equal_wins info_of submitted_at].
    assert (Hr0 : ∃ m0, r_submitted_at r0 = Instant m0).
    { rewrite Forall_forall in Hes. by apply Hes. }
    destruct Hr0 as [m0 Hr0]. rewrite Hr, Hr0. cbn [getTime].
    destruct (js_ge (num_of_Z ms) (num_of_Z m0)) eqn:Hge.
    + exists r. split; [apply elem_of_app; right; by apply list_elem_of_singleton|].
      split; [done|]. intros r' [Hin'| ->%list_elem_of_singleton]%elem_of_app.
      * specialize (Hmax r' Hin'). rewrite Hr0 in Hmax. rewrite Hr.
        assert (Hr' : ∃ m', r_submitted_at r' = Instant m').
        { rewrite Forall_forall in Hes. by apply Hes. }
        destruct Hr' as [m' Hr']. rewrite Hr' in *. cbn [getTime] in *.
        unfold js_ge, num_of_Z in *. rewrite Qle_bool_iff in *.
        by eapply Qle_trans.
      * rewrite Hr. apply Hrefl.
    + exists r0. split; [apply elem_of_app; by left|]. split; [done|].
      intros r' [Hin'| ->%list_elem_of_singleton]%elem_of_app; [by apply Hmax|].
      rewrite Hr, Hr0. cbn [getTime].
      unfold js_ge, num_of_Z in *. apply Qle_bool_iff.
      apply not_true_iff_false in Hge. rewrite Qle_bool_iff in Hge.
      apply Qlt_le_weak, Qnot_le_lt. done.
  - subst es. simpl. exists r. split; [by apply list_elem_of_singleton|].
    split; [done|]. intros r' ->%list_elem_of_singleton. rewrite Hr. apply Hrefl.
Qed.

Lemma js_ge_antisym (a b : Z) :
  js_ge (num_of_Z a) (num_of_Z b) = true →
  js_ge (num_of_Z b) (num_of_Z a) = true → a = b.
Proof.
  unfold js_ge, num_of_Z. rewrite !Qle_bool_iff, <- !Zle_Qle. lia.
Qed.

Lemma latest_Permutation (es es' : list Review) :
  es ≡ₚ es' → timed es → no_ties es →
  (∀ r r', r ∈ es → r' ∈ es → r_login r = r_login r') →
  latest es = latest es'.
Proof.
  intros Hp Ht Hties Hlogin.
  assert (Ht' : timed es') by (unfold timed; by rewrite <- Hp).
  pose proof (latest_maximal es Ht) as H. pose proof (latest_maximal es' Ht') as H'.
  destruct (latest es) as [i|], (latest es') as [i'|].
  - destruct H as (r & Hin & -> & Hmax), H' as (r' & Hin' & -> & Hmax').
    rewrite <- Hp in Hin'.
    assert (r = r') as ->; [|done].
    apply Hties; [done..|by apply Hlogin|].
    specialize (Hmax r' Hin'). specialize (Hmax' r). rewrite <- Hp in Hmax'.
    specialize (Hmax' Hin).
    unfold timed in Ht. rewrite Forall_forall in Ht.
    destruct (Ht r Hin) as [m Hm], (Ht r' Hin') as [m' Hm'].
    rewrite Hm, Hm' in *. cbn [getTime] in *. f_equal. by apply js_ge_antisym.
  - subst es'. apply Permutation_nil_r in Hp. subst es.
    destruct H as (r & Hin & _). by apply elem_of_nil in Hin.
  - subst es. apply Permutation_nil_l in Hp. subst es'.
    destruct H' as (r & Hin & _). by apply elem_of_nil in Hin.
  - done.
Qed.

(** X10: Reviews delivered in any order.  When every review has a valid
    timestamp and no user has two different reviews with one timestamp, the
    state kept for each user, and with it who is approved, is the same for
    every order of delivery. *)
Theorem delivery_order_is_irrelevant (allReviews allReviews' : list Review) :
  allReviews ≡ₚ allReviews' → timed allReviews → no_ties allReviews →
  ∀ user,
    Map_get (allReviewStates allReviews) user
    = Map_get (allReviewStates allReviews') user
    ∧ (user ∈ approvedUsers (allReviewStates allReviews)
       ↔ user ∈ approvedUsers (allReviewStates allReviews')).
Proof.
  intros Hp Ht Hties user.
  assert (Hget : Map_get (allReviewStates allReviews) user
                 = Map_get (allReviewStates allReviews') user).
  { destruct user as [|c user].
    { by rewrite !allReviewStates_no_empty_login. }
    rewrite !allReviewStates_latest by done.
    apply latest_Permutation.
    - unfold events_of. by rewrite Hp.
    - unfold timed, events_of in *. rewrite Forall_forall in Ht.
      apply Forall_forall. intros r [_ Hr]%list_elem_of_filter. by apply Ht.
    - intros r r' [_ Hr]%list_elem_of_filter [_ Hr']%list_elem_of_filter.
      by apply Hties.
    - intros r r' [Hr _]%list_elem_of_filter [Hr' _]%list_elem_of_filter.
      congruence. }
  split; [exact Hget|]. rewrite !approvedUsers_elem.
  setoid_rewrite (Map_get_elem _ user _ (allReviewStates_NoDup allReviews)).
  setoid_rewrite (Map_get_elem _ user _ (allReviewStates_NoDup allReviews')).
  by rewrite Hget.
Qed.

(** The same two reviews delivered newest first. *)
Lemma delivery_order_is_irrelevant_witness :
  second_thoughts ≡ₚ reverse second_thoughts
  ∧ Map_get (allReviewStates (reverse second_thoughts)) (u16 "alice")
    = Some {| state := u16 "CHANGES_REQUESTED"; submitted_at := Instant 2000 |}.
Proof.
  assert (Hp : second_thoughts ≡ₚ reverse second_thoughts).
  { apply perm_swap. }
  split; [exact Hp|].
  destruct (delivery_order_is_irrelevant second_thoughts (reverse second_thoughts)
              Hp) with (user := u16 "alice") as [H _].
  - repeat constructor; by eexists.
  - intros r r' Hr Hr' _ Ht.
    apply elem_of_cons in Hr as [->|Hr]; apply elem_of_cons in Hr' as [->|Hr'].
    + reflexivity.
    + apply list_elem_of_singleton in Hr' as ->. discriminate Ht.
    + apply list_elem_of_singleton in Hr as ->. discriminate Ht.
    + apply list_elem_of_singleton in Hr as ->.
      apply list_elem_of_singleton in Hr' as ->. reflexivity.
  - rewrite <- H. vm_compute. reflexivity.
Defined.

(* ===================================================================== *)
(** ** Labels in any order *)
(* ===================================================================== *)

(** X11: The labels as a set.  The matched keys depend on which labels the pull
    request has, not on their order or on repetitions, up to their own
    order; and under a validated policy so do the records of the evaluation
    and whether all of them are satisfied. *)
Theorem label_order_is_irrelevant (octokit : Octokit) (inputs : Inputs)
    (raw : jsvalue) (config : LabelConfig)
    (prLabels prLabels' : list (option jsstring)) (approved : list jsstring) :
  validateConfig raw = inr config →
  (∀ l, l ∈ prLabels ↔ l ∈ prLabels') →
  domains (extractDomainLabels config prLabels)
    ≡ₚ domains (extractDomainLabels config prLabels')
  ∧ ∀ evaluations evaluations',
      completion (evaluate octokit inputs config
                           (extractDomainLabels config prLabels) approved)
      = Normal evaluations →
      completion (evaluate octokit inputs config
                           (extractDomainLabels config prLabels') approved)
      = Normal evaluations' →
      evaluations ≡ₚ evaluations'
      ∧ (Forall (λ e, satisfied e = true) evaluations
         ↔ Forall (λ e, satisfied e = true) evaluations').
Proof.
  intros Hraw Hsame.
  assert (Hp : domains (extractDomainLabels config prLabels)
                 ≡ₚ domains (extractDomainLabels config prLabels')).
  { destruct (matcher_inv_holds config prLabels) as [He Hn _].
    destruct (matcher_inv_holds config prLabels') as [He' Hn' _].
    apply NoDup_Permutation; [done..|].
    intros k. unfold extractDomainLabels. cbn [domains].
    rewrite He, He'. by rewrite Hsame. }
  split; [exact Hp|]. intros evs evs' Hev Hev'.
  destruct (evaluate_validated octokit inputs raw config prLabels approved Hraw)
    as [_ Hc]. cbn zeta in Hc. rewrite Hev in Hc. subst evs.
  destruct (evaluate_validated octokit inputs raw config prLabels' approved Hraw)
    as [_ Hc]. cbn zeta in Hc. rewrite Hev' in Hc. subst evs'.
  assert (Hperm : ((λ d, evaluation_of octokit config approved d (slug_of config d))
                     <$> domains (extractDomainLabels config prLabels))
                  ≡ₚ ((λ d, evaluation_of octokit config approved d (slug_of config d))
                        <$> domains (extractDomainLabels config prLabels'))).
  { by apply fmap_Permutation. }
  split; [exact Hperm|]. by rewrite Hperm.
Qed.

(** The labels of Scenario A in another order, one of them twice. *)
Lemma label_order_is_irrelevant_witness :
  let labels' := [Some (u16 "billing"); Some (u16 "frontend");
                  Some (u16 "billing")] in
  domains (extractDomainLabels scenario_config scenario_labels)
    ≡ₚ domains (extractDomainLabels scenario_config labels')
  ∧ domains (extractDomainLabels scenario_config labels')
    = [u16 "billing"; u16 "frontend"].
Proof.
  intros labels'. split; [|vm_compute; reflexivity].
  destruct (label_order_is_irrelevant scenario_octokit plain_inputs
              scenario_document scenario_config scenario_labels labels' [])
    as [H _].
  - vm_compute. reflexivity.
  - intros l. unfold scenario_labels, labels'.
    rewrite !elem_of_cons, !elem_of_nil. tauto.
  - exact H.
Defined.

(* ===================================================================== *)
(** ** Retractions *)
(* ===================================================================== *)

(** X13: When a team is retracted.  The retraction sends its request exactly
    when [retractOnUnlabeled] is set, the event is a [pull_request] or
    [pull_request_target] event with the action [unlabeled], the run is no
    dry-run, and the removed label has a name under which a read of the
    configured labels finds a truthy value; it then names that one value.
    It never throws: a rejected removal is a warning. *)
Theorem retraction_request (octokit : Octokit) (config : LabelConfig)
    (inputs : Inputs) (context : Context) (teams : list (prop jsstring)) :
  let retract := maybeRetractOnUnlabeled octokit config inputs context in
  (pulls_removeRequestedReviewers teams ∈ trace retract
   ↔ retractOnUnlabeled config = Some true
     ∧ (eventName context = u16 "pull_request"
        ∨ eventName context = u16 "pull_request_target")
     ∧ action context = Some (u16 "unlabeled")
     ∧ dryRun inputs = false
     ∧ ∃ name team,
         label_name context = Some name ∧ name ≠ []
         ∧ get (labels config) name = Some team
         ∧ truthy_slug (Some team) = true
         ∧ teams = [team])
  ∧ completion retract = Normal tt.
Proof.
  intros retract. split; [|apply maybeRetractOnUnlabeled_normal].
  unfold retract, maybeRetractOnUnlabeled. split.
  - intros Hin.
    destruct (retractOnUnlabeled config) as [[|]|] eqn:Hr; cbn [default negb andb] in Hin;
      try (by apply elem_of_nil in Hin).
    assert (Hev : eventName context = u16 "pull_request"
                  ∨ eventName context = u16 "pull_request_target").
    { destruct (decide (eventName context = u16 "pull_request")) as [?|H1];
        [by left|].
      destruct (decide (eventName context = u16 "pull_request_target")) as [?|H2];
        [by right|].
      rewrite !bool_decide_eq_false_2 in Hin by done.
      by apply elem_of_nil in Hin. }
    assert (Hevb : negb (bool_decide (eventName context = u16 "pull_request"))
                   && negb (bool_decide
                              (eventName context = u16 "pull_request_target"))
                   = false).
    { destruct Hev as [He|He]; rewrite He; by vm_compute. }
    rewrite Hevb in Hin.
    destruct (bool_decide (action context = Some (u16 "unlabeled"))) eqn:Ha;
      cbn [default negb andb] in Hin; [|by apply elem_of_nil in Hin].
    apply bool_decide_eq_true in Ha.
    destruct (label_name context) as [[|c name]|] eqn:Hn;
      try (by apply elem_of_nil in Hin).
    destruct (has_in (c :: name) (labels config)); cbn [negb] in Hin;
      [|by apply elem_of_nil in Hin].
    destruct (get (labels config) (c :: name)) as [team|] eqn:Hg;
      [|by apply elem_of_nil in Hin].
    destruct (truthy_slug (Some team)) eqn:Ht; cbn [negb] in Hin;
      [|by apply elem_of_nil in Hin].
    destruct (dryRun inputs) eqn:Hd.
    { by apply list_elem_of_singleton in Hin. }
    assert (Hteams : teams = [team]).
    { unfold await in Hin.
      destruct (on_removeRequestedReviewers octokit [team]);
        cbn [ret throw bind try_catch emit trace fst app] in Hin.
      all: apply elem_of_cons in Hin as [[= ->]|Hin]; [done|].
      all: by apply list_elem_of_singleton in Hin. }
    split_and!; try done. by exists (c :: name), team.
  - intros (Hr & Hev & Ha & Hd & name & team & Hn & Hne & Hg & Ht & ->).
    rewrite Hr, Ha, Hn, Hd. cbn [default negb].
    rewrite (bool_decide_eq_true_2 (Some _ = Some _)) by done. cbn [negb].
    assert (Hevb : negb (bool_decide (eventName context = u16 "pull_request"))
                   && negb (bool_decide
                              (eventName context = u16 "pull_request_target"))
                   = false).
    { destruct Hev as [He|He]; rewrite He; by vm_compute. }
    rewrite Hevb. destruct name as [|c name]; [done|].
    assert (Hin : has_in (c :: name) (labels config) = true).
    { unfold has_in. unfold get in Hg.
      destruct (labels config !! (c :: name)); [done|].
      by destruct (bool_decide _). }
    rewrite Hin, Hg, Ht. cbn [negb]. unfold await.
    destruct (on_removeRequestedReviewers octokit [team]);
      cbn [ret throw bind try_catch emit trace fst app]; left.
Qed.

(* ===================================================================== *)
(** ** What is seen of a run *)
(* ===================================================================== *)

Lemma observe_mute_bind {A B} (m : M A) (k : A → M B) :
  traced mute m →
  observe (bind m k) =
  match completion m with
  | Normal a => observe (k a)
  | Throw e => ([], [], Throw e)
  end.
Proof.
  intros Hm. unfold observe. rewrite trace_bind, completion_bind.
  rewrite outputs_app, failures_app.
  rewrite (mute_outputs _ Hm), (mute_failures _ Hm).
  destruct (completion m); [done|]. by rewrite !app_nil_r.
Qed.

Lemma observe_eq {A} (m : M A) (t : list effect) (r : Completion A) :
  m = (t, r) → observe m = (outputs t, failures t, r).
Proof. by intros ->. Qed.

Lemma observe_report (octokit : Octokit) (inputs : Inputs)
    (headSha : option jsstring) (evaluations : list EvaluatedDomain) :
  observe (report octokit inputs headSha evaluations)
  = (report_seen evaluations, Normal tt).
Proof.
  pose proof (report_eq octokit inputs headSha evaluations) as H. cbn zeta in H.
  rewrite (observe_eq _ _ _ H), outputs_app, failures_app.
  rewrite (mute_outputs _ (createCheckRun_mute _ _ _ _ _)).
  rewrite (mute_failures _ (createCheckRun_mute _ _ _ _ _)).
  unfold report_seen. by destruct (negb _).
Qed.

Lemma observe_report_no_labels (octokit : Octokit) (headSha : option jsstring) :
  observe (report_no_labels octokit headSha)
  = ([("status", u16 "success"); ("required_labels", []);
      ("missing_approvals", [])], [], Normal tt).
Proof.
  rewrite (observe_eq _ _ _ (report_no_labels_eq octokit headSha)).
  change (info NoConfiguredLabels :: ?t) with ([info NoConfiguredLabels] ++ t).
  rewrite !outputs_app, !failures_app.
  rewrite (mute_outputs _ (createCheckRun_mute _ _ _ _ _)).
  by rewrite (mute_failures _ (createCheckRun_mute _ _ _ _ _)).
Qed.

(** What is seen of the evaluation: nothing of the refresh and of the
    request for reviewers; the verdict comes from the labels, the reviews and
    the records alone. *)
Lemma observe_run_evaluation (octokit : Octokit) (inputs : Inputs)
    (config : LabelConfig) (pr : PullRequest) :
  let extraction := extractDomainLabels config (default [] (pr_labels pr)) in
  observe (run_evaluation octokit inputs config pr) =
  match domains extraction with
  | [] => ([("status", u16 "success"); ("required_labels", []);
            ("missing_approvals", [])], [], Normal tt)
  | _ =>
      match on_listReviews octokit with
      | Rejected status => ([], [], Throw (RequestError status))
      | Resolved reviews =>
          match completion (evaluate octokit inputs config extraction
                              (approvedUsers (allReviewStates reviews))) with
          | Throw e => ([], [], Throw e)
          | Normal evaluations => (report_seen evaluations, Normal tt)
          end
      end
  end.
Proof.
  intros extraction.
  pose proof (run_evaluation_eq octokit inputs config pr) as H. cbn zeta in H.
  rewrite (observe_eq _ _ _ H), !outputs_app, !failures_app.
  rewrite (mute_outputs _ (refresh_requested_teams_mute _ _)).
  rewrite (mute_failures _ (refresh_requested_teams_mute _ _)).
  rewrite (mute_outputs _ (ensure_logged_mute _ _ _ _ _)).
  rewrite (mute_failures _ (ensure_logged_mute _ _ _ _ _)).
  cbn [app].
  change (outputs (trace ?m), failures (trace ?m), completion ?m) with (observe m).
  destruct (domains extraction) as [|d ds] eqn:Hd.
  - unfold evaluation_tail. fold extraction. rewrite Hd.
    apply observe_report_no_labels.
  - pose proof (evaluation_tail_eq octokit inputs config pr) as Ht.
    cbn zeta in Ht. fold extraction in Ht. rewrite Hd in Ht.
    specialize (Ht ltac:(done)).
    destruct (on_listReviews octokit) as [reviews|status].
    + destruct (completion (evaluate _ _ _ _ _)) as [evs|e] eqn:Hev.
      * rewrite (observe_eq _ _ _ Ht).
        change (pulls_listReviews :: ?t) with ([pulls_listReviews] ++ t).
        rewrite !outputs_app, !failures_app.
        rewrite (mute_outputs _ (evaluate_mute _ _ _ _ _)).
        rewrite (mute_failures _ (evaluate_mute _ _ _ _ _)).
        pose proof (observe_report octokit inputs (head_sha pr) evs) as Hr.
        unfold observe in Hr. injection Hr as Ho Hf _. by rewrite Ho, Hf.
      * rewrite (observe_eq _ _ _ Ht).
        change (pulls_listReviews :: ?t) with ([pulls_listReviews] ++ t).
        rewrite !outputs_app, !failures_app.
        rewrite (mute_outputs _ (evaluate_mute _ _ _ _ _)).
        by rewrite (mute_failures _ (evaluate_mute _ _ _ _ _)).
    + by rewrite (observe_eq _ _ _ Ht).
Qed.

Lemma observe_run_with_config (octokit : Octokit) (inputs : Inputs)
    (context : Context) (config : LabelConfig) (pr : PullRequest) :
  observe (run_with_config octokit inputs context config pr) =
  if default false (ignoreDraft config) && draft pr
  then ([("status", u16 "skipped")], [], Normal tt)
  else observe (run_evaluation octokit inputs config pr).
Proof.
  pose proof (run_with_config_eq octokit inputs context config pr) as H.
  destruct (default false (ignoreDraft config) && draft pr);
    rewrite (observe_eq _ _ _ H), !outputs_app, !failures_app.
  - rewrite (mute_outputs _ (maybeRetractOnUnlabeled_mute _ _ _ _)).
    rewrite (mute_failures _ (maybeRetractOnUnlabeled_mute _ _ _ _)).
    rewrite (mute_outputs _ (createCheckRun_mute _ _ _ _ _)).
    by rewrite (mute_failures _ (createCheckRun_mute _ _ _ _ _)).
  - rewrite (mute_outputs _ (maybeRetractOnUnlabeled_mute _ _ _ _)).
    by rewrite (mute_failures _ (maybeRetractOnUnlabeled_mute _ _ _ _)).
Qed.

(** What is seen of the body of a run that has a token and a pull request
    with a head commit. *)
Lemma observe_run_body (octokit : Octokit) (inputs : Inputs)
    (context : Context) (pr : PullRequest) :
  truthy_string (token inputs) = true →
  pull_request context = Some pr →
  truthy_string (default [] (head_sha pr)) = true →
  observe (run_body octokit inputs context) =
  match completion (loadConfig octokit inputs) with
  | Throw e => ([], [FailedToLoadConfig e], Normal tt)
  | Normal None => ([("status", u16 "skipped")], [], Normal tt)
  | Normal (Some config) =>
      observe (run_with_config octokit inputs context config pr)
  end.
Proof.
  intros Htok Hpr Hsha.
  pose proof (run_body_eq octokit inputs context pr Htok Hpr Hsha) as H.
  pose proof (loadConfig_mute octokit inputs) as Hm. unfold traced in Hm.
  destruct (loadConfig octokit inputs) as [t [[config|]|e]];
    cbn [trace completion fst snd] in *;
    rewrite (observe_eq _ _ _ H), !outputs_app, !failures_app,
      (mute_outputs _ Hm), (mute_failures _ Hm).
  - done.
  - rewrite (mute_outputs _ (createCheckRun_mute _ _ _ _ _)).
    by rewrite (mute_failures _ (createCheckRun_mute _ _ _ _ _)).
  - done.
Qed.

(** What is seen of a run: what is seen of its body, and the failure
    "Unhandled error" when the body throws. *)
Lemma observe_run (octokit : Octokit) (inputs : Inputs) (context : Context) :
  observe (run octokit inputs context) =
  match observe (run_body octokit inputs context) with
  | (outs, fails, Normal _) => (outs, fails, Normal tt)
  | (outs, fails, Throw e) => (outs, fails ++ [Unhandled e], Normal tt)
  end.
Proof.
  rewrite (observe_eq _ _ _ (run_eq octokit inputs context)).
  rewrite outputs_app, failures_app. unfold observe.
  destruct (completion (run_body octokit inputs context)); simpl.
  - by rewrite !app_nil_r.
  - by rewrite app_nil_r.
Qed.

Lemma report_seen_verdict (evaluations : list EvaluatedDomain) :
  verdict (report_seen evaluations).1 (report_seen evaluations).2.
Proof.
  unfold report_seen, verdict. case_bool_decide as Hm; simpl.
  - right. right. left. rewrite Hm. by eexists.
  - right. right. right. by eexists _, _.
Qed.

(** X14: Every run ends with a verdict.  A run never throws, and it ends in one
    of four ways: with one failure and no output, when it stops before any
    verdict; with the single output [status = skipped]; with [status =
    success], the keys required and nothing missing, and no failure; or with
    [status = failure], the keys required and the keys missing, and the
    failure "missing required team approvals".  So the action fails exactly
    when its status is neither success nor skipped. *)
Theorem run_ends_with_a_verdict (octokit : Octokit) (inputs : Inputs)
    (context : Context) :
  completion (run octokit inputs context) = Normal tt
  ∧ verdict (outputs (trace (run octokit inputs context)))
            (failures (trace (run octokit inputs context))).
Proof.
  pose proof (observe_run octokit inputs context) as Hrun.
  assert (Hbody :
    match observe (run_body octokit inputs context) with
    | (outs, fails, Normal _) => verdict outs fails
    | (outs, fails, Throw e) => outs = [] ∧ fails = []
    end).
  { destruct (truthy_string (token inputs)) eqn:Htok; cycle 1.
    { unfold observe, run_body. rewrite Htok. simpl. left. split; [done|].
      by eexists. }
    destruct (pull_request context) as [pr|] eqn:Hpr; cycle 1.
    { unfold observe, run_body. rewrite Htok, Hpr. simpl. right. by left. }
    destruct (truthy_string (default [] (head_sha pr))) eqn:Hsha; cycle 1.
    { unfold observe, run_body. rewrite Htok, Hpr. simpl.
      destruct (head_sha pr) as [[|c s]|]; try done.
      all: simpl; left; split; [done|]; by eexists. }
    rewrite (observe_run_body _ _ _ _ Htok Hpr Hsha).
    destruct (completion (loadConfig octokit inputs)) as [[config|]|e].
    - rewrite observe_run_with_config.
      destruct (default false (ignoreDraft config) && draft pr).
      { right. by left. }
      pose proof (observe_run_evaluation octokit inputs config pr) as He.
      cbn zeta in He. rewrite He.
      destruct (domains _) as [|d ds].
      { right. right. left. by eexists. }
      destruct (on_listReviews octokit) as [reviews|status]; [|done].
      destruct (completion (evaluate _ _ _ _ _)) as [evs|e]; [|done].
      rewrite (surjective_pairing (report_seen evs)).
      apply report_seen_verdict.
    - right. by left.
    - left. split; [done|]. by eexists. }
  unfold observe in Hrun at 1. 
  destruct (observe (run_body octokit inputs context)) as [[outs fails] [[]|e]].
  - injection Hrun as -> -> ->. done.
  - injection Hrun as -> -> ->. destruct Hbody as [-> ->]. split; [done|].
    left. split; [done|]. by eexists.
Qed.

(* ===================================================================== *)
(** ** What the verdict depends on *)
(* ===================================================================== *)

Lemma fetchTeamMembers_completion (octokit : Octokit) (slug : jsstring)
    (cache : TeamMembersCache) (dbg : bool) :
  completion (fetchTeamMembers octokit slug cache dbg) =
  Normal match get cache slug with
         | Some cached => (cached, cache)
         | None => (Own (resolved_members octokit slug),
                    assign cache slug (resolved_members octokit slug))
         end.
Proof.
  unfold fetchTeamMembers, resolved_members, await.
  destruct (get cache slug) as [cached|]; [done|].
  destruct (on_listMembersInOrg octokit slug) as [members|status]; simpl.
  - by destruct dbg.
  - done.
Qed.

Lemma evaluate_domain_completion_ext (o1 o2 : Octokit) (i1 i2 : Inputs)
    (config : LabelConfig) (extraction : DomainExtractionResult)
    (approved : list jsstring) (st : TeamMembersCache * list EvaluatedDomain)
    (d : jsstring) :
  (∀ slug, on_listMembersInOrg o1 slug = on_listMembersInOrg o2 slug) →
  completion (evaluate_domain o1 i1 config extraction approved st d)
  = completion (evaluate_domain o2 i2 config extraction approved st d).
Proof.
  intros H. destruct st as [cache evs]. unfold evaluate_domain.
  destruct (get (labels config) d) as [[[|c s]|k]|]; try done.
  destruct (Map_get _ _) as [[|c' l]|]; try done.
  rewrite !completion_bind, !fetchTeamMembers_completion.
  assert (Hm : resolved_members o1 (c :: s) = resolved_members o2 (c :: s)).
  { unfold resolved_members. by rewrite H. }
  rewrite Hm. by destruct (get cache (c :: s)).
Qed.

Lemma for_of_completion_ext {S A} (f g : S → A → M S) :
  (∀ st x, completion (f st x) = completion (g st x)) →
  ∀ xs st, completion (for_of f st xs) = completion (for_of g st xs).
Proof.
  intros H xs. induction xs as [|x xs IH]; intros st; [done|].
  rewrite !for_of_cons, !completion_bind, H.
  destruct (completion (g st x)); [apply IH|done].
Qed.

(** The records of the evaluation depend on the remote side by the members
    of the teams alone, and on no input of the action. *)
Lemma evaluate_completion_ext (o1 o2 : Octokit) (i1 i2 : Inputs)
    (config : LabelConfig) (extraction : DomainExtractionResult)
    (approved : list jsstring) :
  (∀ slug, on_listMembersInOrg o1 slug = on_listMembersInOrg o2 slug) →
  completion (evaluate o1 i1 config extraction approved)
  = completion (evaluate o2 i2 config extraction approved).
Proof.
  intros H. unfold evaluate. rewrite !completion_bind.
  rewrite (for_of_completion_ext
             (evaluate_domain o1 i1 config extraction approved)
             (evaluate_domain o2 i2 config extraction approved)).
  - done.
  - intros st d. by apply evaluate_domain_completion_ext.
Qed.

Lemma loadConfig_ext (o1 o2 : Octokit) (i1 i2 : Inputs) :
  on_getContent o1 = on_getContent o2 →
  failOnMissingConfig i1 = failOnMissingConfig i2 →
  loadConfig o1 i1 = loadConfig o2 i2.
Proof. intros Hc Hf. by rewrite !loadConfig_eq, Hc, Hf. Qed.

(** X15: What the verdict depends on.  Two runs on one event, with the same
    token, configuration path and [fail-on-missing-config], that read the
    same configuration, the same reviews and the same team members, set the
    same outputs and report the same failures: [dry-run], [debug] and
    [summary-mode] play no part, and neither does what the remote side
    answers when the pull request is read again, when reviewers are
    requested or removed, or when the check run is created. *)
Theorem verdict_frame (o1 o2 : Octokit) (i1 i2 : Inputs) (context : Context) :
  on_getContent o1 = on_getContent o2 →
  on_listReviews o1 = on_listReviews o2 →
  (∀ slug, on_listMembersInOrg o1 slug = on_listMembersInOrg o2 slug) →
  token i1 = token i2 →
  configPath i1 = configPath i2 →
  failOnMissingConfig i1 = failOnMissingConfig i2 →
  outputs (trace (run o1 i1 context)) = outputs (trace (run o2 i2 context))
  ∧ failures (trace (run o1 i1 context)) = failures (trace (run o2 i2 context)).
Proof.
  intros Hc Hr Hm Htok _ Hf.
  assert (Hbody : observe (run_body o1 i1 context)
                  = observe (run_body o2 i2 context)).
  { destruct (truthy_string (token i1)) eqn:Ht1; cycle 1.
    { unfold observe, run_body. by rewrite <- Htok, Ht1. }
    destruct (pull_request context) as [pr|] eqn:Hpr; cycle 1.
    { unfold observe, run_body. by rewrite <- Htok, Ht1, Hpr. }
    destruct (truthy_string (default [] (head_sha pr))) eqn:Hsha; cycle 1.
    { unfold observe, run_body. rewrite <- Htok, Ht1, Hpr. simpl.
      by destruct (head_sha pr) as [[|c s]|]. }
    rewrite (observe_run_body _ _ _ _ Ht1 Hpr Hsha).
    rewrite Htok in Ht1. rewrite (observe_run_body _ _ _ _ Ht1 Hpr Hsha).
    rewrite (loadConfig_ext o1 o2 i1 i2 Hc Hf).
    destruct (completion (loadConfig o2 i2)) as [[config|]|e]; [|done..].
    rewrite !observe_run_with_config.
    destruct (default false (ignoreDraft config) && draft pr); [done|].
    pose proof (observe_run_evaluation o1 i1 config pr) as H1.
    pose proof (observe_run_evaluation o2 i2 config pr) as H2.
    cbn zeta in H1, H2. rewrite H1, H2, Hr.
    destruct (domains _) as [|d ds]; [done|].
    destruct (on_listReviews o2) as [reviews|status]; [|done].
    by rewrite (evaluate_completion_ext o1 o2 i1 i2 _ _ _ Hm). }
  pose proof (observe_run o1 i1 context) as H1.
  pose proof (observe_run o2 i2 context) as H2.
  rewrite Hbody in H1. rewrite <- H2 in H1. unfold observe in H1.
  by injection H1 as -> -> _.
Qed.

(** Scenario A against a remote side that refuses every change, in a dry
    run: the same verdict. *)
Lemma verdict_frame_witness :
  outputs (trace (run grudging_octokit dry_inputs
                      (event "labeled" "billing" scenario_pr)))
  = [("status", u16 "failure");
     ("required_labels", u16 "frontend,billing");
     ("missing_approvals", u16 "billing")].
Proof.
  destruct (verdict_frame scenario_octokit grudging_octokit plain_inputs
              dry_inputs (event "labeled" "billing" scenario_pr)
              eq_refl eq_refl (λ _, eq_refl) eq_refl eq_refl eq_refl)
    as [H _].
  rewrite <- H. vm_compute. reflexivity.
Defined.

(* ===================================================================== *)
(** ** Drafts and the flag *)
(* ===================================================================== *)

Lemma Boolean_false (v : jsvalue) :
  Boolean v = false
  ↔ v = JNull ∨ v = JBool false ∨ (∃ q, v = JNumber (Num q) ∧ (q == 0)%Q)
    ∨ v = JNumber NaN ∨ v = JString [].
Proof.
  destruct v as [|b|[q| | |]|s|xs|es]; simpl.
  - naive_solver.
  - destruct b; naive_solver.
  - rewrite negb_false_iff, Qeq_bool_iff. split.
    + intros H. right. right. left. by exists q.
    + intros [?|[?|[(q' & [= <-] & H)|[?|?]]]]; done.
  - naive_solver.
  - naive_solver.
  - naive_solver.
  - destruct s; naive_solver.
  - naive_solver.
  - naive_solver.
Qed.

(** X16: Drafts.  A run that loads a configuration from a document reports the
    status skipped exactly when the pull request is a draft and the
    document's [ignoreDraft] is absent or truthy.  The flag is off for every
    value JavaScript takes for false: false, but also null (a key with no
    value), 0, NaN and the empty string; any other string, "false"
    included, leaves it on. *)
Theorem draft_is_skipped (octokit : Octokit) (inputs : Inputs)
    (context : Context) (pr : PullRequest) (raw : jsvalue)
    (config : LabelConfig) :
  truthy_string (token inputs) = true →
  pull_request context = Some pr →
  truthy_string (default [] (head_sha pr)) = true →
  on_getContent octokit = Resolved (FileContent (Some raw)) →
  validateConfig raw = inr config →
  (outputs (trace (run octokit inputs context)) = [("status", u16 "skipped")]
   ↔ draft pr = true
     ∧ ∀ v, field "ignoreDraft" raw = Some v → Boolean v = true)
  ∧ (∀ v, Boolean v = false
          ↔ v = JNull ∨ v = JBool false
            ∨ (∃ q, v = JNumber (Num q) ∧ (q == 0)%Q)
            ∨ v = JNumber NaN ∨ v = JString []).
Proof.
  intros Htok Hpr Hsha Hc Hraw. split; [|apply Boolean_false].
  assert (Hload : completion (loadConfig octokit inputs) = Normal (Some config)).
  { by rewrite loadConfig_eq, Hc, Hraw. }
  pose proof (observe_run octokit inputs context) as Hrun.
  rewrite (observe_run_body _ _ _ _ Htok Hpr Hsha), Hload in Hrun.
  rewrite observe_run_with_config in Hrun.
  apply validateConfig_inr in Hraw as (_ & Hi & _). rewrite Hi in Hrun.
  change (default false (Some (flag_or_true (field "ignoreDraft" raw))))
    with (flag_or_true (field "ignoreDraft" raw)) in Hrun.
  assert (Hflag : flag_or_true (field "ignoreDraft" raw) = true
                  ↔ ∀ v, field "ignoreDraft" raw = Some v → Boolean v = true).
  { unfold flag_or_true. destruct (field "ignoreDraft" raw) as [v|].
    - split; [by intros ? ? [= <-]|by auto].
    - split; [done|by auto]. }
  rewrite <- Hflag.
  destruct (flag_or_true (field "ignoreDraft" raw) && draft pr) eqn:Hskip.
  - cbv beta iota in Hrun. unfold observe in Hrun. injection Hrun as -> _ _.
    apply andb_true_iff in Hskip as [? ?]. done.
  - pose proof (observe_run_evaluation octokit inputs config pr) as He.
    cbn zeta in He. rewrite He in Hrun. clear He.
    assert (Hout : outputs (trace (run octokit inputs context))
                   ≠ [("status", u16 "skipped")]).
    { destruct (domains _) as [|d ds].
      { cbv beta iota in Hrun. unfold observe in Hrun.
        by injection Hrun as -> _ _. }
      destruct (on_listReviews octokit) as [reviews|status].
      - destruct (completion (evaluate _ _ _ _ _)) as [evs|e].
        + rewrite (surjective_pairing (report_seen evs)) in Hrun.
          cbv beta iota in Hrun. unfold observe in Hrun.
          by injection Hrun as -> _ _.
        + cbv beta iota in Hrun. unfold observe in Hrun.
          by injection Hrun as -> _ _.
      - cbv beta iota in Hrun. unfold observe in Hrun.
        by injection Hrun as -> _ _. }
    split; [done|]. intros [Hd Hf]. rewrite Hd, Hf in Hskip. done.
Qed.

(** A draft under a document that leaves [ignoreDraft] without a value: the
    draft is evaluated. *)
Lemma draft_is_skipped_witness :
  let document := labels_and "ignoreDraft" JNull in
  let octokit := agreeable document [] (λ _, Resolved []) in
  let context := event "opened" "" (pull_request_of true []) in
  field "ignoreDraft" document = Some JNull
  ∧ outputs (trace (run octokit plain_inputs context))
    ≠ [("status", u16 "skipped")].
Proof.
  intros document octokit context. split; [reflexivity|].
  destruct (validateConfig document) as [e|config] eqn:Hvalid;
    [vm_compute in Hvalid; discriminate|].
  destruct (draft_is_skipped octokit plain_inputs context
              (pull_request_of true []) document config
              eq_refl eq_refl eq_refl eq_refl Hvalid) as [H _].
  intros Hout. apply H in Hout as [_ Hflag].
  specialize (Hflag JNull eq_refl). discriminate Hflag.
Defined.

(* ===================================================================== *)
(** ** The requests of a run *)
(* ===================================================================== *)

Lemma requests_app (t1 t2 : list effect) :
  requests (t1 ++ t2) = requests t1 ++ requests t2.
Proof. unfold requests. apply filter_app. Qed.

Lemma requests_loadConfig (octokit : Octokit) (inputs : Inputs) :
  requests (trace (loadConfig octokit inputs)) = [repos_getContent].
Proof. rewrite loadConfig_eq. by repeat case_match. Qed.

Lemma requests_retract (octokit : Octokit) (config : LabelConfig)
    (inputs : Inputs) (context : Context) :
  requests (trace (maybeRetractOnUnlabeled octokit config inputs context)) = []
  ∨ ∃ team,
      requests (trace (maybeRetractOnUnlabeled octokit config inputs context))
      = [pulls_removeRequestedReviewers [team]].
Proof.
  destruct (maybeRetractOnUnlabeled_cases octokit config inputs context)
    as [->|(name & team & _ & _ & _ & _ & _ & _ & Ht & _)]; [by left|].
  rewrite Ht. destruct (dryRun inputs); [by left|]. right. exists team.
  by destruct (on_removeRequestedReviewers octokit [team]).
Qed.

Lemma requests_createCheckRun (octokit : Octokit) (headSha : option jsstring)
    (conclusion : Conclusion) (summary : Title) (text : Message) :
  truthy_string (default [] headSha) = true →
  requests (trace (createCheckRun octokit headSha conclusion summary text))
  = [checks_create conclusion summary text].
Proof.
  intros H. rewrite (createCheckRun_trace _ _ _ _ _ H).
  by destruct (on_checks_create octokit).
Qed.

Lemma requests_refresh (octokit : Octokit) (pr : PullRequest) :
  requests (trace (refresh_requested_teams octokit pr)) = [pulls_get].
Proof.
  unfold refresh_requested_teams, await. by destruct (on_pulls_get octokit).
Qed.

Lemma requests_ensure_logged (octokit : Octokit) (inputs : Inputs)
    (config : LabelConfig) (pr : PullRequest)
    (teams : option (list (option jsstring))) :
  requests (trace (ensure_logged octokit inputs config pr teams)) = []
  ∨ ∃ to_request,
      requests (trace (ensure_logged octokit inputs config pr teams))
      = [pulls_requestReviewers to_request].
Proof.
  unfold ensure_logged. rewrite trace_try_catch, requests_app.
  rewrite ensureTeamReviewRequests_trace.
  assert (Hh : requests
            match completion (ensureTeamReviewRequests octokit config
                    (domains (extractDomainLabels config (default [] (pr_labels pr))))
                    (existingRequestedTeamSlugs teams) inputs) with
            | Normal _ => []
            | Throw e => trace (emit (warning (FailedEnsuring e)))
            end = []).
  { by destruct (completion _). }
  rewrite Hh, app_nil_r.
  destruct (toRequest _ _ _) as [|team rest]; [by left|].
  destruct (dryRun inputs); [by left|]. right. exists (team :: rest).
  cbn zeta.
  destruct (on_requestReviewers octokit (team :: rest)) as [[]|status]; [done|].
  by destruct (decide (status = Some 422%Z)).
Qed.

Lemma NoDup_count (l : list jsstring) :
  (∀ x, length (filter (λ y, y = x) l) ≤ 1) → NoDup l.
Proof.
  induction l as [|a l IH]; intros H; [constructor|].
  apply NoDup_cons. split.
  - intros Hin. specialize (H a). rewrite filter_cons, decide_True in H by done.
    simpl in H. assert (Hl : length (filter (λ y, y = a) l) = 0) by lia.
    apply length_zero_iff_nil in Hl.
    assert (Ha : a ∈ filter (λ y, y = a) l) by (by apply list_elem_of_filter).
    rewrite Hl in Ha. by apply elem_of_nil in Ha.
  - apply IH. intros x. specialize (H x). rewrite filter_cons in H.
    destruct (decide (a = x)); simpl in H; lia.
Qed.

Lemma attempts_listed_teams (slug : jsstring) (t : list effect) :
  attempts slug t = length (filter (λ y, y = slug) (listed_teams t)).
Proof.
  unfold attempts, listed_teams. induction t as [|e t IH]; [done|].
  rewrite filter_cons.
  destruct e as [| | | | | | |s| | |]; cbn [omap list_omap is_attempt];
    try (rewrite decide_False by done; exact IH).
  rewrite (filter_cons (λ y, y = slug)).
  destruct (decide (s = slug)) as [->|Hne].
  - rewrite bool_decide_eq_true_2 by done. rewrite decide_True by done.
    simpl. by rewrite IH.
  - rewrite bool_decide_eq_false_2 by done. rewrite decide_False by done.
    exact IH.
Qed.

Lemma requests_listing (t : list effect) :
  Forall (λ e, match e with
               | teams_listMembersInOrg _ | info _ | warning _ => True
               | _ => False
               end) t →
  requests t = teams_listMembersInOrg <$> listed_teams t.
Proof.
  unfold requests, listed_teams.
  induction 1 as [|e t He _ IH]; [done|].
  rewrite filter_cons. destruct e; try done; cbn [is_request omap list_omap].
  rewrite decide_True by done. rewrite fmap_cons. by rewrite IH.
Qed.

(** The evaluation under a validated policy lists the members of teams, each
    team once, and makes no other request. *)
Lemma requests_evaluate (octokit : Octokit) (inputs : Inputs) (raw : jsvalue)
    (config : LabelConfig) (prLabels : list (option jsstring))
    (approved : list jsstring) :
  validateConfig raw = inr config →
  ∃ slugs,
    NoDup slugs
    ∧ requests (trace (evaluate octokit inputs config
                                (extractDomainLabels config prLabels) approved))
      = teams_listMembersInOrg <$> slugs.
Proof.
  intros Hraw.
  set (t := trace (evaluate octokit inputs config
                            (extractDomainLabels config prLabels) approved)).
  exists (listed_teams t). split.
  - apply NoDup_count. intros slug. rewrite <- attempts_listed_teams.
    destruct (evaluate_validated octokit inputs raw config prLabels approved Hraw)
      as [Hat _]. apply Hat.
  - apply requests_listing. by apply evaluate_traced.
Qed.

Lemma requests_report (octokit : Octokit) (inputs : Inputs)
    (headSha : option jsstring) (evaluations : list EvaluatedDomain) :
  truthy_string (default [] headSha) = true →
  ∃ conclusion title text,
    requests (trace (report octokit inputs headSha evaluations))
    = [checks_create conclusion title text].
Proof.
  intros H. pose proof (report_eq octokit inputs headSha evaluations) as Hr.
  cbn zeta in Hr. rewrite Hr. cbn [trace fst]. rewrite requests_app.
  rewrite (requests_createCheckRun _ _ _ _ _ H).
  match goal with
  | |- context [requests [?a; ?b; ?c; ?d]] =>
      assert (Hnone : requests [a; b; c; d] = []) by (by destruct (negb _));
      rewrite Hnone
  end.
  by eexists _, _, _.
Qed.

Lemma requests_evaluation_tail (octokit : Octokit) (inputs : Inputs)
    (raw : jsvalue) (config : LabelConfig) (pr : PullRequest) :
  validateConfig raw = inr config →
  truthy_string (default [] (head_sha pr)) = true →
  ∃ slugs check,
    NoDup slugs
    ∧ check `sublist_of` [pulls_listReviews]
    ∧ ∃ conclusion title text rest,
        rest `sublist_of` [checks_create conclusion title text]
        ∧ requests (trace (evaluation_tail octokit inputs config pr))
          = check ++ (teams_listMembersInOrg <$> slugs) ++ rest.
Proof.
  intros Hraw Hsha.
  destruct (domains (extractDomainLabels config (default [] (pr_labels pr))))
    as [|d ds] eqn:Hd.
  - unfold evaluation_tail. rewrite Hd. rewrite report_no_labels_eq.
    cbn [trace fst]. change (info ?m :: ?t) with ([info m] ++ t).
    rewrite !requests_app, (requests_createCheckRun _ _ _ _ _ Hsha).
    exists [], []. split; [constructor|]. split; [apply sublist_nil_l|].
    by eexists _, _, _, _.
  - pose proof (evaluation_tail_eq octokit inputs config pr) as Ht.
    cbn zeta in Ht. rewrite Hd in Ht. specialize (Ht ltac:(done)).
    rewrite Ht. clear Ht.
    destruct (on_listReviews octokit) as [reviews|status]; cycle 1.
    { exists [], [pulls_listReviews]. split; [constructor|]. split; [done|].
      exists success, NoLabelsTitle, NoToken, []. split; [apply sublist_nil_l|done]. }
    destruct (requests_evaluate octokit inputs raw config
                (default [] (pr_labels pr))
                (approvedUsers (allReviewStates reviews)) Hraw)
      as (slugs & Hn & Hreq).
    exists slugs, [pulls_listReviews]. split; [done|]. split; [done|].
    destruct (completion (evaluate _ _ _ _ _)) as [evs|e].
    + destruct (requests_report octokit inputs (head_sha pr) evs Hsha)
        as (conclusion & title & text & Hrep).
      exists conclusion, title, text, [checks_create conclusion title text].
      split; [done|]. cbn [trace fst].
      change (pulls_listReviews :: ?t ++ ?u) with ([pulls_listReviews] ++ t ++ u).
      rewrite !requests_app, Hreq, Hrep. reflexivity.
    + exists success, NoLabelsTitle, NoToken, []. split; [apply sublist_nil_l|].
      cbn [trace fst].
      change (pulls_listReviews :: ?t) with ([pulls_listReviews] ++ t) at 1.
      rewrite !requests_app, Hreq, app_nil_r. reflexivity.
Qed.

(** X17: The order of the requests.  The requests of a run are, in this order and
    each at most once: the read of the configuration; the removal of one
    requested team; the read of the pull request; the request for the
    missing teams; the listing of the reviews; the listing of the members of
    teams, no team twice; and the creation of the check run. *)
Theorem requests_follow_the_protocol (octokit : Octokit) (inputs : Inputs)
    (context : Context) :
  ∃ team teams slugs conclusion title text,
    NoDup slugs
    ∧ requests (trace (run octokit inputs context))
        `sublist_of` protocol team teams slugs conclusion title text.
Proof.
  unfold protocol.
  assert (Hnone : ∀ t, requests t = [] →
            ∃ team teams slugs conclusion title text,
              NoDup slugs
              ∧ requests t `sublist_of`
                  [repos_getContent; pulls_removeRequestedReviewers [team];
                   pulls_get; pulls_requestReviewers teams; pulls_listReviews]
                  ++ (teams_listMembersInOrg <$> slugs)
                  ++ [checks_create conclusion title text]).
  { intros t ->. exists (Inherited []), [], [], success, NoLabelsTitle, NoToken.
    split; [constructor|apply sublist_nil_l]. }
  rewrite run_eq. cbn [trace fst]. rewrite requests_app.
  assert (Hhandler : requests
            match completion (run_body octokit inputs context) with
            | Normal _ => []
            | Throw e => [setFailed (Unhandled e)]
            end = []) by (by destruct (completion _)).
  rewrite Hhandler, app_nil_r. clear Hhandler.
  destruct (truthy_string (token inputs)) eqn:Htok; cycle 1.
  { apply Hnone. unfold run_body. by rewrite Htok. }
  destruct (pull_request context) as [pr|] eqn:Hpr; cycle 1.
  { apply Hnone. unfold run_body. by rewrite Htok, Hpr. }
  destruct (truthy_string (default [] (head_sha pr))) eqn:Hsha; cycle 1.
  { apply Hnone. unfold run_body. rewrite Htok, Hpr. simpl.
    by destruct (head_sha pr) as [[|c s]|]. }
  rewrite (run_body_eq _ _ _ _ Htok Hpr Hsha).
  pose proof (requests_loadConfig octokit inputs) as Hload.
  destruct (loadConfig octokit inputs) as [t [[config|]|e]] eqn:Hl;
    cbn [trace fst] in *.
  - (* a configuration *)
    assert (Hraw : ∃ raw, validateConfig raw = inr config).
    { assert (Hc : completion (loadConfig octokit inputs) = Normal (Some config))
        by (by rewrite Hl).
      by destruct (loadConfig_loaded _ _ _ Hc) as [_ ?]. }
    destruct Hraw as [raw Hraw].
    rewrite requests_app, Hload, run_with_config_eq.
    assert (Hretract : ∃ team,
              requests (trace (maybeRetractOnUnlabeled octokit config inputs context))
                `sublist_of` [pulls_removeRequestedReviewers [team]]).
    { destruct (requests_retract octokit config inputs context) as [->|[team ->]].
      - exists (Inherited []). apply sublist_nil_l.
      - by exists team. }
    destruct Hretract as [team Hretract].
    destruct (default false (ignoreDraft config) && draft pr); cbn [trace fst].
    + (* a draft *)
      rewrite !requests_app, (requests_createCheckRun _ _ _ _ _ Hsha).
      exists team, [], [], skipped, DraftPRTitle, DraftSkipped.
      split; [constructor|]. cbn [fmap list_fmap app].
      apply (sublist_app [_] [_]); [done|].
      apply (sublist_app _ [_] _ [_; _; _; _]); [done|].
      cbn [requests filter list_filter app]. simpl.
      do 3 apply sublist_cons. done.
    + (* the evaluation *)
      pose proof (run_evaluation_eq octokit inputs config pr) as He.
      cbn zeta in He. rewrite He. clear He. cbn [trace fst].
      rewrite !requests_app, requests_refresh.
      destruct (requests_evaluation_tail octokit inputs raw config pr Hraw Hsha)
        as (slugs & check & Hn & Hcheck & conclusion & title & text & rest
            & Hrest & ->).
      assert (Hensure : ∃ teams,
                requests (trace (ensure_logged octokit inputs config pr
                            match on_pulls_get octokit with
                            | Resolved teams => teams
                            | Rejected _ => requested_teams pr
                            end))
                  `sublist_of` [pulls_requestReviewers teams]).
      { destruct (requests_ensure_logged octokit inputs config pr
                    match on_pulls_get octokit with
                    | Resolved teams => teams
                    | Rejected _ => requested_teams pr
                    end) as [->|[teams ->]].
        - exists []. apply sublist_nil_l.
        - by exists teams. }
      destruct Hensure as [teams Hensure].
      exists team, teams, slugs, conclusion, title, text. split; [done|].
      apply (sublist_app [_] [_]); [done|].
      apply (sublist_app _ [_]); [done|].
      apply (sublist_app [_] [_]); [done|].
      apply (sublist_app _ [_]); [done|].
      apply (sublist_app _ [_]); [done|].
      apply sublist_app; [done|]. done.
  - (* no configuration *)
    rewrite !requests_app, Hload, (requests_createCheckRun _ _ _ _ _ Hsha).
    exists (Inherited []), [], [], skipped, NoConfigTitle, ConfigMissingText.
    split; [constructor|]. simpl. apply sublist_skip. do 4 apply sublist_cons. done.
  - (* the configuration does not load *)
    rewrite requests_app, Hload.
    exists (Inherited []), [], [], skipped, NoConfigTitle, ConfigMissingText.
    split; [constructor|]. simpl. apply sublist_skip. apply sublist_nil_l.
Qed.

(* ===================================================================== *)
(** ** What a run never does *)
(* ===================================================================== *)

(** X18: Dry run.  Under [dry-run] no run requests a reviewer or removes a
    requested reviewer, whatever the event, the configuration and the answers
    of the remote side. *)
Theorem dry_run_changes_no_reviewer (octokit : Octokit) (inputs : Inputs)
    (context : Context) :
  dryRun inputs = true →
  Forall no_mutation (trace (run octokit inputs context)).
Proof.
  intros Hdry. change (traced no_mutation (run octokit inputs context)).
  unfold run. apply traced_try_catch; [|intros e; by apply traced_emit].
  unfold run_body.
  destruct (negb (truthy_string (token inputs))); [by apply traced_emit|].
  destruct (pull_request context) as [pr|]; [|solve_traced].
  destruct (head_sha pr) as [[|c sha]|]; [by apply traced_emit| |by apply traced_emit].
  apply traced_bind.
  { unfold loadConfig. solve_traced. }
  intros [[config|]|]; [|unfold createCheckRun; solve_traced|apply traced_ret].
  unfold run_with_config. apply traced_bind.
  { unfold maybeRetractOnUnlabeled. rewrite Hdry. solve_traced. }
  intros _. destruct (default false (ignoreDraft config) && draft pr).
  { unfold createCheckRun. solve_traced. }
  unfold run_evaluation. apply traced_bind.
  { unfold refresh_requested_teams. solve_traced. }
  intros teams. apply traced_bind.
  { unfold ensureTeamReviewRequests. rewrite Hdry. solve_traced. }
  intros _. destruct (domains _) as [|d ds].
  { unfold report_no_labels, createCheckRun. solve_traced. }
  apply traced_bind; [by apply traced_await|]. intros reviews.
  apply traced_bind; [by apply evaluate_traced|]. intros evs.
  unfold report, createCheckRun. solve_traced.
Qed.

(** A dry run on the removal of a configured label. *)
Lemma dry_run_changes_no_reviewer_witness :
  dryRun dry_inputs = true
  ∧ Forall no_mutation
           (trace (run scenario_octokit dry_inputs
                       (event "unlabeled" "frontend" scenario_pr))).
Proof.
  split; [reflexivity|].
  apply (dry_run_changes_no_reviewer scenario_octokit dry_inputs
           (event "unlabeled" "frontend" scenario_pr)).
  reflexivity.
Defined.


(* ===================================================================== *)
(** ** Where an effect of a run comes from *)
(* ===================================================================== *)

Lemma createCheckRun_bookkeeping (octokit : Octokit) (headSha : option jsstring)
    (conclusion : Conclusion) (title : Title) (text : Message) :
  truthy_string (default [] headSha) = true →
  bookkeeping (checks_create conclusion title text) →
  Forall bookkeeping
         (trace (createCheckRun octokit headSha conclusion title text)).
Proof.
  intros Hsha Hcheck. rewrite (createCheckRun_trace _ _ _ _ _ Hsha).
  constructor; [done|]. destruct (on_checks_create octokit); by repeat constructor.
Qed.

(** Every effect of a run is one of its bookkeeping, or an effect of the
    retraction, of the request for reviewers, of the loop of the evaluation
    or of the report of the records, each in a run that has come that
    far. *)
Lemma run_located (octokit : Octokit) (inputs : Inputs) (context : Context)
    (e : effect) :
  e ∈ trace (run octokit inputs context) →
  bookkeeping e
  ∨ ∃ pr raw config,
      truthy_string (token inputs) = true
      ∧ pull_request context = Some pr
      ∧ truthy_string (default [] (head_sha pr)) = true
      ∧ completion (loadConfig octokit inputs) = Normal (Some config)
      ∧ validateConfig raw = inr config
      ∧ (e ∈ trace (maybeRetractOnUnlabeled octokit config inputs context)
         ∨ default false (ignoreDraft config) && draft pr = false
           ∧ (e ∈ trace (ensure_logged octokit inputs config pr
                                       (refreshed_teams octokit pr))
              ∨ ∃ reviews,
                  domains (extractDomainLabels config
                                               (default [] (pr_labels pr))) ≠ []
                  ∧ on_listReviews octokit = Resolved reviews
                  ∧ let loop :=
                      evaluate octokit inputs config
                        (extractDomainLabels config (default [] (pr_labels pr)))
                        (approvedUsers (allReviewStates reviews)) in
                    e ∈ trace loop
                    ∨ ∃ evaluations,
                        completion loop = Normal evaluations
                        ∧ e ∈ trace (report octokit inputs (head_sha pr)
                                            evaluations))).
Proof.
  intros Hin.
  assert (Hbook : ∀ t, Forall bookkeeping t → e ∈ t → bookkeeping e).
  { intros t Ht He. rewrite Forall_forall in Ht. by apply Ht. }
  rewrite run_eq in Hin. cbn [trace fst] in Hin.
  apply elem_of_app in Hin as [Hin|Hin]; cycle 1.
  { left. destruct (completion _); [by apply elem_of_nil in Hin|].
    by apply list_elem_of_singleton in Hin as ->. }
  destruct (truthy_string (token inputs)) eqn:Htok; cycle 1.
  { left. unfold run_body in Hin. rewrite Htok in Hin.
    by apply list_elem_of_singleton in Hin as ->. }
  destruct (pull_request context) as [pr|] eqn:Hpr; cycle 1.
  { left. unfold run_body in Hin. rewrite Htok, Hpr in Hin.
    revert Hin. apply Hbook. by repeat constructor. }
  destruct (truthy_string (default [] (head_sha pr))) eqn:Hsha; cycle 1.
  { left. unfold run_body in Hin. rewrite Htok, Hpr in Hin. simpl in Hin.
    destruct (head_sha pr) as [[|c s]|]; try done.
    all: by apply list_elem_of_singleton in Hin as ->. }
  rewrite (run_body_eq _ _ _ _ Htok Hpr Hsha) in Hin.
  assert (Hload : Forall bookkeeping (trace (loadConfig octokit inputs))).
  { rewrite loadConfig_eq. repeat case_match; by repeat constructor. }
  assert (Hraw : ∀ config,
            completion (loadConfig octokit inputs) = Normal (Some config) →
            ∃ raw, validateConfig raw = inr config).
  { intros config Hc. by destruct (loadConfig_loaded _ _ _ Hc) as [_ ?]. }
  destruct (loadConfig octokit inputs) as [t [[config|]|err]] eqn:Hl;
    cbn [trace completion fst snd] in *.
  2: { left. revert Hin. apply Hbook.
       apply Forall_app. split; [done|]. apply Forall_app. split.
       - by repeat constructor.
       - by apply createCheckRun_bookkeeping. }
  2: { left. revert Hin. apply Hbook.
       apply Forall_app. split; [done|]. by repeat constructor. }
  apply elem_of_app in Hin as [Hin|Hin]; [left; by eapply Hbook|].
  destruct (Hraw config eq_refl) as [raw Hvalid].
  rewrite run_with_config_eq in Hin.
  destruct (default false (ignoreDraft config) && draft pr) eqn:Hskip;
    cbn [trace fst] in Hin; apply elem_of_app in Hin as [Hin|Hin].
  - right. exists pr, raw, config. split_and!; try done. by left.
  - left. revert Hin. apply Hbook. constructor; [done|].
    apply Forall_app. split; [|by repeat constructor].
    by apply createCheckRun_bookkeeping.
  - right. exists pr, raw, config. split_and!; try done. by left.
  - pose proof (run_evaluation_eq octokit inputs config pr) as Heq.
    cbn zeta in Heq. fold (refreshed_teams octokit pr) in Heq.
    rewrite Heq in Hin. clear Heq. cbn [trace fst] in Hin.
    apply elem_of_app in Hin as [Hin|Hin].
    { left. revert Hin. apply Hbook.
      unfold refresh_requested_teams, await.
      destruct (on_pulls_get octokit); by repeat constructor. }
    apply elem_of_app in Hin as [Hin|Hin].
    { right. exists pr, raw, config. split_and!; try done. right.
      split; [done|]. by left. }
    destruct (domains (extractDomainLabels config (default [] (pr_labels pr))))
      as [|d ds] eqn:Hd.
    { left. unfold evaluation_tail in Hin. rewrite Hd in Hin.
      revert Hin. apply Hbook. rewrite report_no_labels_eq. cbn [trace fst].
      constructor; [done|]. apply Forall_app. split; [|by repeat constructor].
      by apply createCheckRun_bookkeeping. }
    pose proof (evaluation_tail_eq octokit inputs config pr) as Ht.
    cbn zeta in Ht. rewrite Hd in Ht. specialize (Ht ltac:(done)).
    rewrite Ht in Hin. clear Ht.
    destruct (on_listReviews octokit) as [reviews|status] eqn:Hrev; cycle 1.
    { left. by apply list_elem_of_singleton in Hin as ->. }
    cbn zeta in Hin.
    destruct (completion (evaluate _ _ _ _ _)) as [evs|err] eqn:Hev;
      cbn [trace fst] in Hin;
      apply elem_of_cons in Hin as [->|Hin]; try (by left).
    + right. exists pr, raw, config. split_and!; try done. right.
      split; [done|]. right. exists reviews. rewrite Hd.
      split; [done|]. split; [done|]. cbn zeta.
      apply elem_of_app in Hin as [Hin|Hin]; [by left|].
      right. by exists evs.
    + right. exists pr, raw, config. split_and!; try done. right.
      split; [done|]. right. exists reviews. rewrite Hd.
      split; [done|]. split; [done|]. cbn zeta. by left.
Qed.

(** The outputs of a run whose evaluation returns its records. *)
Lemma outputs_of_records (octokit : Octokit) (inputs : Inputs)
    (context : Context) (pr : PullRequest) (config : LabelConfig)
    (reviews : list Review) (evaluations : list EvaluatedDomain) :
  truthy_string (token inputs) = true →
  pull_request context = Some pr →
  truthy_string (default [] (head_sha pr)) = true →
  completion (loadConfig octokit inputs) = Normal (Some config) →
  default false (ignoreDraft config) && draft pr = false →
  domains (extractDomainLabels config (default [] (pr_labels pr))) ≠ [] →
  on_listReviews octokit = Resolved reviews →
  completion (evaluate octokit inputs config
                (extractDomainLabels config (default [] (pr_labels pr)))
                (approvedUsers (allReviewStates reviews)))
  = Normal evaluations →
  outputs (trace (run octokit inputs context)) = (report_seen evaluations).1.
Proof.
  intros Htok Hpr Hsha Hload Hskip Hd Hrev Hev.
  pose proof (observe_run octokit inputs context) as Hobs.
  rewrite (observe_run_body _ _ _ _ Htok Hpr Hsha), Hload in Hobs.
  rewrite observe_run_with_config, Hskip in Hobs.
  pose proof (observe_run_evaluation octokit inputs config pr) as He.
  cbn zeta in He. rewrite He in Hobs. clear He.
  destruct (domains _) as [|d ds]; [done|].
  rewrite Hrev, Hev in Hobs.
  rewrite (surjective_pairing (report_seen evaluations)) in Hobs.
  cbv beta iota in Hobs. unfold observe in Hobs. by injection Hobs as -> _ _.
Qed.

Lemma not_in_traced {A} (P : effect → Prop) (m : M A) (e : effect) :
  traced P m → ¬ P e → e ∉ trace m.
Proof.
  unfold traced. rewrite Forall_forall. intros Hm He Hin. by apply He, Hm.
Qed.

(* ===================================================================== *)
(** ** The text of the check run *)
(* ===================================================================== *)

Lemma join_prefix (sep x : jsstring) (xs : list jsstring) :
  x `prefix_of` join sep (x :: xs).
Proof. destruct xs as [|y xs]; simpl; [done|]. by apply prefix_app_r. Qed.

Lemma join_suffix (sep x : jsstring) (xs : list jsstring) :
  x `suffix_of` join sep (xs ++ [x]).
Proof.
  induction xs as [|a xs IH]; [done|].
  change ((a :: xs) ++ [x]) with (a :: (xs ++ [x])).
  destruct (xs ++ [x]) as [|b r] eqn:Hr; [by destruct xs|].
  change (join sep (a :: b :: r)) with (a ++ sep ++ join sep (b :: r)).
  by do 2 apply suffix_app_r.
Qed.

(** X20: The text of the check run of an evaluation.  In every run, a check run
    whose text is made by [formatEvaluations] is made from the records of
    that run, which are not empty: its text starts with "Label evaluation:",
    never with "No configured labels present.", and ends with the failing
    labels, which are the keys the output [missing_approvals] joins; its
    conclusion is success exactly when there is none. *)
Theorem check_run_text (Number_toString : jsnum → jsstring)
    (octokit : Octokit) (inputs : Inputs) (context : Context)
    (conclusion : Conclusion) (title : Title)
    (evaluations : list EvaluatedDomain) (mode : SummaryMode) :
  checks_create conclusion title (FormattedEvaluations evaluations mode)
    ∈ trace (run octokit inputs context) →
  evaluations ≠ []
  ∧ mode = summaryMode inputs
  ∧ conclusion
    = (if bool_decide (missing_keys evaluations = []) then success else failure)
  ∧ outputs (trace (run octokit inputs context)) = (report_seen evaluations).1
  ∧ u16 "Label evaluation:"
      `prefix_of` formatEvaluations Number_toString evaluations mode
  ∧ (u16 "Failing labels: " ++ listed (missing_keys evaluations))
      `suffix_of` formatEvaluations Number_toString evaluations mode.
Proof.
  intros Hin.
  set (e := checks_create conclusion title (FormattedEvaluations evaluations mode)) in *.
  assert (He : ¬ unformatted e) by (by intros []).
  assert (Hmain : evaluations ≠ [] ∧ mode = summaryMode inputs
            ∧ conclusion = (if bool_decide (missing_keys evaluations = [])
                            then success else failure)
            ∧ outputs (trace (run octokit inputs context))
              = (report_seen evaluations).1).
  { destruct (run_located octokit inputs context e Hin)
      as [Hb|(pr & raw & config & Htok & Hpr & Hsha & Hload & Hvalid & Hwhere)];
      [unfold e in Hb; simpl in Hb; by repeat case_match|].
    destruct Hwhere as [Hr|(Hskip & [Hr|(reviews & Hd & Hrev & Hr)])].
    { exfalso. revert Hr. apply (not_in_traced unformatted); [|done].
      unfold maybeRetractOnUnlabeled. solve_traced. }
    { exfalso. revert Hr. apply (not_in_traced unformatted); [|done].
      unfold ensure_logged, ensureTeamReviewRequests. solve_traced. }
    cbn zeta in Hr. destruct Hr as [Hr|(evs & Hev & Hr)].
    { exfalso. revert Hr. apply (not_in_traced unformatted); [|done].
      by apply evaluate_traced. }
    pose proof (report_eq octokit inputs (head_sha pr) evs) as Hrep.
    cbn zeta in Hrep. rewrite Hrep in Hr. clear Hrep. cbn [trace fst] in Hr.
    rewrite (createCheckRun_trace _ _ _ _ _ Hsha) in Hr.
    assert (Heq : e = checks_create
                        (if negb (bool_decide (missing_keys evs = []))
                         then failure else success)
                        (SummaryTitle
                           (if negb (bool_decide (missing_keys evs = []))
                            then MissingApprovals else AllSatisfied))
                        (FormattedEvaluations evs (summaryMode inputs))).
    { apply elem_of_app in Hr as [Hr|Hr].
      - apply elem_of_cons in Hr as [Hr|Hr]; [done|]. exfalso.
        destruct (on_checks_create octokit); [by apply elem_of_nil in Hr|].
        by apply list_elem_of_singleton in Hr.
      - exfalso. repeat (apply elem_of_cons in Hr as [Hr|Hr]; [done|]).
        apply elem_of_cons in Hr as [Hr|Hr]; [by destruct (negb _)|].
        by apply elem_of_nil in Hr. }
    unfold e in Heq. injection Heq as -> -> -> ->.
    split_and!.
    - pose proof (evaluate_validated octokit inputs raw config
                    (default [] (pr_labels pr))
                    (approvedUsers (allReviewStates reviews)) Hvalid) as [_ Hrec].
      cbn zeta in Hrec. rewrite Hev in Hrec. rewrite Hrec.
      by destruct (domains _).
    - done.
    - by destruct (bool_decide _).
    - by eapply outputs_of_records. }
  destruct Hmain as (Hne & -> & -> & Hout). split_and!; try done.
  - unfold formatEvaluations, formatEvaluations_lines.
    destruct evaluations as [|d ds]; [done|]. apply join_prefix.
  - unfold formatEvaluations, formatEvaluations_lines.
    match goal with
    | |- _ `suffix_of` join _ (?h ++ [?a; ?b; ?c]) =>
        change (h ++ [a; b; c]) with (h ++ [a; b] ++ [c]);
        rewrite (app_assoc h [a; b] [c])
    end.
    apply join_suffix.
Qed.

(** Scenario A: the check run of the evaluation. *)
Lemma check_run_text_witness :
  let context := event "labeled" "billing" scenario_pr in
  let check :=
    checks_create failure (SummaryTitle MissingApprovals)
                  (FormattedEvaluations scenario_evaluations standard) in
  check ∈ trace (run scenario_octokit plain_inputs context)
  ∧ u16 "Label evaluation:"
      `prefix_of` formatEvaluations small_number_text scenario_evaluations
                                    standard
  ∧ u16 "Failing labels: billing"
      `suffix_of` formatEvaluations small_number_text scenario_evaluations
                                    standard.
Proof.
  intros context check.
  assert (Hin : check ∈ trace (run scenario_octokit plain_inputs context)).
  { vm_compute. do 7 right. left. }
  split; [exact Hin|].
  destruct (check_run_text small_number_text scenario_octokit plain_inputs
              context failure (SummaryTitle MissingApprovals)
              scenario_evaluations standard Hin)
    as (_ & _ & _ & _ & Hprefix & Hsuffix).
  split; [exact Hprefix|exact Hsuffix].
Defined.

(* ===================================================================== *)
(** ** The teams a run requests *)
(* ===================================================================== *)

Lemma existingRequestedTeamSlugs_elem (teams : option (list (option jsstring)))
    (slug : jsstring) :
  slug ∈ existingRequestedTeamSlugs teams
  ↔ slug ≠ [] ∧ Some slug ∈ default [] teams.
Proof.
  unfold existingRequestedTeamSlugs.
  rewrite elem_of_list_to_set, list_elem_of_filter, list_elem_of_omap.
  split.
  - intros [Ht (x & Hx & Hs)]. destruct x as [s|]; [|done].
    injection Hs as ->. split; [by destruct slug|done].
  - intros [Hne Hin]. split; [by destruct slug|]. by exists (Some slug).
Qed.

(** A request for reviewers in a run comes from the ensure operation of a
    run that has come to it. *)
Lemma request_located (octokit : Octokit) (inputs : Inputs) (context : Context)
    (teams : list (prop jsstring)) :
  pulls_requestReviewers teams ∈ trace (run octokit inputs context) →
  ∃ pr raw config,
    truthy_string (token inputs) = true
    ∧ pull_request context = Some pr
    ∧ truthy_string (default [] (head_sha pr)) = true
    ∧ completion (loadConfig octokit inputs) = Normal (Some config)
    ∧ validateConfig raw = inr config
    ∧ default false (ignoreDraft config) && draft pr = false
    ∧ dryRun inputs = false
    ∧ teams ≠ []
    ∧ teams = toRequest config
                (domains (extractDomainLabels config
                            (default [] (pr_labels pr))))
                (existingRequestedTeamSlugs (refreshed_teams octokit pr)).
Proof.
  intros Hin.
  set (other := λ e : effect, e ≠ pulls_requestReviewers teams).
  assert (Hnot : ¬ other (pulls_requestReviewers teams)) by (by intros []).
  destruct (run_located octokit inputs context _ Hin)
    as [Hb|(pr & raw & config & Htok & Hpr & Hsha & Hload & Hvalid & Hwhere)];
    [done|].
  destruct Hwhere as [Hr|(Hskip & [Hr|(reviews & Hd & Hrev & Hr)])].
  { exfalso. revert Hr. apply (not_in_traced other); [|done].
    unfold maybeRetractOnUnlabeled. solve_traced. }
  2: { exfalso. cbn zeta in Hr. destruct Hr as [Hr|(evs & Hev & Hr)];
         revert Hr; (apply (not_in_traced other); [|done]).
       - by apply evaluate_traced.
       - unfold report, createCheckRun. solve_traced. }
  assert (Hr' : pulls_requestReviewers teams
                ∈ trace (ensureTeamReviewRequests octokit config
                           (domains (extractDomainLabels config
                                       (default [] (pr_labels pr))))
                           (existingRequestedTeamSlugs
                              (refreshed_teams octokit pr)) inputs)).
  { unfold ensure_logged, try_catch in Hr.
    destruct (ensureTeamReviewRequests _ _ _ _ _) as [t [[]|err]];
      cbn [trace fst snd] in *; [done|].
    apply elem_of_app in Hr as [Hr|Hr]; [done|].
    by apply list_elem_of_singleton in Hr. }
  clear Hr. rewrite ensureTeamReviewRequests_trace in Hr'.
  destruct (toRequest _ _ _) as [|t ts] eqn:Hto;
    [by apply elem_of_nil in Hr'|].
  destruct (dryRun inputs); [by apply list_elem_of_singleton in Hr'|].
  assert (Hteams : teams = t :: ts).
  { apply elem_of_cons in Hr' as [Hr'|Hr']; [by injection Hr'|]. exfalso.
    destruct (on_requestReviewers octokit (t :: ts));
      [by apply list_elem_of_singleton in Hr'|].
    destruct (decide _); [by apply list_elem_of_singleton in Hr'|].
    by apply elem_of_nil in Hr'. }
  exists pr, raw, config. split_and!; try done; [by rewrite Hteams|].
  by rewrite Hto.
Qed.

(** X21: The teams a run requests.  A run sends a request for reviewers only
    outside dry-run, and the teams it names are the teams of the configured
    labels of the pull request, less the teams already requested: as the
    pull request says when it is read afresh, or as the event said when that
    read fails.  So no team known to be requested is requested again. *)
Theorem run_requests_missing_teams (octokit : Octokit) (inputs : Inputs)
    (context : Context) (teams : list (prop jsstring)) :
  pulls_requestReviewers teams ∈ trace (run octokit inputs context) →
  dryRun inputs = false
  ∧ teams ≠ []
  ∧ ∃ pr config,
      pull_request context = Some pr
      ∧ completion (loadConfig octokit inputs) = Normal (Some config)
      ∧ ∀ team, team ∈ teams ↔
          ∃ d slug,
            d ∈ domains (extractDomainLabels config (default [] (pr_labels pr)))
            ∧ labels config !! d = Some slug
            ∧ team = Own slug
            ∧ Some slug ∉ default [] (refreshed_teams octokit pr).
Proof.
  intros Hin.
  destruct (request_located octokit inputs context teams Hin)
    as (pr & raw & config & Htok & Hpr & Hsha & Hload & Hvalid & Hskip
        & Hdry & Hne & Hteams).
  split; [done|]. split; [done|].
  exists pr, config. split; [done|]. split; [done|].
  intros team. rewrite Hteams.
  rewrite (toRequest_validated raw config _ _ team Hvalid).
  split.
  - intros (d & slug & Hdin & Hl & -> & Hn). exists d, slug.
    split_and!; try done. intros Hs. apply Hn.
    apply existingRequestedTeamSlugs_elem. split; [|done].
    pose proof (validated_domains_ok raw config (default [] (pr_labels pr))
                  Hvalid) as Hok.
    rewrite Forall_forall in Hok. destruct (Hok d Hdin) as (slug' & Hl' & Hs' & _).
    rewrite Hl in Hl'. injection Hl' as <-. by destruct slug.
  - intros (d & slug & Hdin & Hl & -> & Hn). exists d, slug.
    split_and!; try done. intros Hs. apply Hn.
    by apply existingRequestedTeamSlugs_elem in Hs as [_ ?].
Qed.

(** Scenario A when the pull request cannot be read again and the event
    says that web-platform is requested: the run requests finance-eng
    only. *)
Lemma run_requests_missing_teams_witness :
  let context := event "labeled" "billing" half_requested_pr in
  pulls_requestReviewers [Own (u16 "finance-eng")]
    ∈ trace (run forgetful_octokit plain_inputs context)
  ∧ dryRun plain_inputs = false.
Proof.
  intros context.
  assert (Hin : pulls_requestReviewers [Own (u16 "finance-eng")]
                ∈ trace (run forgetful_octokit plain_inputs context)).
  { vm_compute. do 3 right. left. }
  split; [exact Hin|].
  exact (proj1 (run_requests_missing_teams forgetful_octokit plain_inputs
                  context [Own (u16 "finance-eng")] Hin)).
Defined.

(* ===================================================================== *)
(** ** Requests for reviewers that are rejected *)
(* ===================================================================== *)

(** The effects of a run that comes to its evaluation, step by step. *)
Lemma run_trace_evaluation (octokit : Octokit) (inputs : Inputs)
    (context : Context) (pr : PullRequest) (config : LabelConfig) :
  truthy_string (token inputs) = true →
  pull_request context = Some pr →
  truthy_string (default [] (head_sha pr)) = true →
  completion (loadConfig octokit inputs) = Normal (Some config) →
  default false (ignoreDraft config) && draft pr = false →
  trace (run octokit inputs context)
  = (trace (loadConfig octokit inputs)
       ++ trace (maybeRetractOnUnlabeled octokit config inputs context)
       ++ trace (refresh_requested_teams octokit pr))
    ++ trace (ensure_logged octokit inputs config pr
                            (refreshed_teams octokit pr))
    ++ (trace (evaluation_tail octokit inputs config pr)
          ++ match completion (evaluation_tail octokit inputs config pr) with
             | Normal _ => []
             | Throw e => [setFailed (Unhandled e)]
             end).
Proof.
  intros Htok Hpr Hsha Hload Hskip. rewrite run_eq.
  rewrite (run_body_eq _ _ _ _ Htok Hpr Hsha).
  destruct (loadConfig octokit inputs) as [t r]. simpl in Hload. subst r.
  rewrite run_with_config_eq, Hskip.
  pose proof (run_evaluation_eq octokit inputs config pr) as Heq.
  cbn zeta in Heq. fold (refreshed_teams octokit pr) in Heq. rewrite Heq.
  cbn [trace completion fst snd]. by rewrite <- !app_assoc.
Qed.

(** What the request for the missing teams leaves in the log, by its
    answer. *)
Lemma ensure_logged_answered (octokit : Octokit) (inputs : Inputs)
    (config : LabelConfig) (pr : PullRequest)
    (requested : option (list (option jsstring))) :
  let teams :=
    toRequest config
      (domains (extractDomainLabels config (default [] (pr_labels pr))))
      (existingRequestedTeamSlugs requested) in
  teams ≠ [] → dryRun inputs = false →
  trace (ensure_logged octokit inputs config pr requested)
  = [pulls_requestReviewers teams;
     match on_requestReviewers octokit teams with
     | Resolved _ => info (RequestedTeams teams)
     | Rejected status => rejection_warning status
     end].
Proof.
  intros teams Hne Hdry.
  unfold ensure_logged, ensureTeamReviewRequests. fold teams. rewrite Hdry.
  destruct teams as [|team rest]; [done|]. unfold await, rejection_warning.
  destruct (on_requestReviewers octokit (team :: rest)) as [[]|status];
    [done|].
  destruct (decide (status = Some 422%Z)) as [->|Hs]; [done|].
  destruct status as [[|p|p]|]; try done.
  repeat (destruct p as [p|p|]; try done).
Qed.

(** X12: When the request for reviewers is rejected.  The run goes on as if the
    request had been accepted: its effects are those of the run against a
    remote side that accepts the request and answers all else alike, but
    for one line of the log.  Where that run logs the teams it requested,
    this one logs a warning: that the requests may exist already when the
    status is 422, and "Failed ensuring team review requests" with the error
    for any other status. *)
Theorem ensure_failure (octokit : Octokit) (inputs : Inputs)
    (context : Context) (teams : list (prop jsstring)) (status : option Z) :
  pulls_requestReviewers teams ∈ trace (run octokit inputs context) →
  on_requestReviewers octokit teams = Rejected status →
  ∃ before after,
    trace (run octokit inputs context)
    = before ++ [pulls_requestReviewers teams; rejection_warning status]
             ++ after
    ∧ trace (run (accepting octokit) inputs context)
      = before ++ [pulls_requestReviewers teams; info (RequestedTeams teams)]
               ++ after.
Proof.
  intros Hin Hrej.
  destruct (request_located octokit inputs context teams Hin)
    as (pr & raw & config & Htok & Hpr & Hsha & Hload & Hvalid & Hskip
        & Hdry & Hne & Hteams).
  exists (trace (loadConfig octokit inputs)
            ++ trace (maybeRetractOnUnlabeled octokit config inputs context)
            ++ trace (refresh_requested_teams octokit pr)),
         (trace (evaluation_tail octokit inputs config pr)
            ++ match completion (evaluation_tail octokit inputs config pr) with
               | Normal _ => []
               | Throw e => [setFailed (Unhandled e)]
               end).
  split.
  - rewrite (run_trace_evaluation _ _ _ pr config Htok Hpr Hsha Hload Hskip).
    pose proof (ensure_logged_answered octokit inputs config pr
                  (refreshed_teams octokit pr)) as He.
    cbn zeta in He. rewrite <- Hteams in He. rewrite (He Hne Hdry), Hrej.
    done.
  - rewrite (run_trace_evaluation (accepting octokit) _ _ pr config
               Htok Hpr Hsha Hload Hskip).
    pose proof (ensure_logged_answered (accepting octokit) inputs config pr
                  (refreshed_teams octokit pr)) as He.
    cbn zeta in He. rewrite <- Hteams in He.
    change (refreshed_teams (accepting octokit) pr)
      with (refreshed_teams octokit pr).
    rewrite (He Hne Hdry). done.
Qed.

(** Scenario A against a remote side that refuses the request for reviewers
    with the status 403: the failure is logged. *)
Lemma ensure_failure_witness :
  let context := event "labeled" "billing" scenario_pr in
  let teams := [Own (u16 "web-platform"); Own (u16 "finance-eng")] in
  pulls_requestReviewers teams
    ∈ trace (run grudging_octokit plain_inputs context)
  ∧ warning (FailedEnsuring (RequestError (Some 403%Z)))
      ∈ trace (run grudging_octokit plain_inputs context).
Proof.
  intros context teams.
  assert (Hin : pulls_requestReviewers teams
                ∈ trace (run grudging_octokit plain_inputs context)).
  { vm_compute. do 3 right. left. }
  split; [exact Hin|].
  destruct (ensure_failure grudging_octokit plain_inputs context teams
              (Some 403%Z) Hin eq_refl) as (before & after & Hrun & _).
  rewrite Hrun. apply elem_of_app. right. right. left.
Defined.

(* ===================================================================== *)
(** ** The debug log *)
(* ===================================================================== *)

Lemma without_debug_app (t1 t2 : list effect) :
  without_debug (t1 ++ t2) = without_debug t1 ++ without_debug t2.
Proof. unfold without_debug. apply filter_app. Qed.

Lemma without_debug_id (t : list effect) :
  Forall (λ e, is_debug e = false) t → without_debug t = t.
Proof.
  unfold without_debug. induction 1 as [|e t He _ IH]; [done|].
  rewrite filter_cons, decide_True by done. by rewrite IH.
Qed.

Lemma fetchTeamMembers_debug (octokit : Octokit) (slug : jsstring)
    (cache : TeamMembersCache) :
  without_debug (trace (fetchTeamMembers octokit slug cache true))
  = trace (fetchTeamMembers octokit slug cache false).
Proof.
  unfold fetchTeamMembers, await. destruct (get cache slug); [done|].
  by destruct (on_listMembersInOrg octokit slug).
Qed.

Lemma evaluate_domain_debug (octokit : Octokit) (inputs : Inputs)
    (config : LabelConfig) (extraction : DomainExtractionResult)
    (approved : list jsstring) (st : TeamMembersCache * list EvaluatedDomain)
    (d : jsstring) :
  without_debug
    (trace (evaluate_domain octokit (set_debug true inputs) config extraction
                            approved st d))
  = trace (evaluate_domain octokit (set_debug false inputs) config extraction
                           approved st d).
Proof.
  destruct st as [cache evs]. unfold evaluate_domain.
  destruct (get (labels config) d) as [[[|c s]|k]|]; try done.
  destruct (Map_get _ _) as [[|c' l]|]; try done.
  cbn [debug set_debug].
  rewrite !trace_bind, without_debug_app, fetchTeamMembers_debug.
  rewrite !fetchTeamMembers_completion. f_equal.
  destruct (get cache (c :: s)) as [cached|]; cbn zeta beta iota.
  - rewrite !trace_bind. unfold collect_approvers.
    destruct cached as [members|k]; [done|]. by destruct approved.
  - by rewrite !trace_bind.
Qed.

Lemma for_of_debug {S A} (f g : S → A → M S) :
  (∀ st x, without_debug (trace (f st x)) = trace (g st x)) →
  (∀ st x, completion (f st x) = completion (g st x)) →
  ∀ xs st, without_debug (trace (for_of f st xs)) = trace (for_of g st xs).
Proof.
  intros Ht Hc xs. induction xs as [|x xs IH]; intros st; [done|].
  rewrite !for_of_cons, !trace_bind, without_debug_app, Ht, Hc.
  destruct (completion (g st x)); [by rewrite IH|done].
Qed.

Lemma evaluate_debug (octokit : Octokit) (inputs : Inputs)
    (config : LabelConfig) (extraction : DomainExtractionResult)
    (approved : list jsstring) :
  without_debug
    (trace (evaluate octokit (set_debug true inputs) config extraction approved))
  = trace (evaluate octokit (set_debug false inputs) config extraction approved).
Proof.
  unfold evaluate. rewrite !trace_bind, without_debug_app.
  rewrite (for_of_debug
             (evaluate_domain octokit (set_debug true inputs) config extraction
                              approved)
             (evaluate_domain octokit (set_debug false inputs) config extraction
                              approved)).
  - f_equal.
    rewrite (for_of_completion_ext
               (evaluate_domain octokit (set_debug true inputs) config extraction
                                approved)
               (evaluate_domain octokit (set_debug false inputs) config
                                extraction approved)).
    + by destruct (completion _).
    + intros st d. by apply evaluate_domain_completion_ext.
  - intros st d. apply evaluate_domain_debug.
  - intros st d. by apply evaluate_domain_completion_ext.
Qed.

(** X22: The debug log.  Switching [debug] on changes a run in one way only: it
    adds lines to the log, those that tell how many members a team has.
    Without them the run is, effect for effect, the run with [debug] off. *)
Theorem debug_only_logs (octokit : Octokit) (inputs : Inputs)
    (context : Context) :
  without_debug (trace (run octokit (set_debug true inputs) context))
  = trace (run octokit (set_debug false inputs) context).
Proof.
  set (i1 := set_debug true inputs). set (i0 := set_debug false inputs).
  assert (Hid : ∀ {A} (m : M A),
            traced (λ e, is_debug e = false) m → without_debug (trace m) = trace m).
  { intros A m. apply without_debug_id. }
  assert (Hbody : without_debug (trace (run_body octokit i1 context))
                  = trace (run_body octokit i0 context)
                  ∧ completion (run_body octokit i1 context)
                    = completion (run_body octokit i0 context)).
  { destruct (truthy_string (token inputs)) eqn:Htok; cycle 1.
    { unfold run_body. cbn [token set_debug i1 i0]. by rewrite Htok. }
    destruct (pull_request context) as [pr|] eqn:Hpr; cycle 1.
    { unfold run_body. cbn [token set_debug i1 i0]. by rewrite Htok, Hpr. }
    destruct (truthy_string (default [] (head_sha pr))) eqn:Hsha; cycle 1.
    { unfold run_body. cbn [token set_debug i1 i0]. rewrite Htok, Hpr. simpl.
      by destruct (head_sha pr) as [[|c s]|]. }
    rewrite (run_body_eq octokit i1 context pr Htok Hpr Hsha).
    rewrite (run_body_eq octokit i0 context pr Htok Hpr Hsha).
    change (loadConfig octokit i1) with (loadConfig octokit i0).
    assert (Hload : without_debug (trace (loadConfig octokit i0))
                    = trace (loadConfig octokit i0)).
    { apply Hid. unfold loadConfig. solve_traced. }
    assert (Hcheck : ∀ conclusion title text,
              without_debug
                (trace (createCheckRun octokit (head_sha pr) conclusion title text))
              = trace (createCheckRun octokit (head_sha pr) conclusion title text)).
    { intros. apply Hid. unfold createCheckRun. solve_traced. }
    destruct (loadConfig octokit i0) as [t [[config|]|e]];
      cbn [trace completion fst snd] in *;
      rewrite !without_debug_app, Hload.
    2: { by rewrite Hcheck. }
    2: { done. }
    rewrite !run_with_config_eq.
    change (maybeRetractOnUnlabeled octokit config i1 context)
      with (maybeRetractOnUnlabeled octokit config i0 context).
    assert (Hretract :
              without_debug
                (trace (maybeRetractOnUnlabeled octokit config i0 context))
              = trace (maybeRetractOnUnlabeled octokit config i0 context)).
    { apply Hid. unfold maybeRetractOnUnlabeled. solve_traced. }
    destruct (default false (ignoreDraft config) && draft pr);
      cbn [trace completion fst snd]; rewrite !without_debug_app, Hretract.
    { by rewrite Hcheck. }
    pose proof (run_evaluation_eq octokit i1 config pr) as H1.
    pose proof (run_evaluation_eq octokit i0 config pr) as H0.
    cbn zeta in H1, H0. rewrite H1, H0. clear H1 H0.
    cbn [trace completion fst snd]. rewrite !without_debug_app.
    rewrite (Hid _ (refresh_requested_teams octokit pr))
      by (unfold refresh_requested_teams; solve_traced).
    match goal with
    | |- context [ensure_logged octokit i1 config pr ?teams] =>
        change (ensure_logged octokit i1 config pr teams)
          with (ensure_logged octokit i0 config pr teams);
        rewrite (Hid _ (ensure_logged octokit i0 config pr teams))
          by (unfold ensure_logged, ensureTeamReviewRequests; solve_traced)
    end.
    assert (Htail : without_debug (trace (evaluation_tail octokit i1 config pr))
                    = trace (evaluation_tail octokit i0 config pr)
                    ∧ completion (evaluation_tail octokit i1 config pr)
                      = completion (evaluation_tail octokit i0 config pr)).
    { destruct (domains (extractDomainLabels config (default [] (pr_labels pr))))
        as [|d ds] eqn:Hd.
      { unfold evaluation_tail. rewrite Hd. split; [|done]. apply Hid.
        unfold report_no_labels, createCheckRun. solve_traced. }
      pose proof (evaluation_tail_eq octokit i1 config pr) as H1.
      pose proof (evaluation_tail_eq octokit i0 config pr) as H0.
      cbn zeta in H1, H0. rewrite Hd in H1, H0.
      rewrite (H1 ltac:(done)), (H0 ltac:(done)). clear H1 H0.
      destruct (on_listReviews octokit) as [reviews|status]; [|done].
      cbn zeta.
      rewrite (evaluate_completion_ext octokit octokit i1 i0) by done.
      pose proof (evaluate_debug octokit inputs config
                    (extractDomainLabels config (default [] (pr_labels pr)))
                    (approvedUsers (allReviewStates reviews))) as Hev.
      fold i1 i0 in Hev.
      destruct (completion (evaluate octokit i0 _ _ _)) as [evs|e];
        cbn [trace completion fst snd].
      - split; [|done].
        change (pulls_listReviews :: ?t ++ ?u) with ([pulls_listReviews] ++ t ++ u).
        rewrite !without_debug_app, Hev.
        change (report octokit i1 (head_sha pr) evs)
          with (report octokit i0 (head_sha pr) evs).
        rewrite (Hid _ (report octokit i0 (head_sha pr) evs)); [done|].
        unfold report, createCheckRun. solve_traced.
      - split; [|done].
        change (pulls_listReviews :: ?t) with ([pulls_listReviews] ++ t).
        by rewrite !without_debug_app, Hev. }
    destruct Htail as [Ht Hc]. by rewrite Ht, Hc. }
  destruct Hbody as [Ht Hc].
  rewrite !run_eq. cbn [trace fst]. rewrite without_debug_app, Ht, Hc.
  by destruct (completion (run_body octokit i0 context)).
Qed.
